(** * Word selection, progress tracking and quiz options of the vocabulary app

    A shallow embedding of the algorithmic core of [src/index.tsx]: the helper
    [shuffleArray], the selection engine [selectWords] of the learning screen,
    the quiz's [generateMultipleChoiceOptions], and the [App] component's
    [calculateXPLevel], [addXp], [onWordLearned], [updateWordStat],
    [onSaveCustomWord] and the streak slice of its mount effect.

    Conventions.
    - JavaScript numbers that hold counters are integers ([Z]); array indices
      and lengths are [nat].
    - Strings are [string]; [null]/[undefined] are [None].
    - [Math.random] and the [Date] API belong to the environment: random draws
      come from a stream threaded through a small state monad, and a clock
      reading is a record with the strings the [Date] calls return. *)

From Stdlib Require Import ZArith Lia Ascii Sorted.
From stdpp Require Import base option list gmap strings pretty.
From Equations Require Import Equations.

Local Open Scope Z_scope.

(** ** JavaScript primitives *)

Module Js.

(** Truthiness of a [string | null | undefined] value: only a non-empty
    string is truthy. *)
Definition truthyStr (o : option string) : bool :=
  match o with
  | Some (String _ _) => true
  | _ => false
  end.

(** Truthiness of an optional boolean ([isCustom?: boolean]). *)
Definition truthyBool (o : option bool) : bool :=
  match o with
  | Some true => true
  | _ => false
  end.

(** [s.split('T')[0]]: the prefix of [s] before its first ['T'] (all of [s]
    when there is none). *)
Fixpoint splitT0 (s : string) : string :=
  match s with
  | EmptyString => EmptyString
  | String c s' => if Ascii.eqb c "T"%char then EmptyString else String c (splitT0 s')
  end.

(** [a.slice(0, e)] for an integer [e]: a negative [e] counts from the end. *)
Definition slice0 {A} (a : list A) (e : Z) : list A :=
  let len := Z.of_nat (length a) in
  let final := if e <? 0 then Z.max (len + e) 0 else Z.min e len in
  take (Z.to_nat final) a.

(** [a.includes(x)] on an array of strings. *)
Definition includes (a : list string) (x : string) : bool :=
  bool_decide (x ∈ a).

(** [Array.from(new Set(a))]: a [Set] keeps the first occurrence of every
    value, in insertion order. *)
Fixpoint setFrom (seen : list string) (a : list string) : list string :=
  match a with
  | [] => []
  | x :: a' =>
      if includes seen x then setFrom seen a' else x :: setFrom (x :: seen) a'
  end.

Definition arrayFromSet (a : list string) : list string := setFrom [] a.

(** [[a[i], a[j]] = [a[j], a[i]]]: the right-hand side is read first, then
    [a[i]] and [a[j]] are written in that order.  The callers below keep
    [i] and [j] inside the array; outside it JavaScript would read
    [undefined] and grow the array, which a [list A] cannot hold, so that
    branch returns the array as it is (see [ShuffleFacts.swap_indices_in_range]). *)
Definition swapAt {A} (a : list A) (i j : nat) : list A :=
  match a !! i, a !! j with
  | Some x, Some y => <[j := x]> (<[i := y]> a)
  | _, _ => a
  end.

(** [a.sort(cmp)]: the sort is stable; [cmp x y <= 0] keeps [x] before [y].
    Insertion from the right gives the stable order. *)
Fixpoint insertBy {A} (cmp : A → A → Z) (x : A) (l : list A) : list A :=
  match l with
  | [] => [x]
  | y :: l' => if cmp x y <=? 0 then x :: l else y :: insertBy cmp x l'
  end.

Definition sortBy {A} (cmp : A → A → Z) (l : list A) : list A :=
  foldr (insertBy cmp) [] l.

End Js.

(** ** The random source

    [Math.floor(Math.random() * n)] is an index in [0, n).  The draws are a
    stream of naturals; the draw for bound [n] is the head of the stream
    reduced modulo [n], so every index below [n] can come out and no other. *)

Definition Rand := nat → nat.

Definition Rnd (A : Type) : Type := Rand → A * Rand.

Definition ret {A} (x : A) : Rnd A := λ rs, (x, rs).

Definition bind {A B} (c : Rnd A) (k : A → Rnd B) : Rnd B :=
  λ rs, let '(x, rs') := c rs in k x rs'.

Notation "'let*' x := c 'in' k" := (bind c (λ x, k))
  (at level 10, x name, c at level 100, k at level 200, only parsing).

Definition randomIndex (n : nat) : Rnd nat :=
  λ rs, ((rs 0 `mod` n)%nat, λ k, rs (S k)).

(** ** [shuffleArray] *)

Module Shuffle.
Section Pure.
Context {A : Type}.

(** The loop [for (let i = newArray.length - 1; i > 0; i--)], entered at
    index [i]. *)
Fixpoint shuffleLoop (i : nat) (newArray : list A) : Rnd (list A) :=
  match i with
  | O => ret newArray
  | S i' =>
      let* j := randomIndex (i + 1) in
      shuffleLoop i' (Js.swapAt newArray i j)
  end.

Definition shuffleArray (array : list A) : Rnd (list A) :=
  shuffleLoop (length array - 1) array.

End Pure.

(** The same function over a store of array objects, to make the copy
    [const newArray = [...array]] and the in-place swaps visible.  A store is
    the list of the arrays allocated so far; a reference is an index in it. *)
Section Store.
Context {A : Type}.

Abbreviation Store := (list (list A)).

(** [[...array]]: a fresh array object with the elements of [array]. *)
Definition spread (array : nat) (σ : Store) : option (nat * Store) :=
  match σ !! array with
  | Some a => Some (length σ, σ ++ [a])
  | None => None
  end.

(** The destructuring swap on the array object [r]. *)
Definition swapRef (r i j : nat) (σ : Store) : Store :=
  match σ !! r with
  | Some a => <[r := Js.swapAt a i j]> σ
  | None => σ
  end.

Fixpoint shuffleLoopRef (i : nat) (newArray : nat) (σ : Store) : Rnd Store :=
  match i with
  | O => ret σ
  | S i' =>
      let* j := randomIndex (i + 1) in
      shuffleLoopRef i' newArray (swapRef newArray i j σ)
  end.

(** Returns the reference of the result and the store after the call;
    [None] when [array] is not a reference of the store. *)
Definition shuffleArrayRef (array : nat) (σ : Store) : Rnd (option (nat * Store)) :=
  match spread array σ with
  | Some (newArray, σ1) =>
      let len := length (default [] (σ1 !! newArray)) in
      let* σ2 := shuffleLoopRef (len - 1) newArray σ1 in
      ret (Some (newArray, σ2))
  | None => ret None
  end.

End Store.
End Shuffle.

(** ** The clock

    [new Date().toISOString()] is ["YYYY-MM-DDTHH:mm:ss.sssZ"] (years 0 to
    9999).  A reading of the clock carries the current instant, the [Date]
    obtained from it by [setDate(getDate() - 1)], and [Date.now()]. *)

Module Date.

Definition digit (n : nat) : ascii :=
  match (n `mod` 10)%nat with
  | 0%nat => "0" | 1%nat => "1" | 2%nat => "2" | 3%nat => "3" | 4%nat => "4"
  | 5%nat => "5" | 6%nat => "6" | 7%nat => "7" | 8%nat => "8" | _ => "9"
  end%char.

Definition pad2 (n : nat) (k : string) : string :=
  String (digit (n / 10)) (String (digit n) k).

Definition pad3 (n : nat) (k : string) : string :=
  String (digit (n / 100)) (pad2 n k).

Definition pad4 (n : nat) (k : string) : string :=
  String (digit (n / 1000)) (pad3 n k).

Record t := mk {
  year : nat; month : nat; day : nat;
  hours : nat; minutes : nat; seconds : nat; millis : nat
}.

Definition toISOString (d : t) : string :=
  pad4 (year d) (String "-" (pad2 (month d) (String "-" (pad2 (day d)
    (String "T" (pad2 (hours d) (String ":" (pad2 (minutes d) (String ":"
      (pad2 (seconds d) (String "." (pad3 (millis d) "Z"))))))))))))%char.

(** The calendar date ["YYYY-MM-DD"] of [d]. *)
Definition isoDate (d : t) : string :=
  pad4 (year d) (String "-" (pad2 (month d) (String "-" (pad2 (day d) ""))))%char.

End Date.

Record Clock := {
  current : Date.t;      (** [new Date()] *)
  dayEarlier : Date.t;   (** [new Date(new Date().setDate(new Date().getDate() - 1))] *)
  epochMillis : Z        (** [Date.now()] *)
}.

(** [getTodayDateString = () => new Date().toISOString().split('T')[0]] *)
Definition getTodayDateString (now : Clock) : string :=
  Js.splitT0 (Date.toISOString (current now)).

Definition getYesterdayDateString (now : Clock) : string :=
  Js.splitT0 (Date.toISOString (dayEarlier now)).

(** ** Data model *)

(** [id: number | string].  Numeric ids are integers. *)
Inductive WordId :=
  | IdNum (n : Z)
  | IdStr (s : string).

Global Instance WordId_eq_dec : EqDecision WordId.
Proof. solve_decision. Defined.

(** The property key under which [wordStats[wordId]] is stored: a numeric id
    is converted to its decimal string. *)
Definition propertyKey (wordId : WordId) : string :=
  match wordId with
  | IdNum n => pretty n
  | IdStr s => s
  end.

(** Truthiness of an optional id: [0] and [''] are falsy. *)
Definition truthyId (o : option WordId) : bool :=
  match o with
  | Some (IdNum n) => negb (n =? 0)
  | Some (IdStr s) => Js.truthyStr (Some s)
  | None => false
  end.

(** [unit?: string | number] *)
Inductive UnitKey :=
  | UnitNum (n : Z)
  | UnitStr (s : string).

Module Word.
Record t := mk {
  id : WordId;
  term : string;
  pronunciation : option string;
  partOfSpeech : string;
  meaning : string;
  exampleSentence : string;
  exampleSentenceMeaning : option string;
  gradeLevel : string;
  isCustom : option bool;
  unit : option UnitKey
}.
End Word.

(** [Partial<Word>] *)
Module WordData.
Record t := mk {
  id : option WordId;
  term : option string;
  pronunciation : option string;
  partOfSpeech : option string;
  meaning : option string;
  exampleSentence : option string;
  exampleSentenceMeaning : option string;
  gradeLevel : option string;
  isCustom : option bool;
  unit : option UnitKey
}.
End WordData.

Module WordStat.
Record t := mk {
  id : WordId;
  isMastered : bool;
  lastReviewed : option string;
  quizIncorrectCount : Z
}.
End WordStat.

(** [Partial<Omit<WordStat, 'id'>>] *)
Module StatPatch.
Record t := mk {
  isMastered : option bool;
  lastReviewed : option (option string);
  quizIncorrectCount : option Z
}.
End StatPatch.

Definition getDefaultWordStat (wordId : WordId) : WordStat.t :=
  {| WordStat.id := wordId;
     WordStat.isMastered := false;
     WordStat.lastReviewed := None;
     WordStat.quizIncorrectCount := 0 |}.

(** [wordStats[wordId] || getDefaultWordStat(wordId)] *)
Definition getWordStat (wordStats : gmap string WordStat.t) (wordId : WordId) : WordStat.t :=
  default (getDefaultWordStat wordId) (wordStats !! propertyKey wordId).

(** [!stat.lastReviewed || stat.lastReviewed.split('T')[0] !== today] *)
Definition notReviewedOn (today : string) (lastReviewed : option string) : bool :=
  match lastReviewed with
  | Some s => negb (Js.truthyStr (Some s)) || negb (bool_decide (Js.splitT0 s = today))
  | None => true
  end.

(** [stat.lastReviewed && stat.lastReviewed.split('T')[0] !== today] *)
Definition reviewedBefore (today : string) (lastReviewed : option string) : bool :=
  match lastReviewed with
  | Some s => Js.truthyStr (Some s) && negb (bool_decide (Js.splitT0 s = today))
  | None => false
  end.

(** ** Selection engine ([LearnWordsScreen.selectWords]) *)

Section Selection.
(** [new Date(s).getTime()]: the epoch milliseconds of a date string, [None]
    when the string is not a date ([NaN]). *)
Variable getTime : string → option Z.

(** The props of the screen. *)
Variable words : list Word.t.
Variable wordStats : gmap string WordStat.t.
Variable grade : string.

(** The first filter: grade and mastery. *)
Definition gradeUnmastered : list Word.t :=
  filter (λ w, bool_decide (Word.gradeLevel w = grade)
               && negb (WordStat.isMastered (getWordStat wordStats (Word.id w))))
         words.

(** The list [eligibleWords] after the second, mode-specific filter. *)
Definition eligibleWords (now : Clock) (forQuickReview : bool) : list Word.t :=
  let today := getTodayDateString now in
  if forQuickReview then
    filter (λ w, reviewedBefore today
                   (WordStat.lastReviewed (getWordStat wordStats (Word.id w))))
           gradeUnmastered
  else
    filter (λ w, notReviewedOn today
                   (WordStat.lastReviewed (getWordStat wordStats (Word.id w))))
           gradeUnmastered.

(** [stat.lastReviewed ? new Date(stat.lastReviewed).getTime() : 0] *)
Definition reviewTime (stat : WordStat.t) : option Z :=
  if Js.truthyStr (WordStat.lastReviewed stat)
  then getTime (default "" (WordStat.lastReviewed stat))
  else Some 0.

(** The comparator passed to [sort].  A [NaN] time makes [dateA !== dateB]
    hold and the returned difference [NaN], which [sort] reads as [0]. *)
Definition compareWords (a b : Word.t) : Z :=
  let statA := getWordStat wordStats (Word.id a) in
  let statB := getWordStat wordStats (Word.id b) in
  if negb (WordStat.quizIncorrectCount statB =? WordStat.quizIncorrectCount statA)
  then WordStat.quizIncorrectCount statB - WordStat.quizIncorrectCount statA
  else
    match reviewTime statA, reviewTime statB with
    | Some dateA, Some dateB =>
        if negb (dateA =? dateB) then dateA - dateB
        else if Js.truthyBool (Word.isCustom a) && negb (Js.truthyBool (Word.isCustom b)) then -1
        else if negb (Js.truthyBool (Word.isCustom a)) && Js.truthyBool (Word.isCustom b) then 1
        else 0
    | _, _ => 0
    end.

Definition selectWords (now : Clock) (count : Z) (forQuickReview : bool)
  : Rnd (list Word.t) :=
  let sorted := Js.sortBy compareWords (eligibleWords now forQuickReview) in
  let* shuffled := Shuffle.shuffleArray sorted in
  ret (Js.slice0 shuffled count).

End Selection.

(** ** Quiz options ([QuizScreen.generateMultipleChoiceOptions]) *)

Definition placeholders : list string := ["관련 없음"; "다른 뜻"; "오답 예시"].

Section Quiz.
Variable words : list Word.t.
Variable grade : string.

Definition gradeWords : list Word.t :=
  filter (λ w, Word.gradeLevel w = grade) words.

(** The meanings shuffled into [incorrectMeaningPool]. *)
Definition incorrectMeanings (correctWord : Word.t) : list string :=
  filter (λ meaning, meaning ≠ Word.meaning correctWord)
    (Word.meaning <$> filter (λ w, Word.id w ≠ Word.id correctWord) gradeWords).

(** The words a fallback option is drawn from. *)
Definition fallbackCandidates (correctWord : Word.t) (uniqueIncorrectOptions : list string)
  : list Word.t :=
  filter (λ w, Word.id w ≠ Word.id correctWord
               ∧ Js.includes uniqueIncorrectOptions (Word.meaning w) = false
               ∧ Word.meaning w ≠ Word.meaning correctWord)
         gradeWords.

(** The first [while] loop.  Every turn that does not leave the loop pushes
    one option, so [3 - length] decreases. *)
Equations fallbackLoop (correctWord : Word.t) (uniqueIncorrectOptions : list string)
  (rs : Rand) : list string * Rand
  by wf (3 - length uniqueIncorrectOptions)%nat lt :=
fallbackLoop correctWord uniqueIncorrectOptions rs
  with decide (length uniqueIncorrectOptions < 3)%nat => {
  | right _ => (uniqueIncorrectOptions, rs)
  | left Hshort =>
      if bool_decide (length uniqueIncorrectOptions + 1 < length gradeWords)%nat then
        let shuffled := Shuffle.shuffleArray
                          (fallbackCandidates correctWord uniqueIncorrectOptions) rs in
        match Word.meaning <$> head shuffled.1 with
        | Some fallbackOption =>
            if Js.truthyStr (Some fallbackOption)
               && negb (Js.includes uniqueIncorrectOptions fallbackOption)
            then fallbackLoop correctWord (uniqueIncorrectOptions ++ [fallbackOption])
                   shuffled.2
            else (uniqueIncorrectOptions, shuffled.2)
        | None => (uniqueIncorrectOptions, shuffled.2)
        end
      else (uniqueIncorrectOptions, rs) }.
Next Obligation. rewrite length_app. simpl. lia. Qed.

(** The second [while] loop, entered with the placeholders from
    [placeholderIndex] on; it leaves when they are used up. *)
Fixpoint placeholderLoop (rest : list string) (correctWord : Word.t)
  (uniqueIncorrectOptions : list string) : list string :=
  match rest with
  | [] => uniqueIncorrectOptions
  | placeholder :: rest' =>
      if bool_decide (length uniqueIncorrectOptions < 3)%nat then
        placeholderLoop rest' correctWord
          (if negb (Js.includes uniqueIncorrectOptions placeholder)
              && bool_decide (placeholder ≠ Word.meaning correctWord)
           then uniqueIncorrectOptions ++ [placeholder]
           else uniqueIncorrectOptions)
      else uniqueIncorrectOptions
  end.

(** The option list handed to [setOptions]. *)
Definition generateMultipleChoiceOptions (correctWord : Word.t) : Rnd (list string) :=
  let* incorrectMeaningPool := Shuffle.shuffleArray (incorrectMeanings correctWord) in
  let uniqueIncorrectOptions := Js.slice0 (Js.arrayFromSet incorrectMeaningPool) 3 in
  let* uniqueIncorrectOptions := fallbackLoop correctWord uniqueIncorrectOptions in
  let uniqueIncorrectOptions :=
    placeholderLoop placeholders correctWord uniqueIncorrectOptions in
  Shuffle.shuffleArray
    (Word.meaning correctWord :: Js.slice0 uniqueIncorrectOptions 3).

End Quiz.

(** ** XP and level ([App.calculateXPLevel], [App.addXp]) *)

Module LevelInfo.
Record t := mk { level : Z; currentLevelXp : Z; xpForNextLevel : Z }.
End LevelInfo.

(** The [while] loop of [calculateXPLevel] on its three variables.  The proof
    argument is the loop invariant that makes it terminate: the next threshold
    is positive, so [xp - cumulativeXpForLevel] decreases. *)
Equations levelLoop (xp level xpForNext cumulativeXpForLevel : Z)
  (Hpos : 0 < xpForNext ∧ 0 < level) : LevelInfo.t
  by wf (Z.to_nat (xp - cumulativeXpForLevel)) lt :=
levelLoop xp level xpForNext cumulativeXpForLevel Hpos
  with Z_ge_dec xp (cumulativeXpForLevel + xpForNext) => {
  | left Hge =>
      levelLoop xp (level + 1) ((level + 1) * 100)
        (cumulativeXpForLevel + xpForNext) _
  | right _ =>
      {| LevelInfo.level := level;
         LevelInfo.currentLevelXp := xp - cumulativeXpForLevel;
         LevelInfo.xpForNextLevel := xpForNext |} }.
Next Obligation. lia. Qed.
Next Obligation. lia. Qed.

Definition calculateXPLevel (xp : Z) : LevelInfo.t :=
  levelLoop xp 1 100 0 (conj eq_refl eq_refl).

(** The level curve in the words of the specification: [xpThreshold n] is
    [sum_{k=1}^{n} 100 k], the cumulative XP at which level [n] is left for
    level [n + 1]. *)
Fixpoint xpThreshold (n : nat) : Z :=
  match n with
  | O => 0
  | S k => xpThreshold k + 100 * Z.of_nat (S k)
  end.

(** The fields of [UserSettings] the functions below read or write; the
    presentation settings (username, theme, speech rate, autoplay) are left
    out. *)
Module UserSettings.
Record t := mk { grade : string; dailyGoal : Z; xp : Z; level : Z }.
End UserSettings.

(** The updater passed to [setUserSettings] by [addXp].  [prevSettings.xp || 0]
    is [prevSettings.xp] on integers. *)
Definition addXp (amount : Z) (prevSettings : option UserSettings.t)
  : option UserSettings.t :=
  match prevSettings with
  | None => None
  | Some prev =>
      let newXp := (if UserSettings.xp prev =? 0 then 0 else UserSettings.xp prev) + amount in
      let newLevel := LevelInfo.level (calculateXPLevel newXp) in
      Some {| UserSettings.grade := UserSettings.grade prev;
              UserSettings.dailyGoal := UserSettings.dailyGoal prev;
              UserSettings.xp := newXp;
              UserSettings.level := newLevel |}
  end.

(** ** The state of [App] *)

Module Streak.
Record t := mk { currentStreak : Z; bestStreak : Z; lastLearnedDate : string }.
End Streak.

(** The [useState] cells of [App] that the modelled handlers use. *)
Record App := mkApp {
  userSettings : option UserSettings.t;
  allWords : list Word.t;
  wordStats : gmap string WordStat.t;
  learnedWordsTodayCount : Z;
  totalWordsLearnedOverall : Z;
  learningStreak : Streak.t
}.

Definition setUserSettings (f : option UserSettings.t → option UserSettings.t) (st : App) : App :=
  mkApp (f (userSettings st)) (allWords st) (wordStats st)
        (learnedWordsTodayCount st) (totalWordsLearnedOverall st) (learningStreak st).

Definition setAllWords (f : list Word.t → list Word.t) (st : App) : App :=
  mkApp (userSettings st) (f (allWords st)) (wordStats st)
        (learnedWordsTodayCount st) (totalWordsLearnedOverall st) (learningStreak st).

Definition setWordStats (f : gmap string WordStat.t → gmap string WordStat.t) (st : App) : App :=
  mkApp (userSettings st) (allWords st) (f (wordStats st))
        (learnedWordsTodayCount st) (totalWordsLearnedOverall st) (learningStreak st).

Definition setLearnedWordsTodayCount (f : Z → Z) (st : App) : App :=
  mkApp (userSettings st) (allWords st) (wordStats st)
        (f (learnedWordsTodayCount st)) (totalWordsLearnedOverall st) (learningStreak st).

Definition setTotalWordsLearnedOverall (f : Z → Z) (st : App) : App :=
  mkApp (userSettings st) (allWords st) (wordStats st)
        (learnedWordsTodayCount st) (f (totalWordsLearnedOverall st)) (learningStreak st).

Definition setLearningStreak (f : Streak.t → Streak.t) (st : App) : App :=
  mkApp (userSettings st) (allWords st) (wordStats st)
        (learnedWordsTodayCount st) (totalWordsLearnedOverall st) (f (learningStreak st)).

(** [{ ...(prevStats[wordId] || getDefaultWordStat(wordId)), ...newStatData, id: wordId }] *)
Definition mergeStat (wordId : WordId) (old : WordStat.t) (newStatData : StatPatch.t)
  : WordStat.t :=
  {| WordStat.id := wordId;
     WordStat.isMastered :=
       default (WordStat.isMastered old) (StatPatch.isMastered newStatData);
     WordStat.lastReviewed :=
       default (WordStat.lastReviewed old) (StatPatch.lastReviewed newStatData);
     WordStat.quizIncorrectCount :=
       default (WordStat.quizIncorrectCount old) (StatPatch.quizIncorrectCount newStatData) |}.

Definition updateWordStat (wordId : WordId) (newStatData : StatPatch.t) (st : App) : App :=
  setWordStats
    (λ prevStats,
       <[propertyKey wordId :=
           mergeStat wordId (getWordStat prevStats wordId) newStatData]> prevStats)
    st.

(** The updater passed to [setLearningStreak] by [onWordLearned]. *)
Definition streakOnLearned (now : Clock) (prevStreak : Streak.t) : Streak.t :=
  let today := getTodayDateString now in
  let newCurrentStreak :=
    if bool_decide (Streak.lastLearnedDate prevStreak = today)
    then Streak.currentStreak prevStreak
    else if bool_decide (Streak.lastLearnedDate prevStreak = getYesterdayDateString now)
         then Streak.currentStreak prevStreak + 1
         else 1 in
  {| Streak.currentStreak := newCurrentStreak;
     Streak.bestStreak := Z.max (Streak.bestStreak prevStreak) newCurrentStreak;
     Streak.lastLearnedDate := today |}.

Definition onWordLearned (now : Clock) (wordId : WordId) (isQuickReview : bool)
  (st : App) : App :=
  let today := getTodayDateString now in
  let stat := getWordStat (wordStats st) wordId in
  let wasLearnedTodayForTheFirstTime := notReviewedOn today (WordStat.lastReviewed stat) in
  let st :=
    updateWordStat wordId
      {| StatPatch.isMastered := None;
         StatPatch.lastReviewed := Some (Some (Date.toISOString (current now)));
         StatPatch.quizIncorrectCount := None |} st in
  if wasLearnedTodayForTheFirstTime && negb isQuickReview then
    let st := setLearnedWordsTodayCount (λ prev, prev + 1) st in
    let st := setTotalWordsLearnedOverall (λ prev, prev + 1) st in
    let st := setUserSettings (addXp 5) st in
    setLearningStreak (streakOnLearned now) st
  else if isQuickReview then
    setUserSettings (addXp 1) st
  else st.

(** The stat [onWordLearned] stores for a word whose stat was [old]. *)
Definition reviewedStat (now : Clock) (wordId : WordId) (old : WordStat.t) : WordStat.t :=
  {| WordStat.id := wordId;
     WordStat.isMastered := WordStat.isMastered old;
     WordStat.lastReviewed := Some (Date.toISOString (current now));
     WordStat.quizIncorrectCount := WordStat.quizIncorrectCount old |}.

(** The streak part of the mount effect: [storedStreak] is the parsed
    ['learningStreak'] entry of the storage, [None] when there is none. *)
Definition loadLearningStreak (now : Clock) (storedStreak : option Streak.t) : Streak.t :=
  match storedStreak with
  | Some parsedStreak =>
      if negb (bool_decide (Streak.lastLearnedDate parsedStreak = getTodayDateString now)) then
        if negb (bool_decide (Streak.lastLearnedDate parsedStreak = getYesterdayDateString now))
        then {| Streak.currentStreak := 0;
                Streak.bestStreak := Streak.bestStreak parsedStreak;
                Streak.lastLearnedDate := Streak.lastLearnedDate parsedStreak |}
        else parsedStreak
      else parsedStreak
  | None =>
      {| Streak.currentStreak := 0; Streak.bestStreak := 0; Streak.lastLearnedDate := "" |}
  end.

(** The events that touch the streak.  The save effect writes every value of
    [learningStreak] to the storage, so a reload reads back the last one. *)
Inductive Event :=
  | WordLearned (now : Clock) (wordId : WordId) (isQuickReview : bool)
  | AppLoaded (now : Clock).

Definition step (st : App) (e : Event) : App :=
  match e with
  | WordLearned now wordId isQuickReview => onWordLearned now wordId isQuickReview st
  | AppLoaded now =>
      setLearningStreak (λ prev, loadLearningStreak now (Some prev)) st
  end.

Definition run (st : App) (events : list Event) : App := foldl step st events.

(** ** Custom words ([App.onSaveCustomWord]) *)

Section CustomWords.
(** [String.prototype.toLowerCase] and [String.prototype.trim]. *)
Variable toLowerCase : string → string.
Variable trim : string → string.

(** [!field?.trim()] *)
Definition blank (field : option string) : bool :=
  negb (Js.truthyStr (trim <$> field)).

(** [a || b] on strings. *)
Definition orStr (a : option string) (b : string) : string :=
  if Js.truthyStr a then default "" a else b.

(** [{ ...old, ...wordData, term: termToSave, unit: ... }] *)
Definition mergeWord (old : Word.t) (wordData : WordData.t) (termToSave : string)
  (unitNumber : option Z) : Word.t :=
  {| Word.id := default (Word.id old) (WordData.id wordData);
     Word.term := termToSave;
     Word.pronunciation :=
       from_option Some (Word.pronunciation old) (WordData.pronunciation wordData);
     Word.partOfSpeech := default (Word.partOfSpeech old) (WordData.partOfSpeech wordData);
     Word.meaning := default (Word.meaning old) (WordData.meaning wordData);
     Word.exampleSentence :=
       default (Word.exampleSentence old) (WordData.exampleSentence wordData);
     Word.exampleSentenceMeaning :=
       from_option Some (Word.exampleSentenceMeaning old)
         (WordData.exampleSentenceMeaning wordData);
     Word.gradeLevel := default (Word.gradeLevel old) (WordData.gradeLevel wordData);
     Word.isCustom := from_option Some (Word.isCustom old) (WordData.isCustom wordData);
     Word.unit :=
       match unitNumber with
       | Some n => Some (UnitStr (pretty n))
       | None => Word.unit old
       end |}.

Definition createWord (now : Clock) (st : App) (wordData : WordData.t)
  (termToSave : string) (gradeLevelForNew : option string) (unitNumber : option Z)
  : Word.t :=
  {| Word.id := IdStr (pretty (epochMillis now));
     Word.term := termToSave;
     Word.pronunciation := Some (orStr (WordData.pronunciation wordData) "");
     Word.partOfSpeech := default "" (WordData.partOfSpeech wordData);
     Word.meaning := default "" (WordData.meaning wordData);
     Word.exampleSentence := default "" (WordData.exampleSentence wordData);
     Word.exampleSentenceMeaning :=
       Some (orStr (WordData.exampleSentenceMeaning wordData) "");
     Word.gradeLevel :=
       orStr gradeLevelForNew
         (orStr (UserSettings.grade <$> userSettings st) "middle1");
     Word.isCustom := Some true;
     Word.unit := (λ n, UnitStr (pretty n)) <$> unitNumber |}.

(** The returned boolean and the state after the call.  The toasts are not
    part of the state. *)
Definition onSaveCustomWord (now : Clock) (wordData : WordData.t)
  (gradeLevelForNew : option string) (unitNumber : option Z) (st : App) : bool * App :=
  let gradeLevelForNew :=
    from_option Some (UserSettings.grade <$> userSettings st) gradeLevelForNew in
  if blank (WordData.term wordData) || blank (WordData.meaning wordData)
     || blank (WordData.partOfSpeech wordData) || blank (WordData.exampleSentence wordData)
  then (false, st)
  else
    let termToSave := trim (default "" (WordData.term wordData)) in
    if truthyId (WordData.id wordData) then
      match list_find (λ w, Some (Word.id w) = WordData.id wordData
                            ∧ Js.truthyBool (Word.isCustom w) = true) (allWords st) with
      | Some (wordIndex, old) =>
          let updatedWord := mergeWord old wordData termToSave unitNumber in
          (true, setAllWords (λ _, <[wordIndex := updatedWord]> (allWords st)) st)
      | None => (false, st)
      end
    else
      match list_find (λ w, toLowerCase (Word.term w) = toLowerCase termToSave)
                      (allWords st) with
      | Some _ => (false, st)
      | None =>
          let newWord :=
            createWord now st wordData termToSave gradeLevelForNew unitNumber in
          let st' := setAllWords (λ prevWords, prevWords ++ [newWord]) st in
          let st' :=
            match wordStats st !! propertyKey (Word.id newWord) with
            | Some _ => st'
            | None =>
                updateWordStat (Word.id newWord)
                  {| StatPatch.isMastered := Some false;
                     StatPatch.lastReviewed := Some None;
                     StatPatch.quizIncorrectCount := Some 0 |} st'
            end in
          (true, setUserSettings (addXp 2) st')
      end.

End CustomWords.

(** Lower-casing and trimming on ASCII text, to run the functions on examples. *)
Module Ascii7.

Definition lowerChar (c : ascii) : ascii :=
  let n := nat_of_ascii c in
  if (65 <=? n)%nat && (n <=? 90)%nat then ascii_of_nat (n + 32) else c.

Fixpoint toLowerCase (s : string) : string :=
  match s with
  | EmptyString => EmptyString
  | String c s' => String (lowerChar c) (toLowerCase s')
  end.

Definition isSpace (c : ascii) : bool :=
  let n := nat_of_ascii c in
  (n =? 32)%nat || ((9 <=? n)%nat && (n <=? 13)%nat).

Fixpoint trimStart (s : string) : string :=
  match s with
  | EmptyString => EmptyString
  | String c s' => if isSpace c then trimStart s' else s
  end.

Fixpoint trimEnd (s : string) : string :=
  match s with
  | EmptyString => EmptyString
  | String c s' =>
      match trimEnd s' with
      | EmptyString => if isSpace c then EmptyString else String c EmptyString
      | k => String c k
      end
  end.

Definition trim (s : string) : string := trimEnd (trimStart s).

End Ascii7.

(** ** Sample data for the examples *)

Module Sample.

Definition clock : Clock :=
  {| current := Date.mk 2026 11 3 9 30 0 0;
     dayEarlier := Date.mk 2026 11 2 9 30 0 0;
     epochMillis := 1793698200000 |}.

Definition laterSameDay : Clock :=
  {| current := Date.mk 2026 11 3 18 5 12 250;
     dayEarlier := Date.mk 2026 11 2 18 5 12 250;
     epochMillis := 1793729112250 |}.

Definition word (n : Z) (term meaning : string) (custom : bool) : Word.t :=
  {| Word.id := IdNum n;
     Word.term := term;
     Word.pronunciation := None;
     Word.partOfSpeech := "noun";
     Word.meaning := meaning;
     Word.exampleSentence := "An example.";
     Word.exampleSentenceMeaning := None;
     Word.gradeLevel := "middle1";
     Word.isCustom := Some custom;
     Word.unit := None |}.

Definition apple : Word.t := word 1 "apple" "사과" false.
Definition river : Word.t := word 2 "river" "강" false.
Definition cloud : Word.t := word 3 "cloud" "구름" false.
Definition stone : Word.t := word 4 "stone" "돌" false.

(** [apple] was last reviewed the day before [clock]. *)
Definition reviewedYesterday : gmap string WordStat.t :=
  {[ "1" := {| WordStat.id := IdNum 1;
               WordStat.isMastered := false;
               WordStat.lastReviewed := Some "2026-11-02T08:15:00.000Z";
               WordStat.quizIncorrectCount := 0 |} ]}.

Definition settings : UserSettings.t :=
  {| UserSettings.grade := "middle1"; UserSettings.dailyGoal := 10;
     UserSettings.xp := 95; UserSettings.level := 1 |}.

Definition app (ws : list Word.t) : App :=
  {| userSettings := Some settings;
     allWords := ws;
     wordStats := ∅;
     learnedWordsTodayCount := 0;
     totalWordsLearnedOverall := 0;
     learningStreak :=
       {| Streak.currentStreak := 0; Streak.bestStreak := 0;
          Streak.lastLearnedDate := "" |} |}.

(** A custom word, and the form data of an edit that changes its meaning
    and of an attempt to add its term again. *)
Definition myApple : Word.t :=
  {| Word.id := IdStr "1793600000000";
     Word.term := "apple";
     Word.pronunciation := Some "";
     Word.partOfSpeech := "noun";
     Word.meaning := "사과";
     Word.exampleSentence := "I ate an apple.";
     Word.exampleSentenceMeaning := Some "";
     Word.gradeLevel := "middle1";
     Word.isCustom := Some true;
     Word.unit := None |}.

Definition editApple : WordData.t :=
  {| WordData.id := Some (IdStr "1793600000000");
     WordData.term := Some "apple";
     WordData.pronunciation := Some "";
     WordData.partOfSpeech := Some "noun";
     WordData.meaning := Some "사과 (과일)";
     WordData.exampleSentence := Some "I ate an apple.";
     WordData.exampleSentenceMeaning := Some "";
     WordData.gradeLevel := Some "middle1";
     WordData.isCustom := Some true;
     WordData.unit := None |}.

Definition addApple : WordData.t :=
  {| WordData.id := None;
     WordData.term := Some " Apple ";
     WordData.pronunciation := None;
     WordData.partOfSpeech := Some "noun";
     WordData.meaning := Some "사과";
     WordData.exampleSentence := Some "An apple a day.";
     WordData.exampleSentenceMeaning := None;
     WordData.gradeLevel := None;
     WordData.isCustom := None;
     WordData.unit := None |}.

(** A word whose meaning is one of the placeholder strings. *)
Definition other : Word.t := word 9 "other" "다른 뜻" false.

Definition noTime : string → option Z := λ _, None.
Definition zeros : Rand := λ _, 0%nat.

End Sample.

(** ** Deleting a custom word ([App.onDeleteCustomWord]) *)

(** [allWords.find(w => w.id === wordId)] decides; a custom word goes together
    with every word of the same id and with the stat stored under its key. *)
Definition onDeleteCustomWord (wordId : WordId) (st : App) : App :=
  match list_find (λ w, Word.id w = wordId) (allWords st) with
  | Some (_, wordToDelete) =>
      if Js.truthyBool (Word.isCustom wordToDelete) then
        let st := setAllWords (λ prevWords, filter (λ w, Word.id w ≠ wordId) prevWords) st in
        setWordStats (λ prevStats, delete (propertyKey wordId) prevStats) st
      else st
  | None => st
  end.

(** [Object.values(wordStats).some(stat => stat.quizIncorrectCount > 0 && !stat.isMastered)] *)
Definition hasIncorrectWordsToReview (wordStats : gmap string WordStat.t) : bool :=
  existsb (λ stat, (0 <? WordStat.quizIncorrectCount stat) && negb (WordStat.isMastered stat))
    ((map_to_list wordStats).*2).

(** [AllWordsScreen.toggleMastered]: the stat update it requests. *)
Definition toggleMastered (word : Word.t) (st : App) : App :=
  let currentStat := getWordStat (wordStats st) (Word.id word) in
  updateWordStat (Word.id word)
    {| StatPatch.isMastered := Some (negb (WordStat.isMastered currentStat));
       StatPatch.lastReviewed := None;
       StatPatch.quizIncorrectCount := None |} st.

(** ** The finish screen and the dashboard *)

(** [potentialReviewWords] of the finished daily session: the number of words
    the "quick review" button could draw from. *)
Definition potentialReviewWords (words : list Word.t) (wordStats : gmap string WordStat.t)
  (grade : string) (now : Clock) : nat :=
  length
    (filter (λ w,
       bool_decide (Word.gradeLevel w = grade)
       && negb (WordStat.isMastered (getWordStat wordStats (Word.id w)))
       && reviewedBefore (getTodayDateString now)
            (WordStat.lastReviewed (getWordStat wordStats (Word.id w))))
       words).

(** [DashboardScreen]: [xpForNextLevel = userSettings.level * 100] and the
    "XP to the next level" it prints, [Math.max(0, xpForNextLevel - userSettings.xp)]. *)
Definition dashboardXpForNextLevel (s : UserSettings.t) : Z := UserSettings.level s * 100.

Definition dashboardXpRemaining (s : UserSettings.t) : Z :=
  Z.max 0 (dashboardXpForNextLevel s - UserSettings.xp s).

(** ** Toasts ([ToastProvider]) *)

Inductive ToastType := ToastSuccess | ToastError | ToastWarning | ToastInfo.

Module Toast.
Record t := mk { id : Z; message : string; type : ToastType }.
End Toast.

(** The [toasts] state cell and the counter [toastIdRef.current]. *)
Record ToastState := mkToasts { toasts : list Toast.t; toastIdRef : Z }.

Definition initialToasts : ToastState := {| toasts := []; toastIdRef := 0 |}.

(** [id = toastIdRef.current++], then the toast is appended.  The timer that
    later calls [removeToast(id)] is an event of its own. *)
Definition addToast (message : string) (type : ToastType) (st : ToastState) : ToastState :=
  let id := toastIdRef st in
  {| toasts := toasts st ++ [{| Toast.id := id; Toast.message := message; Toast.type := type |}];
     toastIdRef := toastIdRef st + 1 |}.

(** The timer delay [addToast] asks for, in milliseconds. *)
Definition toastDuration (type : ToastType) : Z :=
  match type with
  | ToastError | ToastWarning => 7000
  | _ => 5000
  end.

Definition removeToast (id : Z) (st : ToastState) : ToastState :=
  {| toasts := filter (λ toast, Toast.id toast ≠ id) (toasts st);
     toastIdRef := toastIdRef st |}.

Inductive ToastEvent :=
  | ToastAdded (message : string) (type : ToastType)
  | ToastRemoved (id : Z).

Definition toastStep (st : ToastState) (e : ToastEvent) : ToastState :=
  match e with
  | ToastAdded message type => addToast message type st
  | ToastRemoved id => removeToast id st
  end.

(** ** Auxiliary notions for the statements *)

(** The clock reading an event carries. *)
Definition eventClock (e : Event) : Clock :=
  match e with
  | WordLearned now _ _ => now
  | AppLoaded now => now
  end.

(** The random stream that yields [r] first and then the draws of [rs]. *)
Definition drawThen (r : nat) (rs : Rand) : Rand :=
  λ k, match k with O => r | S k' => rs k' end.

(** A learning session as the sequence of its [onWordLearned(id, false)]
    calls, each with the clock reading of its click. *)
Definition learnedEvents (clicks : list (Clock * WordId)) : list Event :=
  (λ click, WordLearned click.1 click.2 false) <$> clicks.

(** The priority order the comparator of [selectWords] encodes: a higher
    [quizIncorrectCount] first; on equal counts the older review time first
    (time 0 for a word never reviewed); on equal times a custom word not after
    a built-in one. *)
Definition priorityBefore (getTime : string → option Z)
  (wordStats : gmap string WordStat.t) (a b : Word.t) : Prop :=
  let statA := getWordStat wordStats (Word.id a) in
  let statB := getWordStat wordStats (Word.id b) in
  WordStat.quizIncorrectCount statB < WordStat.quizIncorrectCount statA
  ∨ (WordStat.quizIncorrectCount statA = WordStat.quizIncorrectCount statB
     ∧ ∃ dateA dateB,
         reviewTime getTime statA = Some dateA
         ∧ reviewTime getTime statB = Some dateB
         ∧ (dateA < dateB
            ∨ (dateA = dateB
               ∧ (Js.truthyBool (Word.isCustom b) = true
                  → Js.truthyBool (Word.isCustom a) = true)))).

(** ** Quiz results ([App.onQuizComplete]) *)

Module QuizResult.
Record t := mk { score : Z; total : Z; date : string }.
End QuizResult.

(** The state of [App] together with its two quiz cells, [quizHistory] and
    [quizTakenToday]. *)
Record Progress := mkProgress {
  appState : App;
  quizHistory : list QuizResult.t;
  quizTakenToday : bool
}.

(** [Math.round(finalScore * 1.5)] on an integer score: [Math.round x] is
    [floor (x + 0.5)], and [1.5 * finalScore + 0.5] is [(3 * finalScore + 1) / 2]. *)
Definition quizXp (finalScore : Z) : Z := (3 * finalScore + 1) `div` 2.

Definition onQuizComplete (now : Clock) (finalScore totalQuestions : Z)
  (incorrectWords : list Word.t) (p : Progress) : Progress :=
  {| appState := setUserSettings (addXp (quizXp finalScore)) (appState p);
     quizHistory :=
       quizHistory p ++ [{| QuizResult.score := finalScore;
                            QuizResult.total := totalQuestions;
                            QuizResult.date := getTodayDateString now |}];
     quizTakenToday := true |}.

(** ** The quiz screen ([QuizScreen]) *)

(** The [useState] cells of the screen that its handlers use. *)
Record Quiz := mkQuiz {
  quizWords : list Word.t;
  currentQuestionIndex : nat;
  selectedAnswer : option string;
  score : Z;
  showResult : bool;
  options : list string;
  isFinished : bool;
  incorrectlyAnsweredWordsDetails : list Word.t
}.

Definition initialQuiz : Quiz := mkQuiz [] 0 None 0 false [] false [].

Section QuizScreen.
(** The props [words] and [userSettings.grade]. *)
Variable words : list Word.t.
Variable grade : string.

Definition setupQuestion (word : Word.t) (q : Quiz) : Rnd Quiz :=
  let* finalGeneratedOptions := generateMultipleChoiceOptions words grade word in
  ret (mkQuiz (quizWords q) (currentQuestionIndex q) None (score q) false
         finalGeneratedOptions (isFinished q) (incorrectlyAnsweredWordsDetails q)).

Definition initializeQuiz (q : Quiz) : Rnd Quiz :=
  let gradeFilteredWords := filter (λ w, Word.gradeLevel w = grade) words in
  if bool_decide (length gradeFilteredWords < 1)%nat then
    ret (mkQuiz [] 0 (selectedAnswer q) 0 (showResult q) (options q) true
           (incorrectlyAnsweredWordsDetails q))
  else
    let actualNumQuizQuestions := Z.min 10 (Z.of_nat (length gradeFilteredWords)) in
    let* shuffled := Shuffle.shuffleArray gradeFilteredWords in
    let selectedQuizWords := Js.slice0 shuffled actualNumQuizQuestions in
    let q := mkQuiz selectedQuizWords 0 (selectedAnswer q) 0 (showResult q) (options q)
               false [] in
    match head selectedQuizWords with
    | Some word => setupQuestion word q
    | None =>
        ret (mkQuiz (quizWords q) (currentQuestionIndex q) (selectedAnswer q) (score q)
               (showResult q) (options q) true (incorrectlyAnsweredWordsDetails q))
    end.

(** [handleOptionClick], with the [currentWord] of the render it belongs to. *)
Definition handleOptionClick (currentWord : Word.t) (option : string)
  (q : Quiz) (p : Progress) : Quiz * Progress :=
  if showResult q then (q, p)
  else if bool_decide (option = Word.meaning currentWord) then
    (mkQuiz (quizWords q) (currentQuestionIndex q) (Some option) (score q + 1) true
       (options q) (isFinished q) (incorrectlyAnsweredWordsDetails q), p)
  else
    let currentStat := getWordStat (wordStats (appState p)) (Word.id currentWord) in
    (mkQuiz (quizWords q) (currentQuestionIndex q) (Some option) (score q) true
       (options q) (isFinished q) (incorrectlyAnsweredWordsDetails q ++ [currentWord]),
     mkProgress
       (updateWordStat (Word.id currentWord)
          {| StatPatch.isMastered := None;
             StatPatch.lastReviewed := None;
             StatPatch.quizIncorrectCount :=
               Some (WordStat.quizIncorrectCount currentStat + 1) |} (appState p))
       (quizHistory p) (quizTakenToday p)).

Definition finishQuiz (now : Clock) (q : Quiz) (p : Progress) : Quiz * Progress :=
  (mkQuiz (quizWords q) (currentQuestionIndex q) (selectedAnswer q) (score q)
     (showResult q) (options q) true (incorrectlyAnsweredWordsDetails q),
   onQuizComplete now (score q) (Z.of_nat (length (quizWords q)))
     (incorrectlyAnsweredWordsDetails q) p).

Definition handleNextQuestion (now : Clock) (q : Quiz) (p : Progress)
  : Rnd (Quiz * Progress) :=
  if Z.of_nat (currentQuestionIndex q) <? Z.of_nat (length (quizWords q)) - 1 then
    let nextIdx := (currentQuestionIndex q + 1)%nat in
    let q' := mkQuiz (quizWords q) nextIdx (selectedAnswer q) (score q) (showResult q)
                (options q) (isFinished q) (incorrectlyAnsweredWordsDetails q) in
    match quizWords q !! nextIdx with
    | Some word => let* q'' := setupQuestion word q' in ret (q'', p)
    | None =>
        (* [onQuizComplete] is called with the score of the current render *)
        ret (finishQuiz now q' p)
    end
  else ret (finishQuiz now q p).

(** What the user can do on the screen.  The render decides which handlers are
    reachable: the finished view only offers the retry button (disabled when
    the grade has no word), the question view offers the option buttons
    (disabled once [showResult]) and the next button (disabled until
    [showResult]). *)
Inductive QuizEvent :=
  | OptionClicked (option : string)
  | NextClicked (now : Clock)
  | RetryClicked.

Definition quizStep (e : QuizEvent) (s : Quiz * Progress) : Rnd (Quiz * Progress) :=
  let '(q, p) := s in
  if bool_decide (length (quizWords q) = 0%nat) && negb (isFinished q) then ret s
  else if isFinished q then
    match e with
    | RetryClicked =>
        if bool_decide (length (filter (λ w, Word.gradeLevel w = grade) words) < 1)%nat
        then ret s
        else let* q' := initializeQuiz q in ret (q', p)
    | _ => ret s
    end
  else
    match quizWords q !! currentQuestionIndex q with
    | None => ret s
    | Some currentWord =>
        match e with
        | OptionClicked option =>
            if showResult q then ret s else ret (handleOptionClick currentWord option q p)
        | NextClicked now =>
            if showResult q then handleNextQuestion now q p else ret s
        | RetryClicked => ret s
        end
    end.

Fixpoint quizRun (events : list QuizEvent) (s : Quiz * Progress) : Rnd (Quiz * Progress) :=
  match events with
  | [] => ret s
  | e :: events' => let* s' := quizStep e s in quizRun events' s'
  end.

(** The screen after its mount effect, which calls [initializeQuiz]. *)
Definition mountQuiz : Rnd Quiz := initializeQuiz initialQuiz.

End QuizScreen.

(** The question of a quiz that is under way is in range and the answers
    given so far are all accounted for; a finished quiz accounts for every
    question. *)
Definition quizConsistent (q : Quiz) : Prop :=
  0 ≤ score q
  ∧ (length (quizWords q) ≤ 10)%nat
  ∧ if isFinished q
    then score q + Z.of_nat (length (incorrectlyAnsweredWordsDetails q))
         = Z.of_nat (length (quizWords q))
    else (currentQuestionIndex q < length (quizWords q))%nat
         ∧ score q + Z.of_nat (length (incorrectlyAnsweredWordsDetails q))
           = Z.of_nat (currentQuestionIndex q) + (if showResult q then 1 else 0).

(** A recorded quiz result is in range when its score is between 0 and the
    number of questions, and there are at most 10 questions. *)
Definition resultInRange (r : QuizResult.t) : Prop :=
  0 ≤ QuizResult.score r ≤ QuizResult.total r ∧ QuizResult.total r ≤ 10.

(** What the quiz screen leaves alone in the state of [App]: everything but
    the stats and the settings. *)
Definition sameLearningData (st st' : App) : Prop :=
  allWords st' = allWords st
  ∧ learnedWordsTodayCount st' = learnedWordsTodayCount st
  ∧ totalWordsLearnedOverall st' = totalWordsLearnedOverall st
  ∧ learningStreak st' = learningStreak st.

(** ** The learning screen ([LearnWordsScreen]) *)

(** The two [sessionStorage] entries of the screen,
    ['learnWords_currentIndex'] and ['learnWords_wordSetSignature']; [None] is
    the [null] that [getItem] returns for a missing entry.  Storage access
    that throws is not modelled. *)
Record SessionStorage := mkStorage {
  storedIndexStr : option string;
  storedSignature : option string
}.

(** The [useState] cells of the screen that its handlers use. *)
Record Session := mkSession {
  currentIndex : nat;
  currentWordsSet : list Word.t;
  isDailyGoalFinished : bool;
  isQuickReviewActive : bool;
  isQuickReviewFinished : bool
}.

Definition initialSession : Session := mkSession 0 [] false false false.

(** [a.join(',')] *)
Fixpoint joinComma (a : list string) : string :=
  match a with
  | [] => ""
  | [x] => x
  | x :: a' => x +:+ "," +:+ joinComma a'
  end.

(** [ws.map(w => w.id).join(',')]: [join] converts an id as a property key
    is converted. *)
Definition wordSetSignature (ws : list Word.t) : string :=
  joinComma ((λ w, propertyKey (Word.id w)) <$> ws).

Definition clearLearningSessionState (storage : SessionStorage) : SessionStorage :=
  mkStorage None None.

Section LearnScreen.
(** [parseInt(s, 10)], [None] for [NaN]. *)
Variable parseInt : string → option Z.
Variable getTime : string → option Z.

(** The props [words], [wordStats], [userSettings.grade] and
    [userSettings.dailyGoal] are those of the [App] state [st]. *)
Definition selectFor (st : App) (grade : string) (now : Clock) (count : Z)
  (forQuickReview : bool) : Rnd (list Word.t) :=
  selectWords getTime (allWords st) (wordStats st) grade now count forQuickReview.

(** The effect that starts the daily session when the screen is entered or
    the page reloaded. *)
Definition startDailySession (st : App) (grade : string) (dailyGoal : Z) (now : Clock)
  (storage : SessionStorage) : Rnd (Session * SessionStorage) :=
  let* dailyWordsToInitializeWith := selectFor st grade now dailyGoal false in
  let newWordSetSignature := wordSetSignature dailyWordsToInitializeWith in
  let resumed :=
    match storedIndexStr storage with
    | Some storedIndexStr =>
        if bool_decide (storedSignature storage = Some newWordSetSignature) then
          Some
            match parseInt storedIndexStr with
            | Some storedIndex =>
                if (0 <=? storedIndex)
                   && (storedIndex <? Z.of_nat (length dailyWordsToInitializeWith))
                then (Z.to_nat storedIndex, storage)
                else (0%nat, clearLearningSessionState storage)
            | None => (0%nat, clearLearningSessionState storage)
            end
        else None
    | None => None
    end in
  let '(initialIndex, storage') :=
    match resumed with
    | Some r => r
    | None =>
        if Js.truthyStr (Some newWordSetSignature)
           && bool_decide (0 < length dailyWordsToInitializeWith)%nat
        then (0%nat, mkStorage (Some "0") (Some newWordSetSignature))
        else (0%nat, clearLearningSessionState storage)
    end in
  ret (mkSession initialIndex dailyWordsToInitializeWith
         (bool_decide (length dailyWordsToInitializeWith = 0%nat)
          || bool_decide (length dailyWordsToInitializeWith ≤ initialIndex)%nat)
         false false,
       storage').

(** [handleNextWord]: the session, the storage and the [App] state after the
    click. *)
Definition handleNextWord (now : Clock) (s : Session) (storage : SessionStorage) (st : App)
  : Session * SessionStorage * App :=
  match currentWordsSet s !! currentIndex s with
  | None => (s, storage, st)
  | Some currentWord =>
      let st' := onWordLearned now (Word.id currentWord) (isQuickReviewActive s) st in
      let nextIndex := (currentIndex s + 1)%nat in
      if bool_decide (nextIndex < length (currentWordsSet s))%nat then
        (mkSession nextIndex (currentWordsSet s) (isDailyGoalFinished s)
           (isQuickReviewActive s) (isQuickReviewFinished s),
         if isQuickReviewActive s then storage
         else mkStorage (Some (pretty nextIndex)) (storedSignature storage),
         st')
      else if isQuickReviewActive s then
        (mkSession (currentIndex s) (currentWordsSet s) (isDailyGoalFinished s)
           (isQuickReviewActive s) true, storage, st')
      else
        (mkSession (currentIndex s) (currentWordsSet s) true
           (isQuickReviewActive s) (isQuickReviewFinished s),
         clearLearningSessionState storage, st')
  end.

Definition startQuickReview (st : App) (grade : string) (now : Clock) (s : Session)
  (storage : SessionStorage) : Rnd (Session * SessionStorage) :=
  let storage := clearLearningSessionState storage in
  let* reviewWords := selectFor st grade now 3 true in
  if bool_decide (0 < length reviewWords)%nat then
    ret (mkSession 0 reviewWords false true false, storage)
  else
    ret (mkSession (currentIndex s) (currentWordsSet s) (isDailyGoalFinished s)
           (isQuickReviewActive s) true, storage).

Definition handleExitLearning (s : Session) (storage : SessionStorage) : SessionStorage :=
  if negb (isQuickReviewActive s) then clearLearningSessionState storage else storage.

Definition handleRetryDailyLearning (st : App) (grade : string) (dailyGoal : Z)
  (now : Clock) (storage : SessionStorage) : Rnd (Session * SessionStorage) :=
  let storage := clearLearningSessionState storage in
  let* dailyWords := selectFor st grade now dailyGoal false in
  let newWordSetSignature := wordSetSignature dailyWords in
  ret (mkSession 0 dailyWords (bool_decide (length dailyWords = 0%nat)) false false,
       if bool_decide (0 < length dailyWords)%nat
          && Js.truthyStr (Some newWordSetSignature)
       then mkStorage (Some "0") (Some newWordSetSignature)
       else storage).

(** A run of [handleNextWord] clicks, one clock reading per click. *)
Fixpoint nextClicks (clocks : list Clock) (s : Session) (storage : SessionStorage)
  (st : App) : Session * SessionStorage * App :=
  match clocks with
  | [] => (s, storage, st)
  | now :: clocks' =>
      let '(s', storage', st') := handleNextWord now s storage st in
      nextClicks clocks' s' storage' st'
  end.

End LearnScreen.

(** A decimal [parseInt] for the strings the screen itself stores (digits
    only), to run the functions on examples. *)
Fixpoint parseDigits (acc : Z) (s : string) : option Z :=
  match s with
  | EmptyString => Some acc
  | String c s' =>
      let n := Z.of_nat (nat_of_ascii c) in
      if (48 <=? n) && (n <=? 57) then parseDigits (10 * acc + (n - 48)) s' else Some acc
  end.

Definition parseIntDigits (s : string) : option Z :=
  match s with
  | EmptyString => None
  | String c _ =>
      let n := Z.of_nat (nat_of_ascii c) in
      if (48 <=? n) && (n <=? 57) then parseDigits 0 s else None
  end.

(** A string without a comma. *)
Fixpoint commaFree (s : string) : bool :=
  match s with
  | EmptyString => true
  | String c s' => negb (Ascii.eqb c ","%char) && commaFree s'
  end.

(** ** The word match game ([WordMatchGame]) *)

Definition NUM_PAIRS : nat := 5.

(** A card of the game.  A term card is the word with its [id] replaced by
    [`term-${w.id}`]; a meaning card carries the meaning, the id
    [`meaning-${w.id}`] and the word's own id as [originalWordId]. *)
Inductive GameOption :=
  | TermOption (w : Word.t)
  | MeaningOption (meaning : string) (originalWordId : WordId).

(** The [id] string of a card; a template literal converts an id as a
    property key is converted. *)
Definition optionId (o : GameOption) : string :=
  match o with
  | TermOption w => "term-" +:+ propertyKey (Word.id w)
  | MeaningOption _ originalWordId => "meaning-" +:+ propertyKey originalWordId
  end.

(** [initializeGame]: [None] when the grade has fewer than [NUM_PAIRS] words
    (a toast is shown and the screen left, no state is set); otherwise the
    new [gameWords] and [options]. *)
Definition initializeGame (words : list Word.t) (grade : string)
  : Rnd (option (list Word.t * list GameOption)) :=
  let gradeWords := filter (λ w, Word.gradeLevel w = grade) words in
  if bool_decide (length gradeWords < NUM_PAIRS)%nat then ret None
  else
    let* shuffled := Shuffle.shuffleArray gradeWords in
    let selectedGameWords := Js.slice0 shuffled (Z.of_nat NUM_PAIRS) in
    let termsForOptions := TermOption <$> selectedGameWords in
    let meaningsForOptions :=
      (λ w, MeaningOption (Word.meaning w) (Word.id w)) <$> selectedGameWords in
    let* options := Shuffle.shuffleArray (termsForOptions ++ meaningsForOptions) in
    ret (Some (selectedGameWords, options)).

(** [s] without the prefix [p], if it has that prefix. *)
Fixpoint stripPrefix (p s : string) : option string :=
  match p with
  | EmptyString => Some s
  | String c p' =>
      match s with
      | String d s' => if Ascii.eqb c d then stripPrefix p' s' else None
      | EmptyString => None
      end
  end.

(** [s.replace(pattern, replacement)] for a string pattern and a replacement
    without [$]: the first occurrence of the pattern is replaced. *)
Fixpoint replaceFirst (pattern replacement s : string) : string :=
  match stripPrefix pattern s with
  | Some rest => replacement +:+ rest
  | None =>
      match s with
      | EmptyString => EmptyString
      | String c s' => String c (replaceFirst pattern replacement s')
      end
  end.

(** The test of the matching effect,
    [selectedTerm.id.replace('term-', '') === String(selectedMeaning.originalWordId)]. *)
Definition isCorrectMatch (selectedTermId : string) (originalWordId : WordId) : bool :=
  bool_decide (replaceFirst "term-" "" selectedTermId = propertyKey originalWordId).



(** * Properties *)

(** ** JavaScript primitives *)

Section JsFacts.
Context {A : Type}.
Implicit Types (a l : list A) (i j : nat).

Lemma insert_head_Permutation l j x y :
  l !! j = Some y → y :: <[j := x]> l ≡ₚ x :: l.
Proof.
  revert j. induction l as [|c l IH]; intros [|j] Hj; simplify_eq/=.
  - apply perm_swap.
  - rewrite perm_swap, (IH _ Hj). apply perm_swap.
Qed.

Lemma swapAt_Permutation a i j : Js.swapAt a i j ≡ₚ a.
Proof.
  unfold Js.swapAt.
  destruct (a !! i) as [x|] eqn:Hi; [|done].
  destruct (a !! j) as [y|] eqn:Hj; [|done].
  revert i j Hi Hj. induction a as [|c a IH]; intros [|i] [|j] Hi Hj; simplify_eq/=.
  - done.
  - by apply insert_head_Permutation.
  - by apply insert_head_Permutation.
  - f_equiv. by apply IH.
Qed.

Lemma swapAt_length a i j : length (Js.swapAt a i j) = length a.
Proof.
  unfold Js.swapAt. destruct (a !! i), (a !! j); try done.
  by rewrite !length_insert.
Qed.

Lemma slice0_sublist l (e : Z) : Js.slice0 l e `sublist_of` l.
Proof. unfold Js.slice0. apply sublist_take. Qed.

Lemma slice0_elem_of l (e : Z) x : x ∈ Js.slice0 l e → x ∈ l.
Proof.
  unfold Js.slice0. rewrite elem_of_take. intros (k & Hk & _).
  by eapply list_elem_of_lookup_2.
Qed.

Lemma slice0_length_nat l (n : nat) :
  (length (Js.slice0 l (Z.of_nat n)) = n `min` length l)%nat.
Proof.
  unfold Js.slice0.
  destruct (Z.of_nat n <? 0) eqn:Hneg; [lia|].
  rewrite length_take. lia.
Qed.

Lemma slice0_3_length l : (length (Js.slice0 l 3) = 3 `min` length l)%nat.
Proof. exact (slice0_length_nat l 3). Qed.

Lemma slice0_all l (n : nat) : (length l ≤ n)%nat → Js.slice0 l (Z.of_nat n) = l.
Proof.
  intros Hn. unfold Js.slice0.
  destruct (Z.of_nat n <? 0) eqn:Hneg; [lia|].
  apply take_ge. lia.
Qed.

Lemma insertBy_Permutation (cmp : A → A → Z) x l : Js.insertBy cmp x l ≡ₚ x :: l.
Proof.
  induction l as [|y l IH]; simpl; [done|].
  destruct (cmp x y <=? 0); [done|].
  rewrite IH. apply perm_swap.
Qed.

Lemma sortBy_Permutation (cmp : A → A → Z) l : Js.sortBy cmp l ≡ₚ l.
Proof.
  induction l as [|y l IH]; simpl; [done|].
  by rewrite insertBy_Permutation, IH.
Qed.

End JsFacts.

(** ** The random source *)

Lemma bind_unfold {A B} (c : Rnd A) (k : A → Rnd B) (rs : Rand) :
  bind c k rs = k (c rs).1 (c rs).2.
Proof. unfold bind. by destruct (c rs). Qed.

Lemma randomIndex_lt (n : nat) (rs : Rand) : (0 < n)%nat → ((randomIndex n rs).1 < n)%nat.
Proof. intros Hn. simpl. apply Nat.mod_upper_bound. lia. Qed.

(** ** [shuffleArray] *)

Module ShuffleFacts.
Section Facts.
Context {A : Type}.
Implicit Types (a l : list A) (σ : list (list A)).

(** The indices of every swap of the loop are inside the array. *)
Lemma swap_indices_in_range i a rs :
  (i < length a)%nat →
  is_Some (a !! i) ∧ is_Some (a !! (randomIndex (i + 1) rs).1).
Proof.
  intros Hi. split; apply lookup_lt_is_Some; [done|].
  pose proof (randomIndex_lt (i + 1) rs). lia.
Qed.

Lemma shuffleLoop_Permutation i a rs : (Shuffle.shuffleLoop i a rs).1 ≡ₚ a.
Proof.
  revert a rs. induction i as [|i IH]; intros a rs; [done|].
  simpl. unfold bind. simpl. rewrite IH. apply swapAt_Permutation.
Qed.

Lemma shuffleArray_Permutation l rs : (Shuffle.shuffleArray l rs).1 ≡ₚ l.
Proof. apply shuffleLoop_Permutation. Qed.

Lemma shuffleArray_length l rs : length (Shuffle.shuffleArray l rs).1 = length l.
Proof. by rewrite shuffleArray_Permutation. Qed.

Lemma shuffleArray_elem_of l rs x : x ∈ (Shuffle.shuffleArray l rs).1 ↔ x ∈ l.
Proof. by rewrite shuffleArray_Permutation. Qed.

(** The loop on the store only rewrites the array object it is given, with
    the arrays the pure loop goes through. *)
Lemma shuffleLoopRef_spec i r σ a rs :
  σ !! r = Some a →
  Shuffle.shuffleLoopRef i r σ rs
  = (<[r := (Shuffle.shuffleLoop i a rs).1]> σ, (Shuffle.shuffleLoop i a rs).2).
Proof.
  revert σ a rs. induction i as [|i IH]; intros σ a rs Hr; simpl.
  - unfold ret. simpl. by rewrite list_insert_id.
  - unfold bind. simpl. unfold Shuffle.swapRef. rewrite Hr.
    erewrite IH; last by apply list_lookup_insert_eq, lookup_lt_is_Some.
    by rewrite list_insert_insert_eq.
Qed.

End Facts.
End ShuffleFacts.

(** C10.  [shuffleArray] returns a permutation of its argument: the array
    object it returns is a fresh one whose elements are those of the input
    with the same multiplicities, it holds the list computed by the pure
    [Shuffle.shuffleArray], and the call leaves every array object that
    existed before it, the input among them, as it was. *)
Theorem shuffleArray_permutation_fresh {A : Type} (σ : list (list A)) (array : nat)
    (l : list A) (rs : Rand) :
  σ !! array = Some l →
  ∃ newArray σ',
    (Shuffle.shuffleArrayRef array σ rs).1 = Some (newArray, σ')
    ∧ σ' !! newArray = Some (Shuffle.shuffleArray l rs).1
    ∧ (Shuffle.shuffleArray l rs).1 ≡ₚ l
    ∧ newArray = length σ
    ∧ take (length σ) σ' = σ
    ∧ σ' !! array = Some l.
Proof.
  intros Harr.
  assert (Hnew : (σ ++ [l]) !! length σ = Some l).
  { rewrite lookup_app_r by lia. by rewrite Nat.sub_diag. }
  exists (length σ), (<[length σ := (Shuffle.shuffleArray l rs).1]> (σ ++ [l])).
  assert (Hins : <[length σ := (Shuffle.shuffleArray l rs).1]> (σ ++ [l])
                 = σ ++ [(Shuffle.shuffleArray l rs).1]).
  { rewrite insert_app_r_alt by lia. by rewrite Nat.sub_diag. }
  split_and!.
  - unfold Shuffle.shuffleArrayRef, Shuffle.spread. rewrite Harr. simpl.
    rewrite Hnew. simpl. unfold bind.
    by rewrite (ShuffleFacts.shuffleLoopRef_spec _ _ _ l).
  - rewrite Hins, lookup_app_r by lia. by rewrite Nat.sub_diag.
  - apply ShuffleFacts.shuffleArray_Permutation.
  - done.
  - rewrite Hins. by rewrite take_app_length.
  - rewrite Hins, lookup_app_l; [done|]. by eapply lookup_lt_Some.
Qed.

Lemma shuffleArray_permutation_fresh_witness :
  ∃ newArray σ',
    (Shuffle.shuffleArrayRef 0 [[1; 2; 3]] (λ k, k)).1 = Some (newArray, σ')
    ∧ σ' !! newArray = Some (Shuffle.shuffleArray [1; 2; 3] (λ k, k)).1
    ∧ (Shuffle.shuffleArray [1; 2; 3] (λ k, k)).1 ≡ₚ [1; 2; 3]
    ∧ newArray = 1%nat
    ∧ take 1 σ' = [[1; 2; 3]]
    ∧ σ' !! 0%nat = Some [1; 2; 3].
Proof. apply (shuffleArray_permutation_fresh [[1; 2; 3]] 0 [1; 2; 3] (λ k, k)). reflexivity. Defined.

Example shuffleArray_run :
  (Shuffle.shuffleArray [1; 2; 3; 4] (λ k, (k + 1)%nat)).1 = [1; 4; 3; 2].
Proof. vm_compute. reflexivity. Qed.

(** ** The clock *)

Module DateFacts.

Lemma digit_not_T n : Ascii.eqb (Date.digit n) "T"%char = false.
Proof.
  unfold Date.digit.
  destruct (n `mod` 10)%nat as [|[|[|[|[|[|[|[|[|k]]]]]]]]]; reflexivity.
Qed.

(** The date of an ISO timestamp is its first ten characters. *)
Lemma splitT0_toISOString d : Js.splitT0 (Date.toISOString d) = Date.isoDate d.
Proof.
  unfold Date.toISOString, Date.isoDate, Date.pad4, Date.pad3, Date.pad2.
  simpl. by rewrite !digit_not_T.
Qed.

Lemma toISOString_truthy d : Js.truthyStr (Some (Date.toISOString d)) = true.
Proof. reflexivity. Qed.

Lemma isoDate_nonempty d : Date.isoDate d ≠ "".
Proof. discriminate. Qed.

End DateFacts.

Lemma getTodayDateString_isoDate now : getTodayDateString now = Date.isoDate (current now).
Proof. apply DateFacts.splitT0_toISOString. Qed.

Lemma getTodayDateString_nonempty now : getTodayDateString now ≠ "".
Proof. rewrite getTodayDateString_isoDate. apply DateFacts.isoDate_nonempty. Qed.

(** ** Selection engine *)

Section SelectionFacts.
Variable getTime : string → option Z.
Variable words : list Word.t.
Variable wordStats : gmap string WordStat.t.
Variable grade : string.

Lemma notReviewedOn_spec now (lastReviewed : option string) :
  notReviewedOn (getTodayDateString now) lastReviewed = true →
  lastReviewed = None
  ∨ ∃ s, lastReviewed = Some s ∧ Js.splitT0 s ≠ getTodayDateString now.
Proof.
  destruct lastReviewed as [s|]; [|by left]. intros Hs. right. exists s. split; [done|].
  destruct s as [|c s].
  - simpl. intros Heq. by apply (getTodayDateString_nonempty now).
  - simpl in Hs. by apply negb_true_iff, bool_decide_eq_false in Hs.
Qed.

Lemma reviewedBefore_notReviewedOn today (lastReviewed : option string) :
  reviewedBefore today lastReviewed
  = Js.truthyStr lastReviewed && notReviewedOn today lastReviewed.
Proof. destruct lastReviewed as [[|c s]|]; simpl; try done. Qed.

Lemma elem_of_gradeUnmastered w :
  w ∈ gradeUnmastered words wordStats grade →
  Word.gradeLevel w = grade
  ∧ WordStat.isMastered (getWordStat wordStats (Word.id w)) = false.
Proof.
  unfold gradeUnmastered. rewrite list_elem_of_filter. intros [Hw _].
  apply andb_prop_elim in Hw as [Hg Hm].
  apply bool_decide_unpack in Hg. apply negb_prop_elim in Hm.
  split; [done|]. by destruct (WordStat.isMastered _).
Qed.

Lemma elem_of_eligibleWords_daily now w :
  w ∈ eligibleWords words wordStats grade now false →
  Word.gradeLevel w = grade
  ∧ WordStat.isMastered (getWordStat wordStats (Word.id w)) = false
  ∧ (WordStat.lastReviewed (getWordStat wordStats (Word.id w)) = None
     ∨ ∃ s, WordStat.lastReviewed (getWordStat wordStats (Word.id w)) = Some s
            ∧ Js.splitT0 s ≠ getTodayDateString now).
Proof.
  unfold eligibleWords. rewrite list_elem_of_filter. intros [Hr Hw].
  apply elem_of_gradeUnmastered in Hw as [Hg Hm]. split_and!; [done..|].
  apply notReviewedOn_spec. by apply Is_true_eq_true.
Qed.

(** What [selectWords] returns is drawn from the eligible list. *)
Lemma selectWords_elem_of now count forQuickReview rs w :
  w ∈ (selectWords getTime words wordStats grade now count forQuickReview rs).1 →
  w ∈ eligibleWords words wordStats grade now forQuickReview.
Proof.
  unfold selectWords. rewrite bind_unfold. unfold ret. simpl. intros Hw.
  apply slice0_elem_of in Hw.
  apply ShuffleFacts.shuffleArray_elem_of in Hw.
  by rewrite sortBy_Permutation in Hw.
Qed.

(** The QuickReview list is the part of the DailyNew list that has a review
    date. *)
Lemma eligibleWords_quick_filter now :
  eligibleWords words wordStats grade now true
  = filter (λ w, Js.truthyStr (WordStat.lastReviewed (getWordStat wordStats (Word.id w))))
      (eligibleWords words wordStats grade now false).
Proof.
  unfold eligibleWords. rewrite list_filter_filter. apply list_filter_iff.
  intros w. rewrite reviewedBefore_notReviewedOn.
  by rewrite andb_True.
Qed.

End SelectionFacts.

(** C1.  Every word [selectWords] returns in DailyNew mode is of the requested
    grade, is not mastered according to its stat (the default stat when no
    record is stored), and has a [lastReviewed] that is [null] or whose
    calendar date is not today's; at most [count] words are returned. *)
Theorem selectWords_daily_eligible (getTime : string → option Z) (words : list Word.t)
    (wordStats : gmap string WordStat.t) (grade : string) (now : Clock) (count : nat)
    (rs : Rand) :
  let selected :=
    (selectWords getTime words wordStats grade now (Z.of_nat count) false rs).1 in
  Forall (λ w,
      Word.gradeLevel w = grade
      ∧ WordStat.isMastered (getWordStat wordStats (Word.id w)) = false
      ∧ (WordStat.lastReviewed (getWordStat wordStats (Word.id w)) = None
         ∨ ∃ s, WordStat.lastReviewed (getWordStat wordStats (Word.id w)) = Some s
                ∧ Js.splitT0 s ≠ getTodayDateString now))
    selected
  ∧ (length selected ≤ count)%nat.
Proof.
  intros selected. split.
  - apply Forall_forall. intros w Hw.
    apply (elem_of_eligibleWords_daily words wordStats grade now).
    by eapply selectWords_elem_of.
  - unfold selected, selectWords. rewrite bind_unfold. unfold ret. simpl.
    rewrite slice0_length_nat. lia.
Qed.

(** The scenario of a grade with one word, never reviewed: DailyNew selects
    it, QuickReview selects nothing. *)
Example selectWords_single_word :
  (selectWords Sample.noTime [Sample.apple] ∅ "middle1" Sample.clock 10 false Sample.zeros).1
  = [Sample.apple]
  ∧ (selectWords Sample.noTime [Sample.apple] ∅ "middle1" Sample.clock 3 true Sample.zeros).1
    = [].
Proof. split; vm_compute; reflexivity. Qed.

(** A word reviewed the day before is returned in both modes against the same
    snapshot. *)
Lemma selectWords_modes_overlap :
  Sample.apple
    ∈ (selectWords Sample.noTime [Sample.apple] Sample.reviewedYesterday "middle1"
         Sample.clock 3 true Sample.zeros).1
  ∧ Sample.apple
    ∈ (selectWords Sample.noTime [Sample.apple] Sample.reviewedYesterday "middle1"
         Sample.clock 10 false Sample.zeros).1.
Proof. split; vm_compute; apply list_elem_of_here. Qed.

(** C2, amended.  The QuickReview eligible list is the part of the DailyNew
    eligible list whose words have a review date; it is contained in the
    DailyNew list, and so is every word [selectWords] returns in QuickReview
    mode. *)
Theorem quickReview_within_dailyNew (getTime : string → option Z) (words : list Word.t)
    (wordStats : gmap string WordStat.t) (grade : string) (now : Clock) (count : Z)
    (rs : Rand) :
  eligibleWords words wordStats grade now true
  = filter (λ w, Js.truthyStr (WordStat.lastReviewed (getWordStat wordStats (Word.id w))))
      (eligibleWords words wordStats grade now false)
  ∧ eligibleWords words wordStats grade now true
    ⊆ eligibleWords words wordStats grade now false
  ∧ Forall (λ w, w ∈ eligibleWords words wordStats grade now false)
      (selectWords getTime words wordStats grade now count true rs).1.
Proof.
  assert (Hsub : eligibleWords words wordStats grade now true
                 ⊆ eligibleWords words wordStats grade now false).
  { rewrite eligibleWords_quick_filter. intros w Hw.
    by apply list_elem_of_filter in Hw as [_ Hw]. }
  split_and!; [apply eligibleWords_quick_filter|done|].
  apply Forall_forall. intros w Hw. apply Hsub. by eapply selectWords_elem_of.
Qed.

(** ** The word-learned event *)

Section WordLearnedFacts.
Implicit Types (st : App) (now : Clock) (wordId : WordId).

Lemma onWordLearned_wordStats now wordId isQuickReview st :
  wordStats (onWordLearned now wordId isQuickReview st)
  = <[propertyKey wordId := reviewedStat now wordId (getWordStat (wordStats st) wordId)]>
      (wordStats st).
Proof.
  unfold onWordLearned.
  destruct (notReviewedOn _ _ && negb isQuickReview); [done|].
  by destruct isQuickReview.
Qed.

Lemma onWordLearned_allWords now wordId isQuickReview st :
  allWords (onWordLearned now wordId isQuickReview st) = allWords st.
Proof.
  unfold onWordLearned.
  destruct (notReviewedOn _ _ && negb isQuickReview); [done|].
  by destruct isQuickReview.
Qed.

Lemma getWordStat_onWordLearned now wordId isQuickReview st :
  getWordStat (wordStats (onWordLearned now wordId isQuickReview st)) wordId
  = reviewedStat now wordId (getWordStat (wordStats st) wordId).
Proof.
  unfold getWordStat at 1. by rewrite onWordLearned_wordStats, lookup_insert_eq.
Qed.

(** A word whose stat says it was reviewed today is not counted again. *)
Lemma onWordLearned_already_reviewed now wordId st s :
  WordStat.lastReviewed (getWordStat (wordStats st) wordId) = Some s →
  Js.truthyStr (Some s) = true →
  Js.splitT0 s = getTodayDateString now →
  onWordLearned now wordId false st
  = setWordStats
      (λ prevStats,
         <[propertyKey wordId := reviewedStat now wordId (getWordStat prevStats wordId)]>
           prevStats)
      st.
Proof.
  intros Hs Ht Hd. unfold onWordLearned. rewrite Hs. unfold notReviewedOn.
  rewrite Ht, Hd. by rewrite bool_decide_eq_true_2.
Qed.

Lemma addXp_xp amount (prev : option UserSettings.t) :
  UserSettings.xp <$> addXp amount prev = (λ s, UserSettings.xp s + amount) <$> prev.
Proof.
  destruct prev as [s|]; [|done]. simpl. f_equal.
  destruct (UserSettings.xp s =? 0) eqn:Hz; [|done].
  apply Z.eqb_eq in Hz. by rewrite Hz.
Qed.

Lemma streakOnLearned_bestStreak now (prev : Streak.t) :
  Streak.bestStreak prev ≤ Streak.bestStreak (streakOnLearned now prev).
Proof. unfold streakOnLearned. simpl. lia. Qed.

Lemma loadLearningStreak_bestStreak now (stored : Streak.t) :
  Streak.bestStreak (loadLearningStreak now (Some stored)) = Streak.bestStreak stored.
Proof.
  unfold loadLearningStreak.
  by repeat (case_bool_decide; simpl).
Qed.

Lemma onWordLearned_bestStreak now wordId isQuickReview st :
  Streak.bestStreak (learningStreak st)
  ≤ Streak.bestStreak (learningStreak (onWordLearned now wordId isQuickReview st)).
Proof.
  unfold onWordLearned.
  destruct (notReviewedOn _ _ && negb isQuickReview).
  - apply streakOnLearned_bestStreak.
  - by destruct isQuickReview.
Qed.

Lemma step_bestStreak st (e : Event) :
  Streak.bestStreak (learningStreak st) ≤ Streak.bestStreak (learningStreak (step st e)).
Proof.
  destruct e as [now wordId isQuickReview|now].
  - apply onWordLearned_bestStreak.
  - unfold step, setLearningStreak. cbn [learningStreak].
    by rewrite loadLearningStreak_bestStreak.
Qed.

End WordLearnedFacts.

(** C8.  A quick review sets the word's [lastReviewed] to the current time
    (the other fields of its stat stay as they were, a missing stat counting
    as the default one) and adds exactly 1 to the XP of the settings, while
    [learnedWordsTodayCount], [totalWordsLearnedOverall] and the whole streak
    record ([currentStreak], [bestStreak], [lastLearnedDate]) are unchanged. *)
Theorem onWordLearned_quickReview (now : Clock) (wordId : WordId) (st : App) :
  let st' := onWordLearned now wordId true st in
  wordStats st' !! propertyKey wordId
  = Some (reviewedStat now wordId (getWordStat (wordStats st) wordId))
  ∧ WordStat.lastReviewed (getWordStat (wordStats st') wordId)
    = Some (Date.toISOString (current now))
  ∧ UserSettings.xp <$> userSettings st'
    = (λ s, UserSettings.xp s + 1) <$> userSettings st
  ∧ learnedWordsTodayCount st' = learnedWordsTodayCount st
  ∧ totalWordsLearnedOverall st' = totalWordsLearnedOverall st
  ∧ learningStreak st' = learningStreak st.
Proof.
  intros st'. split_and!.
  - unfold st'. by rewrite onWordLearned_wordStats, lookup_insert_eq.
  - unfold st'. by rewrite getWordStat_onWordLearned.
  - unfold st', onWordLearned. rewrite andb_false_r. simpl. apply addXp_xp.
  - unfold st', onWordLearned. by rewrite andb_false_r.
  - unfold st', onWordLearned. by rewrite andb_false_r.
  - unfold st', onWordLearned. by rewrite andb_false_r.
Qed.

(** C3.  Two calls [onWordLearned(id, false)] on the same calendar day raise
    [learnedWordsTodayCount] by at most one in total: the second call only
    replaces the word's [lastReviewed] and leaves the daily counter, the
    overall counter, the streak, the settings (XP) and the catalog as the
    first call left them. *)
Theorem onWordLearned_twice_same_day (now1 now2 : Clock) (wordId : WordId) (st : App) :
  getTodayDateString now1 = getTodayDateString now2 →
  let st1 := onWordLearned now1 wordId false st in
  let st2 := onWordLearned now2 wordId false st1 in
  learnedWordsTodayCount st2 ≤ learnedWordsTodayCount st + 1
  ∧ learnedWordsTodayCount st2 = learnedWordsTodayCount st1
  ∧ totalWordsLearnedOverall st2 = totalWordsLearnedOverall st1
  ∧ learningStreak st2 = learningStreak st1
  ∧ userSettings st2 = userSettings st1
  ∧ allWords st2 = allWords st1
  ∧ wordStats st2
    = <[propertyKey wordId := reviewedStat now2 wordId (getWordStat (wordStats st1) wordId)]>
        (wordStats st1).
Proof.
  intros Hday st1 st2.
  assert (Hst2 : st2 = setWordStats
            (λ prevStats,
               <[propertyKey wordId :=
                   reviewedStat now2 wordId (getWordStat prevStats wordId)]> prevStats)
            st1).
  { unfold st2. apply (onWordLearned_already_reviewed _ _ _ (Date.toISOString (current now1))).
    - unfold st1. by rewrite getWordStat_onWordLearned.
    - apply DateFacts.toISOString_truthy.
    - exact Hday. }
  rewrite Hst2. simpl. split_and!; try done.
  unfold st1, onWordLearned.
  destruct (notReviewedOn _ _ && negb false); simpl; lia.
Qed.

Lemma onWordLearned_twice_same_day_witness :
  let st1 := onWordLearned Sample.clock (IdNum 1) false (Sample.app [Sample.apple]) in
  let st2 := onWordLearned Sample.laterSameDay (IdNum 1) false st1 in
  learnedWordsTodayCount st2 ≤ learnedWordsTodayCount (Sample.app [Sample.apple]) + 1
  ∧ learnedWordsTodayCount st2 = learnedWordsTodayCount st1
  ∧ totalWordsLearnedOverall st2 = totalWordsLearnedOverall st1
  ∧ learningStreak st2 = learningStreak st1
  ∧ userSettings st2 = userSettings st1
  ∧ allWords st2 = allWords st1
  ∧ wordStats st2
    = <[propertyKey (IdNum 1) :=
          reviewedStat Sample.laterSameDay (IdNum 1) (getWordStat (wordStats st1) (IdNum 1))]>
        (wordStats st1).
Proof.
  apply (onWordLearned_twice_same_day Sample.clock Sample.laterSameDay (IdNum 1)
           (Sample.app [Sample.apple])).
  reflexivity.
Defined.

(** C4.  [bestStreak] never decreases: every [onWordLearned] call and every
    load-time correction leaves it at least as large as it was, and so does
    any sequence of them. *)
Theorem bestStreak_monotone (st : App) (e : Event) (events : list Event) :
  Streak.bestStreak (learningStreak st) ≤ Streak.bestStreak (learningStreak (step st e))
  ∧ Streak.bestStreak (learningStreak st)
    ≤ Streak.bestStreak (learningStreak (run st events)).
Proof.
  split; [apply step_bestStreak|].
  unfold run. revert st. induction events as [|e' events IH]; intros st; simpl; [lia|].
  etrans; [apply (step_bestStreak st e')|apply IH].
Qed.

(** ** XP and level *)

Section LevelFacts.

Lemma xpThreshold_mono (n m : nat) : (n ≤ m)%nat → xpThreshold n ≤ xpThreshold m.
Proof. induction 1; simpl; lia. Qed.

Lemma xpThreshold_pred (n : nat) :
  (1 ≤ n)%nat → xpThreshold n = xpThreshold (n - 1) + 100 * Z.of_nat n.
Proof. destruct n; [lia|]. intros _. simpl. by rewrite Nat.sub_0_r. Qed.

(** A level is determined by the thresholds around the XP value. *)
Lemma xpThreshold_unique (x : Z) (n m : nat) :
  (1 ≤ n)%nat → (1 ≤ m)%nat →
  xpThreshold (n - 1) ≤ x < xpThreshold n →
  xpThreshold (m - 1) ≤ x < xpThreshold m →
  m = n.
Proof.
  intros Hn Hm Hxn Hxm.
  destruct (decide (m < n)%nat) as [Hlt|Hge].
  { pose proof (xpThreshold_mono m (n - 1)). lia. }
  destruct (decide (n < m)%nat) as [Hlt|Hge'].
  { pose proof (xpThreshold_mono n (m - 1)). lia. }
  lia.
Qed.

(** The loop entered at level [level] with the variables it has there ends
    at the level whose thresholds enclose [xp]. *)
Lemma levelLoop_spec (xp level xpForNext cum : Z) (Hpos : 0 < xpForNext ∧ 0 < level) :
  xpForNext = 100 * level →
  cum = xpThreshold (Z.to_nat level - 1) →
  cum ≤ xp →
  ∃ m : nat,
    (Z.to_nat level ≤ m)%nat
    ∧ levelLoop xp level xpForNext cum Hpos
      = {| LevelInfo.level := Z.of_nat m;
           LevelInfo.currentLevelXp := xp - xpThreshold (m - 1);
           LevelInfo.xpForNextLevel := 100 * Z.of_nat m |}
    ∧ xpThreshold (m - 1) ≤ xp < xpThreshold m.
Proof.
  remember (Z.to_nat (xp - cum)) as k eqn:Hk.
  revert level xpForNext cum Hpos Hk.
  induction k as [k IH] using lt_wf_ind.
  intros level xpForNext cum Hpos Hk Hnext Hcum Hle.
  assert (Hthr : xpThreshold (Z.to_nat level) = cum + xpForNext).
  { rewrite (xpThreshold_pred (Z.to_nat level)) by lia. lia. }
  simp levelLoop.
  destruct (Z_ge_dec xp (cum + xpForNext)) as [Hge|Hlt]; simpl.
  - match goal with
    | |- context [levelLoop xp ?l ?n ?c ?H] =>
        destruct (IH (Z.to_nat (xp - c)) ltac:(lia) l n c H eq_refl)
          as (m & Hm & Heq & Hbounds)
    end.
    + lia.
    + replace (Z.to_nat (level + 1) - 1)%nat with (Z.to_nat level) by lia.
      by rewrite Hthr.
    + lia.
    + exists m. split; [lia|]. split; [done|lia].
  - exists (Z.to_nat level). split; [done|]. split; [|lia].
    rewrite <- Hcum. f_equal; lia.
Qed.

End LevelFacts.

Example calculateXPLevel_thresholds :
  LevelInfo.level <$> (calculateXPLevel <$> [0; 99; 100; 299; 300; 599; 600])
  = [1; 1; 2; 2; 3; 3; 4].
Proof. vm_compute. reflexivity. Qed.

(** C7.  For a total XP [x ≥ 0] the level computed by [calculateXPLevel], which
    is the level [addXp] stores, is the one [n ≥ 1] with
    [sum_{k=1}^{n-1} 100 k ≤ x < sum_{k=1}^{n} 100 k]; no other level satisfies
    these bounds, and the two thresholds of level [n] are [100 * n] apart,
    which is also the [xpForNextLevel] the function reports. *)
Theorem calculateXPLevel_level_curve (x : Z) :
  0 ≤ x →
  ∃ n : nat,
    (1 ≤ n)%nat
    ∧ LevelInfo.level (calculateXPLevel x) = Z.of_nat n
    ∧ xpThreshold (n - 1) ≤ x < xpThreshold n
    ∧ (∀ m : nat, (1 ≤ m)%nat → xpThreshold (m - 1) ≤ x < xpThreshold m → m = n)
    ∧ xpThreshold n - xpThreshold (n - 1) = 100 * Z.of_nat n
    ∧ LevelInfo.xpForNextLevel (calculateXPLevel x) = 100 * Z.of_nat n
    ∧ (∀ (prev : UserSettings.t) (amount : Z),
         UserSettings.xp prev + amount = x →
         UserSettings.xp <$> addXp amount (Some prev) = Some x
         ∧ UserSettings.level <$> addXp amount (Some prev) = Some (Z.of_nat n)).
Proof.
  intros Hx. unfold calculateXPLevel.
  destruct (levelLoop_spec x 1 100 0 (conj eq_refl eq_refl)) as (n & Hn & Heq & Hb);
    [done|done|done|].
  exists n. rewrite Heq. simpl.
  assert (H1 : (1 ≤ n)%nat) by (simpl in Hn; lia).
  split; [done|]. split; [done|]. split; [done|].
  split; [intros m Hm Hxm; by apply (xpThreshold_unique x)|].
  split; [rewrite (xpThreshold_pred n) by done; lia|].
  split; [done|].
  intros prev amount Hsum.
  assert (Hnew : (if UserSettings.xp prev =? 0 then 0 else UserSettings.xp prev) + amount = x).
  { destruct (UserSettings.xp prev =? 0) eqn:Hz; [apply Z.eqb_eq in Hz|]; lia. }
  simpl. rewrite Hnew. unfold calculateXPLevel. by rewrite Heq.
Qed.

Lemma calculateXPLevel_level_curve_witness :
  ∃ n : nat,
    (1 ≤ n)%nat
    ∧ LevelInfo.level (calculateXPLevel 250) = Z.of_nat n
    ∧ xpThreshold (n - 1) ≤ 250 < xpThreshold n
    ∧ (∀ m : nat, (1 ≤ m)%nat → xpThreshold (m - 1) ≤ 250 < xpThreshold m → m = n)
    ∧ xpThreshold n - xpThreshold (n - 1) = 100 * Z.of_nat n
    ∧ LevelInfo.xpForNextLevel (calculateXPLevel 250) = 100 * Z.of_nat n
    ∧ (∀ (prev : UserSettings.t) (amount : Z),
         UserSettings.xp prev + amount = 250 →
         UserSettings.xp <$> addXp amount (Some prev) = Some 250
         ∧ UserSettings.level <$> addXp amount (Some prev) = Some (Z.of_nat n)).
Proof. apply (calculateXPLevel_level_curve 250). lia. Defined.

(** ** Custom words *)




(** A new term is appended to the catalog, with a fresh stat and 2 XP. *)
Example onSaveCustomWord_create_new :
  let r := onSaveCustomWord Ascii7.toLowerCase Ascii7.trim Sample.clock Sample.addApple
             None (Some 3) (Sample.app [Sample.river]) in
  r.1 = true
  ∧ Word.term <$> allWords r.2 = ["river"; "Apple"]
  ∧ Word.id <$> allWords r.2 = [IdNum 2; IdStr "1793698200000"]
  ∧ UserSettings.xp <$> userSettings r.2 = Some 97
  ∧ dom (wordStats r.2) = {[ "1793698200000" ]}.
Proof. split_and!; vm_compute; reflexivity. Qed.

(** ** Quiz options *)

Section SetFacts.
Implicit Types (a seen : list string) (x : string).

Lemma includes_true a x : Js.includes a x = true ↔ x ∈ a.
Proof. unfold Js.includes. apply bool_decide_eq_true. Qed.

Lemma includes_false a x : Js.includes a x = false ↔ x ∉ a.
Proof. unfold Js.includes. apply bool_decide_eq_false. Qed.

Lemma elem_of_setFrom seen a x : x ∈ Js.setFrom seen a ↔ x ∈ a ∧ x ∉ seen.
Proof.
  revert seen. induction a as [|y a IHa]; intros seen; simpl.
  - rewrite elem_of_nil. tauto.
  - destruct (Js.includes seen y) eqn:Hy.
    + apply includes_true in Hy. rewrite IHa, elem_of_cons.
      split; [tauto|]. intros [[->|Hx] Hseen]; [contradiction|tauto].
    + apply includes_false in Hy. rewrite !elem_of_cons, IHa, not_elem_of_cons.
      destruct (decide (x = y)) as [->|Hne]; tauto.
Qed.

Lemma NoDup_setFrom seen a : NoDup (Js.setFrom seen a).
Proof.
  revert seen. induction a as [|y a IH]; intros seen; simpl; [constructor|].
  destruct (Js.includes seen y); [apply IH|].
  apply NoDup_cons. split; [|apply IH].
  rewrite elem_of_setFrom, not_elem_of_cons. tauto.
Qed.

Lemma elem_of_arrayFromSet a x : x ∈ Js.arrayFromSet a ↔ x ∈ a.
Proof.
  unfold Js.arrayFromSet. rewrite elem_of_setFrom, elem_of_nil. tauto.
Qed.

Lemma NoDup_arrayFromSet a : NoDup (Js.arrayFromSet a).
Proof. apply NoDup_setFrom. Qed.

Lemma NoDup_slice0 a (e : Z) : NoDup a → NoDup (Js.slice0 a e).
Proof. intros Ha. eapply sublist_NoDup; [done|apply slice0_sublist]. Qed.

(** Removing one value from a duplicate-free list shortens it by at most
    one. *)
Lemma length_filter_ne a x :
  NoDup a → (length a ≤ S (length (filter (λ y, y ≠ x) a)))%nat.
Proof.
  induction 1 as [|y a Hy Ha IH]; simpl; [lia|].
  destruct (decide (y = x)) as [->|Hne].
  - rewrite filter_cons_False by naive_solver.
    assert (Hall : filter (λ y, y ≠ x) a = a); [|by rewrite Hall].
    clear IH Ha. induction a as [|z a IH]; [done|].
    apply not_elem_of_cons in Hy as [Hz Hy].
    rewrite filter_cons_True by done. by rewrite IH.
  - rewrite filter_cons_True by done. simpl. lia.
Qed.

End SetFacts.

Section QuizFacts.
Variable words : list Word.t.
Variable grade : string.
Implicit Types (correctWord w : Word.t) (u : list string) (rs : Rand).

Lemma elem_of_incorrectMeanings correctWord m :
  m ∈ incorrectMeanings words grade correctWord ↔
  (m ≠ Word.meaning correctWord
   ∧ ∃ w, w ∈ gradeWords words grade ∧ Word.id w ≠ Word.id correctWord
          ∧ Word.meaning w = m).
Proof.
  unfold incorrectMeanings.
  rewrite list_elem_of_filter, list_elem_of_fmap. split.
  - intros (Hne & w & -> & Hw). apply list_elem_of_filter in Hw as [Hid Hw].
    split; [done|]. by exists w.
  - intros (Hne & w & Hw & Hid & <-). split; [done|].
    exists w. split; [done|]. by apply list_elem_of_filter.
Qed.

Lemma elem_of_fallbackCandidates correctWord u w :
  w ∈ fallbackCandidates words grade correctWord u →
  (Word.meaning w ∉ u) ∧ Word.meaning w ≠ Word.meaning correctWord.
Proof.
  unfold fallbackCandidates. rewrite list_elem_of_filter.
  intros [(_ & Hinc & Hne) _]. by apply includes_false in Hinc.
Qed.

Lemma NoDup_snoc_option (cm m : string) u :
  NoDup (cm :: u) → m ∉ u → m ≠ cm → NoDup (cm :: u ++ [m]).
Proof.
  intros Hnd Hm Hne.
  assert (Hp : cm :: u ++ [m] ≡ₚ m :: cm :: u).
  { rewrite (Permutation_app_comm u [m]). simpl. apply perm_swap. }
  rewrite Hp. apply NoDup_cons. split; [|done].
  rewrite not_elem_of_cons. tauto.
Qed.

(** The first loop keeps the options distinct from one another and from the
    correct meaning. *)
Lemma fallbackLoop_NoDup correctWord u rs :
  NoDup (Word.meaning correctWord :: u) →
  NoDup (Word.meaning correctWord :: (fallbackLoop words grade correctWord u rs).1).
Proof.
  remember (3 - length u)%nat as k eqn:Hk. revert u rs Hk.
  induction k as [k IH] using lt_wf_ind. intros u rs Hk Hnd.
  simp fallbackLoop.
  destruct (decide (length u < 3)%nat) as [Hshort|Hfull]; [|done].
  unfold fallbackLoop_unfold_clause_1. case_bool_decide; [|done].
  destruct (head _) as [w|] eqn:Hhead; cbn [fmap option_fmap option_map]; [|done].
  destruct (Js.truthyStr (Some (Word.meaning w)) && negb (Js.includes u (Word.meaning w)))
    eqn:Hpush; [|done].
  apply (IH (3 - length (u ++ [Word.meaning w]))%nat);
    [rewrite length_app; simpl; lia|done|].
  apply head_Some_elem_of, ShuffleFacts.shuffleArray_elem_of in Hhead.
  apply elem_of_fallbackCandidates in Hhead as [Hu Hcm].
  by apply NoDup_snoc_option.
Qed.

Lemma fallbackLoop_full correctWord u rs :
  (3 ≤ length u)%nat → fallbackLoop words grade correctWord u rs = (u, rs).
Proof.
  intros Hlen. simp fallbackLoop.
  destruct (decide (length u < 3)%nat); [lia|done].
Qed.

Lemma placeholderLoop_NoDup rest correctWord u :
  NoDup (Word.meaning correctWord :: u) →
  NoDup (Word.meaning correctWord :: placeholderLoop rest correctWord u).
Proof.
  revert u. induction rest as [|p rest IH]; intros u Hnd; simpl; [done|].
  case_bool_decide; [|done]. apply IH.
  destruct (negb (Js.includes u p) && bool_decide (p ≠ Word.meaning correctWord))
    eqn:Hpush; [|done].
  apply andb_true_iff in Hpush as [Hinc Hne].
  apply negb_true_iff, includes_false in Hinc. apply bool_decide_eq_true in Hne.
  by apply NoDup_snoc_option.
Qed.

Lemma placeholderLoop_full rest correctWord u :
  (3 ≤ length u)%nat → placeholderLoop rest correctWord u = u.
Proof.
  intros Hlen. destruct rest as [|p rest]; simpl; [done|].
  rewrite bool_decide_eq_false_2; [done|lia].
Qed.

(** The option list is a rearrangement of the correct meaning followed by
    at most three distractors, all distinct. *)
Lemma generateMultipleChoiceOptions_spec correctWord rs :
  ∃ u,
    (generateMultipleChoiceOptions words grade correctWord rs).1
      ≡ₚ Word.meaning correctWord :: u
    ∧ NoDup (Word.meaning correctWord :: u)
    ∧ (length u ≤ 3)%nat
    ∧ (∀ ms, NoDup ms → (3 ≤ length ms)%nat →
             ms ⊆ incorrectMeanings words grade correctWord →
             length u = 3%nat).
Proof.
  unfold generateMultipleChoiceOptions. rewrite !bind_unfold.
  set (pool := (Shuffle.shuffleArray (incorrectMeanings words grade correctWord) rs).1).
  set (rs1 := (Shuffle.shuffleArray (incorrectMeanings words grade correctWord) rs).2).
  set (u0 := Js.slice0 (Js.arrayFromSet pool) 3).
  set (u1 := (fallbackLoop words grade correctWord u0 rs1).1).
  set (u2 := placeholderLoop placeholders correctWord u1).
  exists (Js.slice0 u2 3).
  assert (Hu0 : NoDup (Word.meaning correctWord :: u0)).
  { apply NoDup_cons. split; [|apply NoDup_slice0, NoDup_arrayFromSet].
    intros Hin. apply slice0_elem_of in Hin.
    rewrite elem_of_arrayFromSet in Hin. unfold pool in Hin.
    rewrite ShuffleFacts.shuffleArray_elem_of, elem_of_incorrectMeanings in Hin.
    tauto. }
  assert (Hu2 : NoDup (Word.meaning correctWord :: u2)).
  { by apply placeholderLoop_NoDup, fallbackLoop_NoDup. }
  split_and!.
  - apply ShuffleFacts.shuffleArray_Permutation.
  - apply NoDup_cons in Hu2 as [Hcm Hnd]. apply NoDup_cons. split.
    + intros Hin. by apply slice0_elem_of in Hin.
    + by apply NoDup_slice0.
  - rewrite slice0_3_length. lia.
  - intros ms Hms Hlen Hsub.
    assert (Hpool : (3 ≤ length (Js.arrayFromSet pool))%nat).
    { etrans; [exact Hlen|]. apply submseteq_length, NoDup_submseteq; [done|].
      intros m Hm. rewrite elem_of_arrayFromSet. unfold pool.
      rewrite ShuffleFacts.shuffleArray_elem_of. by apply Hsub. }
    assert (Hlen0 : length u0 = 3%nat).
    { unfold u0. rewrite slice0_3_length. lia. }
    unfold u2, u1. rewrite (fallbackLoop_full correctWord u0 rs1) by lia.
    cbn [fst]. rewrite (placeholderLoop_full placeholders correctWord u0) by lia.
    rewrite slice0_3_length. lia.
Qed.

End QuizFacts.

Section OptionCounting.
Implicit Types (x : string) (l u : list string).

Lemma filter_eq_absent x u : x ∉ u → filter (λ o, o = x) u = [].
Proof.
  induction u as [|y u IH]; intros Hx; [done|].
  apply not_elem_of_cons in Hx as [Hne Hx].
  rewrite filter_cons_False by (intros ->; done). by apply IH.
Qed.

(** In a rearrangement of [x :: u] without duplicates, [x] occurs once. *)
Lemma occurs_once x u l :
  l ≡ₚ x :: u → NoDup (x :: u) → length (filter (λ o, o = x) l) = 1%nat.
Proof.
  intros Hp [Hx _]%NoDup_cons. rewrite Hp.
  rewrite filter_cons_True by done. by rewrite filter_eq_absent.
Qed.

End OptionCounting.

Lemma NoDup_fmap_eq {A B} (f : A → B) (l : list A) (x y : A) :
  NoDup (f <$> l) → x ∈ l → y ∈ l → f x = f y → x = y.
Proof.
  induction l as [|z l IH]; intros Hnd Hx Hy Hf; [by apply elem_of_nil in Hx|].
  rewrite fmap_cons in Hnd. apply NoDup_cons in Hnd as [Hz Hnd].
  apply elem_of_cons in Hx as [->|Hx]; apply elem_of_cons in Hy as [->|Hy].
  - done.
  - exfalso. apply Hz. rewrite Hf. by apply list_elem_of_fmap_2.
  - exfalso. apply Hz. rewrite <- Hf. by apply list_elem_of_fmap_2.
  - by apply IH.
Qed.

(** C9.  For every catalog, grade and correct word, small catalogs included,
    the option list contains the correct word's meaning exactly once and has
    between 1 and 4 entries. *)
Theorem generateMultipleChoiceOptions_correct_once (words : list Word.t) (grade : string)
    (correctWord : Word.t) (rs : Rand) :
  let options := (generateMultipleChoiceOptions words grade correctWord rs).1 in
  length (filter (λ o, o = Word.meaning correctWord) options) = 1%nat
  ∧ (1 ≤ length options ≤ 4)%nat.
Proof.
  intros options.
  destruct (generateMultipleChoiceOptions_spec words grade correctWord rs)
    as (u & Hp & Hnd & Hlen & _).
  fold options in Hp. split.
  - by apply (occurs_once _ u).
  - rewrite Hp. simpl. lia.
Qed.

(** C6.  In a catalog whose ids identify its words, if the grade holds at
    least 4 words with pairwise distinct meanings, then for every correct
    word of that grade the option list has exactly 4 strings, exactly one of
    them the correct meaning, and no string twice. *)
Theorem generateMultipleChoiceOptions_four (words : list Word.t) (grade : string)
    (correctWord : Word.t) (ws : list Word.t) (rs : Rand) :
  NoDup (Word.id <$> words) →
  correctWord ∈ gradeWords words grade →
  ws ⊆ gradeWords words grade →
  (4 ≤ length ws)%nat →
  NoDup (Word.meaning <$> ws) →
  let options := (generateMultipleChoiceOptions words grade correctWord rs).1 in
  length options = 4%nat
  ∧ length (filter (λ o, o = Word.meaning correctWord) options) = 1%nat
  ∧ NoDup options.
Proof.
  intros Hids Hcw Hws Hlen Hms options.
  destruct (generateMultipleChoiceOptions_spec words grade correctWord rs)
    as (u & Hp & Hnd & _ & Hfull).
  fold options in Hp.
  assert (Hu : length u = 3%nat).
  { apply (Hfull (filter (λ m, m ≠ Word.meaning correctWord) (Word.meaning <$> ws))).
    - by apply NoDup_filter.
    - pose proof (length_filter_ne (Word.meaning <$> ws) (Word.meaning correctWord) Hms)
        as Hle.
      rewrite length_fmap in Hle. lia.
    - intros m [Hne Hm]%list_elem_of_filter.
      apply list_elem_of_fmap in Hm as (w & -> & Hw).
      apply elem_of_incorrectMeanings. split; [done|].
      exists w. split; [by apply Hws|]. split; [|done].
      intros Hid. apply Hne. f_equal.
      apply (NoDup_fmap_eq Word.id words); [done| | |done].
      + apply Hws in Hw. unfold gradeWords in Hw.
        by apply list_elem_of_filter in Hw as [_ Hw].
      + unfold gradeWords in Hcw. by apply list_elem_of_filter in Hcw as [_ Hcw]. }
  split_and!.
  - rewrite Hp. simpl. lia.
  - by apply (occurs_once _ u).
  - by rewrite Hp.
Qed.

Lemma generateMultipleChoiceOptions_four_witness :
  let words := [Sample.apple; Sample.river; Sample.cloud; Sample.stone] in
  let options :=
    (generateMultipleChoiceOptions words "middle1" Sample.apple (λ k, k)).1 in
  length options = 4%nat
  ∧ length (filter (λ o, o = Word.meaning Sample.apple) options) = 1%nat
  ∧ NoDup options.
Proof.
  apply (generateMultipleChoiceOptions_four
           [Sample.apple; Sample.river; Sample.cloud; Sample.stone] "middle1"
           Sample.apple [Sample.apple; Sample.river; Sample.cloud; Sample.stone] (λ k, k)).
  - compute_done.
  - vm_compute. apply list_elem_of_here.
  - vm_compute gradeWords. reflexivity.
  - simpl. lia.
  - compute_done.
Defined.

(** A grade with a single word: the three placeholders fill the list; when the
    word's meaning is itself a placeholder only two of them are left, and
    the list has three entries. *)
Example generateMultipleChoiceOptions_small :
  (generateMultipleChoiceOptions [Sample.apple] "middle1" Sample.apple Sample.zeros).1
  = ["관련 없음"; "다른 뜻"; "오답 예시"; "사과"]
  ∧ (generateMultipleChoiceOptions [Sample.other] "middle1" Sample.other Sample.zeros).1
    = ["관련 없음"; "오답 예시"; "다른 뜻"].
Proof. split; vm_compute; reflexivity. Qed.

(** * Further properties *)

(** ** Deleting a custom word *)

Section DeleteFacts.
Implicit Types (st : App) (wordId : WordId).

Lemma onDeleteCustomWord_cases wordId st :
  onDeleteCustomWord wordId st = st
  ∨ onDeleteCustomWord wordId st
    = setWordStats (λ prevStats, delete (propertyKey wordId) prevStats)
        (setAllWords (λ prevWords, filter (λ w, Word.id w ≠ wordId) prevWords) st).
Proof.
  unfold onDeleteCustomWord.
  destruct (list_find _ _) as [[i w]|]; [|by left].
  destruct (Js.truthyBool _); [by right|by left].
Qed.

Lemma list_find_filter_ne wordId (ws : list Word.t) :
  list_find (λ w, Word.id w = wordId) (filter (λ w, Word.id w ≠ wordId) ws) = None.
Proof.
  apply list_find_None, Forall_forall. intros w Hw.
  by apply list_elem_of_filter in Hw as [Hne _].
Qed.

End DeleteFacts.

(** X1.  Deleting a custom word (the first catalog entry with that id is
    custom) removes every entry with that id and the stat stored under its
    key, so the id reads the default stat again; the other entries keep their
    order, and the settings, counters and streak are untouched. *)
Theorem onDeleteCustomWord_custom (wordId : WordId) (st : App) (i : nat) (w : Word.t) :
  list_find (λ w, Word.id w = wordId) (allWords st) = Some (i, w) →
  Js.truthyBool (Word.isCustom w) = true →
  let st' := onDeleteCustomWord wordId st in
  allWords st' = filter (λ w, Word.id w ≠ wordId) (allWords st)
  ∧ (length (allWords st') < length (allWords st))%nat
  ∧ Forall (λ w', Word.id w' ≠ wordId) (allWords st')
  ∧ wordStats st' = delete (propertyKey wordId) (wordStats st)
  ∧ getWordStat (wordStats st') wordId = getDefaultWordStat wordId
  ∧ userSettings st' = userSettings st
  ∧ learnedWordsTodayCount st' = learnedWordsTodayCount st
  ∧ totalWordsLearnedOverall st' = totalWordsLearnedOverall st
  ∧ learningStreak st' = learningStreak st.
Proof.
  intros Hfind Hcustom st'. unfold st', onDeleteCustomWord. rewrite Hfind, Hcustom.
  simpl. split_and!; try done.
  - apply list_find_Some in Hfind as (Hi & Hid & _).
    apply (length_filter_lt _ _ w); [by eapply list_elem_of_lookup_2|].
    intros Hne. by apply Hne.
  - apply Forall_forall. intros w' Hw'.
    by apply list_elem_of_filter in Hw' as [Hne _].
  - unfold getWordStat. by rewrite lookup_delete_eq.
Qed.

Lemma onDeleteCustomWord_custom_witness :
  let st := Sample.app [Sample.apple; Sample.myApple] in
  let st' := onDeleteCustomWord (IdStr "1793600000000") st in
  allWords st' = filter (λ w, Word.id w ≠ IdStr "1793600000000") (allWords st)
  ∧ (length (allWords st') < length (allWords st))%nat
  ∧ Forall (λ w', Word.id w' ≠ IdStr "1793600000000") (allWords st')
  ∧ wordStats st' = delete (propertyKey (IdStr "1793600000000")) (wordStats st)
  ∧ getWordStat (wordStats st') (IdStr "1793600000000")
    = getDefaultWordStat (IdStr "1793600000000")
  ∧ userSettings st' = userSettings st
  ∧ learnedWordsTodayCount st' = learnedWordsTodayCount st
  ∧ totalWordsLearnedOverall st' = totalWordsLearnedOverall st
  ∧ learningStreak st' = learningStreak st.
Proof.
  apply (onDeleteCustomWord_custom (IdStr "1793600000000")
           (Sample.app [Sample.apple; Sample.myApple]) 1 Sample.myApple).
  - vm_compute. reflexivity.
  - reflexivity.
Defined.

(** X2.  A built-in word is never deleted and an unknown id deletes nothing:
    when no catalog entry has the id, or the first entry that has it is not
    custom, the whole state is left as it is. *)
Theorem onDeleteCustomWord_refused (wordId : WordId) (st : App) :
  (list_find (λ w, Word.id w = wordId) (allWords st) = None
   ∨ ∃ i w, list_find (λ w, Word.id w = wordId) (allWords st) = Some (i, w)
            ∧ Js.truthyBool (Word.isCustom w) = false) →
  onDeleteCustomWord wordId st = st.
Proof.
  unfold onDeleteCustomWord.
  intros [->|(i & w & -> & ->)]; done.
Qed.

Lemma onDeleteCustomWord_refused_witness :
  onDeleteCustomWord (IdNum 1) (Sample.app [Sample.apple; Sample.myApple])
  = Sample.app [Sample.apple; Sample.myApple].
Proof.
  apply (onDeleteCustomWord_refused (IdNum 1) (Sample.app [Sample.apple; Sample.myApple])).
  right. exists 0%nat, Sample.apple. split; vm_compute; reflexivity.
Defined.

(** X3.  For every state and id, deleting never adds or reorders catalog
    entries, keeps every entry with another id and every stat stored under
    another key, and deleting the same id a second time changes nothing. *)
Theorem onDeleteCustomWord_frame_idempotent (wordId : WordId) (st : App) :
  let st' := onDeleteCustomWord wordId st in
  allWords st' `sublist_of` allWords st
  ∧ filter (λ w, Word.id w ≠ wordId) (allWords st')
    = filter (λ w, Word.id w ≠ wordId) (allWords st)
  ∧ delete (propertyKey wordId) (wordStats st') = delete (propertyKey wordId) (wordStats st)
  ∧ onDeleteCustomWord wordId st' = st'.
Proof.
  intros st'. unfold st'.
  destruct (onDeleteCustomWord_cases wordId st) as [Heq|Heq].
  - rewrite Heq. by split_and!.
  - rewrite Heq. simpl. split_and!.
    + apply sublist_filter.
    + by rewrite list_filter_filter_l.
    + by rewrite delete_delete_eq.
    + unfold onDeleteCustomWord. simpl. by rewrite list_find_filter_ne.
Qed.

(** ** Toasts *)

Section ToastFacts.
Implicit Types (st : ToastState) (e : ToastEvent).

(** Every toast on screen was numbered below the counter, each number once. *)
Lemma toastStep_numbered st e :
  0 ≤ toastIdRef st →
  NoDup (Toast.id <$> toasts st) →
  Forall (λ toast, 0 ≤ Toast.id toast < toastIdRef st) (toasts st) →
  0 ≤ toastIdRef (toastStep st e)
  ∧ NoDup (Toast.id <$> toasts (toastStep st e))
  ∧ Forall (λ toast, 0 ≤ Toast.id toast < toastIdRef (toastStep st e))
      (toasts (toastStep st e)).
Proof.
  intros Href Hnd Hall. destruct e as [message type|id]; simpl.
  - split; [lia|]. split.
    + rewrite fmap_app. simpl. apply NoDup_app. split_and!; [done| |apply NoDup_singleton].
      intros x Hx Hin. apply list_elem_of_singleton in Hin as ->.
      apply list_elem_of_fmap in Hx as (toast & Hid & Htoast).
      rewrite Forall_forall in Hall. specialize (Hall toast Htoast). lia.
    + apply Forall_app. split.
      * eapply Forall_impl; [done|]. simpl. intros toast Hb. lia.
      * apply Forall_singleton. simpl. lia.
  - split; [done|]. split.
    + apply (NoDup_fmap_2_strong Toast.id).
      * intros x y Hx Hy Hxy.
        apply list_elem_of_filter in Hx as [_ Hx]. apply list_elem_of_filter in Hy as [_ Hy].
        by apply (NoDup_fmap_eq Toast.id (toasts st)).
      * apply NoDup_filter. by eapply NoDup_fmap_1.
    + apply Forall_forall. intros toast Htoast.
      apply list_elem_of_filter in Htoast as [_ Htoast].
      rewrite Forall_forall in Hall. by apply Hall.
Qed.

Lemma filter_ne_length_NoDup (l : list Toast.t) (id : Z) :
  NoDup (Toast.id <$> l) →
  (length l ≤ S (length (filter (λ toast, Toast.id toast ≠ id) l)))%nat.
Proof.
  induction l as [|toast l IH]; intros Hnd; simpl; [lia|].
  rewrite fmap_cons in Hnd. apply NoDup_cons in Hnd as [Hnotin Hnd].
  destruct (decide (Toast.id toast = id)) as [Heq|Hne].
  - rewrite filter_cons_False by (intros Hc; by apply Hc).
    assert (Hall : filter (λ toast, Toast.id toast ≠ id) l = l); [|by rewrite Hall].
    clear IH Hnd. induction l as [|t l IHl]; [done|].
    rewrite fmap_cons in Hnotin. apply not_elem_of_cons in Hnotin as [Hne Hnotin].
    rewrite filter_cons_True by congruence. by rewrite IHl.
  - rewrite filter_cons_True by done. simpl. specialize (IH Hnd). lia.
Qed.

End ToastFacts.

(** X4.  Whatever toasts are added and removed, starting from the empty
    list, the toasts on screen carry pairwise distinct ids, all below the
    counter, so a [removeToast(id)] takes away at most one toast and no toast
    with another id. *)
Theorem toast_ids_unique (events : list ToastEvent) (id : Z) :
  let st := foldl toastStep initialToasts events in
  NoDup (Toast.id <$> toasts st)
  ∧ Forall (λ toast, 0 ≤ Toast.id toast < toastIdRef st) (toasts st)
  ∧ (length (toasts st) ≤ S (length (toasts (removeToast id st))))%nat
  ∧ filter (λ toast, Toast.id toast ≠ id) (toasts (removeToast id st))
    = filter (λ toast, Toast.id toast ≠ id) (toasts st).
Proof.
  intros st.
  assert (Hinv : 0 ≤ toastIdRef st
                 ∧ NoDup (Toast.id <$> toasts st)
                 ∧ Forall (λ toast, 0 ≤ Toast.id toast < toastIdRef st) (toasts st)).
  { unfold st. induction events as [|e events IH] using rev_ind.
    - simpl. split; [lia|]. split; constructor.
    - rewrite foldl_app. destruct IH as (Href & Hnd & Hall).
      by apply toastStep_numbered. }
  destruct Hinv as (Href & Hnd & Hall). split_and!; [done|done| |].
  - simpl. by apply filter_ne_length_NoDup.
  - simpl. by rewrite list_filter_filter_l.
Qed.

(** ** XP and level: further facts *)

Section LevelMore.

Lemma calculateXPLevel_spec (x : Z) :
  0 ≤ x →
  ∃ n : nat,
    (1 ≤ n)%nat
    ∧ calculateXPLevel x
      = {| LevelInfo.level := Z.of_nat n;
           LevelInfo.currentLevelXp := x - xpThreshold (n - 1);
           LevelInfo.xpForNextLevel := 100 * Z.of_nat n |}
    ∧ xpThreshold (n - 1) ≤ x < xpThreshold n.
Proof.
  intros Hx. unfold calculateXPLevel.
  destruct (levelLoop_spec x 1 100 0 (conj eq_refl eq_refl)) as (n & Hn & Heq & Hb);
    [done|done|done|].
  exists n. split; [simpl in Hn; lia|]. by split.
Qed.

(** Below 100 XP, negative totals included, the loop is not entered. *)
Lemma calculateXPLevel_below_100 (x : Z) :
  x < 100 →
  calculateXPLevel x
  = {| LevelInfo.level := 1; LevelInfo.currentLevelXp := x - 0;
       LevelInfo.xpForNextLevel := 100 |}.
Proof.
  intros Hx. unfold calculateXPLevel. simp levelLoop.
  destruct (Z_ge_dec x (0 + 100)); [lia|done].
Qed.

Lemma calculateXPLevel_level_pos (x : Z) : 1 ≤ LevelInfo.level (calculateXPLevel x).
Proof.
  destruct (decide (x < 100)) as [Hlt|Hge].
  - by rewrite calculateXPLevel_below_100.
  - destruct (calculateXPLevel_spec x) as (n & Hn & -> & _); [lia|]. simpl. lia.
Qed.

Lemma xpThreshold_lower (n : nat) : (2 ≤ n)%nat → 100 * (Z.of_nat n + 1) ≤ xpThreshold n.
Proof.
  induction 1 as [|n Hn IH]; [simpl; lia|].
  change (xpThreshold (S n)) with (xpThreshold n + 100 * Z.of_nat (S n)). lia.
Qed.

End LevelMore.

(** X5.  The level is monotone in the total XP, and it is at least 1 for
    every total, negative ones included; so [addXp] with a non-negative amount
    onto settings whose level matches their XP never lowers the level, and it
    raises the XP by exactly the amount. *)
Theorem calculateXPLevel_monotone (x y : Z) (prev : UserSettings.t) (amount : Z) :
  x ≤ y →
  0 ≤ amount →
  UserSettings.level prev = LevelInfo.level (calculateXPLevel (UserSettings.xp prev)) →
  1 ≤ LevelInfo.level (calculateXPLevel x)
  ∧ LevelInfo.level (calculateXPLevel x) ≤ LevelInfo.level (calculateXPLevel y)
  ∧ ∃ new, addXp amount (Some prev) = Some new
           ∧ UserSettings.xp new = UserSettings.xp prev + amount
           ∧ UserSettings.level prev ≤ UserSettings.level new.
Proof.
  assert (Hmono : ∀ a b, a ≤ b →
            LevelInfo.level (calculateXPLevel a) ≤ LevelInfo.level (calculateXPLevel b)).
  { intros a b Hab. destruct (decide (a < 100)) as [Hlt|Hge].
    { rewrite (calculateXPLevel_below_100 a) by done. simpl.
      apply calculateXPLevel_level_pos. }
    destruct (calculateXPLevel_spec a) as (n & Hn & -> & Hbn); [lia|].
    destruct (calculateXPLevel_spec b) as (m & Hm & -> & Hbm); [lia|]. simpl.
    destruct (decide (m < n)%nat) as [Hlt|Hnlt]; [|lia].
    pose proof (xpThreshold_mono m (n - 1)). lia. }
  intros Hxy Hamount Hlevel. split; [apply calculateXPLevel_level_pos|].
  split; [by apply Hmono|].
  eexists. split; [reflexivity|]. simpl.
  assert (Hor : (if UserSettings.xp prev =? 0 then 0 else UserSettings.xp prev)
                = UserSettings.xp prev).
  { destruct (UserSettings.xp prev =? 0) eqn:Hz; [apply Z.eqb_eq in Hz|]; lia. }
  rewrite Hor. split; [done|]. rewrite Hlevel. apply Hmono. lia.
Qed.

Lemma calculateXPLevel_monotone_witness :
  1 ≤ LevelInfo.level (calculateXPLevel 95)
  ∧ LevelInfo.level (calculateXPLevel 95) ≤ LevelInfo.level (calculateXPLevel 100)
  ∧ ∃ new, addXp 5 (Some Sample.settings) = Some new
           ∧ UserSettings.xp new = UserSettings.xp Sample.settings + 5
           ∧ UserSettings.level Sample.settings ≤ UserSettings.level new.
Proof.
  apply (calculateXPLevel_monotone 95 100 Sample.settings 5); [lia|lia|].
  vm_compute. reflexivity.
Defined.

(** X6.  For a total XP [x ≥ 0], [calculateXPLevel] splits [x] into the XP
    spent on the levels already passed and the XP inside the current level:
    [0 ≤ currentLevelXp < xpForNextLevel], [xpForNextLevel = 100 * level] and
    [x = sum_{k=1}^{level-1} 100 k + currentLevelXp]. *)
Theorem calculateXPLevel_progress (x : Z) :
  0 ≤ x →
  let info := calculateXPLevel x in
  0 ≤ LevelInfo.currentLevelXp info < LevelInfo.xpForNextLevel info
  ∧ LevelInfo.xpForNextLevel info = 100 * LevelInfo.level info
  ∧ x = xpThreshold (Z.to_nat (LevelInfo.level info) - 1) + LevelInfo.currentLevelXp info.
Proof.
  intros Hx info. unfold info.
  destruct (calculateXPLevel_spec x Hx) as (n & Hn & -> & Hb). simpl.
  rewrite Nat2Z.id. rewrite (xpThreshold_pred n) in Hb by done. lia.
Qed.

Lemma calculateXPLevel_progress_witness :
  let info := calculateXPLevel 250 in
  0 ≤ LevelInfo.currentLevelXp info < LevelInfo.xpForNextLevel info
  ∧ LevelInfo.xpForNextLevel info = 100 * LevelInfo.level info
  ∧ 250 = xpThreshold (Z.to_nat (LevelInfo.level info) - 1) + LevelInfo.currentLevelXp info.
Proof. apply (calculateXPLevel_progress 250). lia. Defined.

(** X7.  The dashboard prints [max(0, 100 * level - xp)] as the XP missing
    for the next level, with the total XP.  For settings whose level matches
    their XP this is the XP really missing ([xpForNextLevel - currentLevelXp])
    while the level is 1; from 300 XP on (level 3 and above) it is 0 although
    XP is still missing. *)
Theorem dashboardXpRemaining_by_level (s : UserSettings.t) :
  0 ≤ UserSettings.xp s →
  UserSettings.level s = LevelInfo.level (calculateXPLevel (UserSettings.xp s)) →
  let info := calculateXPLevel (UserSettings.xp s) in
  (UserSettings.xp s < 100 →
   dashboardXpRemaining s = LevelInfo.xpForNextLevel info - LevelInfo.currentLevelXp info)
  ∧ (300 ≤ UserSettings.xp s →
     dashboardXpRemaining s = 0
     ∧ 0 < LevelInfo.xpForNextLevel info - LevelInfo.currentLevelXp info).
Proof.
  intros Hx Hlevel info. unfold dashboardXpRemaining, dashboardXpForNextLevel.
  rewrite Hlevel. unfold info. split.
  - intros Hlt. rewrite calculateXPLevel_below_100 by done. simpl. lia.
  - intros Hge. destruct (calculateXPLevel_spec _ Hx) as (n & Hn & -> & Hb). simpl.
    assert (Hn3 : (3 ≤ n)%nat).
    { destruct (decide (n ≤ 2)%nat) as [Hle|]; [|lia].
      pose proof (xpThreshold_mono n 2 Hle) as Hm. simpl in Hm. lia. }
    pose proof (xpThreshold_lower (n - 1) ltac:(lia)) as Hlow.
    rewrite (xpThreshold_pred n) in Hb by lia. lia.
Qed.

Lemma dashboardXpRemaining_by_level_witness :
  let s := {| UserSettings.grade := "middle1"; UserSettings.dailyGoal := 10;
              UserSettings.xp := 350; UserSettings.level := 3 |} in
  let info := calculateXPLevel (UserSettings.xp s) in
  (UserSettings.xp s < 100 →
   dashboardXpRemaining s = LevelInfo.xpForNextLevel info - LevelInfo.currentLevelXp info)
  ∧ (300 ≤ UserSettings.xp s →
     dashboardXpRemaining s = 0
     ∧ 0 < LevelInfo.xpForNextLevel info - LevelInfo.currentLevelXp info).
Proof.
  apply (dashboardXpRemaining_by_level
           {| UserSettings.grade := "middle1"; UserSettings.dailyGoal := 10;
              UserSettings.xp := 350; UserSettings.level := 3 |}).
  - simpl. lia.
  - vm_compute. reflexivity.
Defined.

(** ** [shuffleArray]: every ordering can come out *)

Section ShuffleReach.
Context {A : Type}.
Implicit Types (a l t : list A) (rs : Rand).

Lemma swapAt_app_l a (x : A) i j :
  (i < length a)%nat → (j < length a)%nat →
  Js.swapAt (a ++ [x]) i j = Js.swapAt a i j ++ [x].
Proof.
  intros Hi Hj. unfold Js.swapAt.
  rewrite !lookup_app_l by done.
  destruct (lookup_lt_is_Some_2 a i Hi) as [u ->].
  destruct (lookup_lt_is_Some_2 a j Hj) as [v ->].
  rewrite insert_app_l by done. rewrite insert_app_l; [done|].
  by rewrite length_insert.
Qed.

Lemma swapAt_lookup_last a i j (y : A) :
  (i < length a)%nat → a !! j = Some y → Js.swapAt a i j !! i = Some y.
Proof.
  intros Hi Hj. unfold Js.swapAt.
  destruct (lookup_lt_is_Some_2 a i Hi) as [u Hu]. rewrite Hu, Hj.
  destruct (decide (i = j)) as [->|Hne].
  - rewrite list_lookup_insert_eq; [congruence|]. by rewrite length_insert.
  - rewrite list_lookup_insert_ne by done. by rewrite list_lookup_insert_eq.
Qed.

(** The loop entered at index [i] leaves the elements above [i] alone. *)
Lemma shuffleLoop_app_l i a (x : A) rs :
  (i < length a)%nat →
  Shuffle.shuffleLoop i (a ++ [x]) rs
  = ((Shuffle.shuffleLoop i a rs).1 ++ [x], (Shuffle.shuffleLoop i a rs).2).
Proof.
  revert a rs. induction i as [|i IH]; intros a rs Hi; [done|].
  cbn [Shuffle.shuffleLoop]. rewrite !bind_unfold.
  pose proof (randomIndex_lt (S i + 1) rs ltac:(lia)) as Hj.
  rewrite swapAt_app_l by lia.
  apply IH. rewrite swapAt_length. lia.
Qed.

Lemma shuffleArray_reaches_length (n : nat) l t :
  length l = n → t ≡ₚ l → ∃ rs, (Shuffle.shuffleArray l rs).1 = t.
Proof.
  revert l t. induction n as [|n IH]; intros l t Hlen Hperm.
  { destruct l; [|done]. apply Permutation_nil_r in Hperm as ->. by exists (λ _, 0%nat). }
  destruct n as [|m].
  { destruct l as [|x [|? ?]]; try done.
    apply Permutation_singleton_r in Hperm as ->. by exists (λ _, 0%nat). }
  assert (Hlt : length t = S (S m)) by by rewrite Hperm.
  destruct t as [|x t _] using rev_ind; [done|].
  assert (Hx : x ∈ l).
  { rewrite <- Hperm. apply elem_of_app. right. by apply list_elem_of_singleton. }
  apply list_elem_of_lookup in Hx as [j Hj].
  pose proof (lookup_lt_Some _ _ _ Hj) as Hjlt.
  set (a1 := Js.swapAt l (S m) j).
  assert (Hlen1 : length a1 = S (S m)) by (unfold a1; by rewrite swapAt_length).
  assert (Hlast : a1 !! S m = Some x).
  { unfold a1. apply swapAt_lookup_last; [lia|done]. }
  assert (Hsplit : a1 = take (S m) a1 ++ [x]).
  { rewrite <- (take_S_r _ _ _ Hlast). symmetry. apply take_ge. lia. }
  assert (Hperm1 : t ≡ₚ take (S m) a1).
  { apply (Permutation_app_inv_r [x]). rewrite <- Hsplit.
    unfold a1. by rewrite swapAt_Permutation. }
  destruct (IH (take (S m) a1) t) as [rs' Hrs'].
  { rewrite length_take. lia. }
  { done. }
  exists (drawThen j rs').
  assert (Hd1 : (randomIndex (S m + 1) (drawThen j rs')).1 = j).
  { unfold randomIndex, drawThen. cbn [fst]. apply Nat.mod_small. lia. }
  assert (Hd2 : (randomIndex (S m + 1) (drawThen j rs')).2 = rs') by reflexivity.
  unfold Shuffle.shuffleArray. rewrite Hlen.
  replace (S (S m) - 1)%nat with (S m) by lia.
  cbn [Shuffle.shuffleLoop]. rewrite bind_unfold, Hd1, Hd2.
  fold a1. rewrite Hsplit.
  rewrite shuffleLoop_app_l by (rewrite length_take; lia).
  cbn [fst]. f_equal.
  unfold Shuffle.shuffleArray in Hrs'. rewrite length_take in Hrs'.
  replace (S m `min` length a1 - 1)%nat with m in Hrs' by lia.
  exact Hrs'.
Qed.

End ShuffleReach.

(** X8.  [shuffleArray] can return every ordering of its argument: for each
    rearrangement of the input there is a sequence of random draws that
    produces it. *)
Theorem shuffleArray_reaches_every_permutation {A : Type} (l t : list A) :
  t ≡ₚ l → ∃ rs, (Shuffle.shuffleArray l rs).1 = t.
Proof. by apply (shuffleArray_reaches_length (length l)). Qed.

Lemma shuffleArray_reaches_every_permutation_witness :
  ∃ rs, (Shuffle.shuffleArray [1; 2; 3] rs).1 = [3; 1; 2].
Proof.
  apply (shuffleArray_reaches_every_permutation [1; 2; 3] [3; 1; 2]).
  apply (Permutation_cons_append [1; 2] 3).
Defined.

(** ** Streak: further facts *)

Section StreakFacts.
Implicit Types (st : App) (now : Clock) (s : Streak.t).

Lemma streakOnLearned_bounds now s :
  0 ≤ Streak.currentStreak s ≤ Streak.bestStreak s →
  0 ≤ Streak.currentStreak (streakOnLearned now s)
    ≤ Streak.bestStreak (streakOnLearned now s).
Proof. unfold streakOnLearned. simpl. repeat case_bool_decide; lia. Qed.

Lemma loadLearningStreak_bounds now s :
  0 ≤ Streak.currentStreak s ≤ Streak.bestStreak s →
  0 ≤ Streak.currentStreak (loadLearningStreak now (Some s))
    ≤ Streak.bestStreak (loadLearningStreak now (Some s)).
Proof. unfold loadLearningStreak. repeat (case_bool_decide; simpl); lia. Qed.

Lemma onWordLearned_learningStreak now wordId isQuickReview st :
  learningStreak (onWordLearned now wordId isQuickReview st) = learningStreak st
  ∨ learningStreak (onWordLearned now wordId isQuickReview st)
    = streakOnLearned now (learningStreak st).
Proof.
  unfold onWordLearned.
  destruct (notReviewedOn _ _ && negb isQuickReview); [by right|].
  left. by destruct isQuickReview.
Qed.

Lemma streakOnLearned_same_day now s :
  Streak.lastLearnedDate s = getTodayDateString now →
  Streak.currentStreak s ≤ Streak.bestStreak s →
  streakOnLearned now s = s.
Proof.
  intros Hday Hle. unfold streakOnLearned. rewrite bool_decide_eq_true_2 by done.
  destruct s as [cur best last]. simpl in *. f_equal; [lia|done].
Qed.

Lemma step_streak_same_day st (e : Event) :
  Streak.lastLearnedDate (learningStreak st) = getTodayDateString (eventClock e) →
  Streak.currentStreak (learningStreak st) ≤ Streak.bestStreak (learningStreak st) →
  learningStreak (step st e) = learningStreak st.
Proof.
  intros Hday Hle. destruct e as [now wordId isQuickReview|now]; simpl in Hday.
  - unfold step.
    destruct (onWordLearned_learningStreak now wordId isQuickReview st) as [->| ->];
      [done|]. by apply streakOnLearned_same_day.
  - unfold step, setLearningStreak. cbn [learningStreak].
    unfold loadLearningStreak. by rewrite bool_decide_eq_true_2.
Qed.

End StreakFacts.

(** X9.  The streak record stays well formed: if
    [0 ≤ currentStreak ≤ bestStreak] holds (as it does in the initial state),
    it holds after any sequence of [onWordLearned] calls and reloads. *)
Theorem streak_bounds_invariant (st : App) (events : list Event) :
  0 ≤ Streak.currentStreak (learningStreak st) ≤ Streak.bestStreak (learningStreak st) →
  0 ≤ Streak.currentStreak (learningStreak (run st events))
    ≤ Streak.bestStreak (learningStreak (run st events)).
Proof.
  unfold run. revert st. induction events as [|e events IH]; intros st Hb; [done|].
  simpl. apply IH. destruct e as [now wordId isQuickReview|now].
  - unfold step.
    destruct (onWordLearned_learningStreak now wordId isQuickReview st) as [Heq|Heq];
      rewrite Heq; [done|by apply streakOnLearned_bounds].
  - unfold step, setLearningStreak. cbn [learningStreak].
    by apply loadLearningStreak_bounds.
Qed.

Lemma streak_bounds_invariant_witness :
  0 ≤ Streak.currentStreak
        (learningStreak (run (Sample.app [Sample.apple])
           [AppLoaded Sample.clock; WordLearned Sample.clock (IdNum 1) false]))
    ≤ Streak.bestStreak
        (learningStreak (run (Sample.app [Sample.apple])
           [AppLoaded Sample.clock; WordLearned Sample.clock (IdNum 1) false])).
Proof.
  apply (streak_bounds_invariant (Sample.app [Sample.apple])
           [AppLoaded Sample.clock; WordLearned Sample.clock (IdNum 1) false]).
  simpl. lia.
Defined.

(** X10.  The streak is counted once per day: once [lastLearnedDate] is
    today's date (and [currentStreak ≤ bestStreak]), no [onWordLearned] call
    and no reload on that same date changes any field of the streak. *)
Theorem streak_once_per_day (st : App) (events : list Event) :
  Streak.currentStreak (learningStreak st) ≤ Streak.bestStreak (learningStreak st) →
  Forall (λ e, getTodayDateString (eventClock e)
               = Streak.lastLearnedDate (learningStreak st)) events →
  learningStreak (run st events) = learningStreak st.
Proof.
  unfold run. revert st. induction events as [|e events IH]; intros st Hle Hall; [done|].
  apply Forall_cons in Hall as [He Hall]. simpl.
  assert (Hstep : learningStreak (step st e) = learningStreak st)
    by by apply step_streak_same_day.
  rewrite <- Hstep. apply IH; by rewrite Hstep.
Qed.

Lemma streak_once_per_day_witness :
  let st := onWordLearned Sample.clock (IdNum 1) false
              (Sample.app [Sample.apple; Sample.river]) in
  learningStreak
    (run st [WordLearned Sample.laterSameDay (IdNum 2) false; AppLoaded Sample.laterSameDay])
  = learningStreak st.
Proof.
  apply (streak_once_per_day
           (onWordLearned Sample.clock (IdNum 1) false
              (Sample.app [Sample.apple; Sample.river]))
           [WordLearned Sample.laterSameDay (IdNum 2) false; AppLoaded Sample.laterSameDay]).
  - vm_compute. discriminate.
  - repeat constructor.
Defined.

(** X11.  The load-time correction keeps [bestStreak] and [lastLearnedDate],
    resets [currentStreak] to 0 exactly when the last learning day is neither
    today nor yesterday, is idempotent, and never changes what the next
    learning event computes: learning after the correction gives the same
    streak as learning without it. *)
Theorem loadLearningStreak_correction (now : Clock) (stored : Streak.t) :
  let loaded := loadLearningStreak now (Some stored) in
  Streak.bestStreak loaded = Streak.bestStreak stored
  ∧ Streak.lastLearnedDate loaded = Streak.lastLearnedDate stored
  ∧ Streak.currentStreak loaded
    = (if bool_decide (Streak.lastLearnedDate stored = getTodayDateString now)
          || bool_decide (Streak.lastLearnedDate stored = getYesterdayDateString now)
       then Streak.currentStreak stored else 0)
  ∧ loadLearningStreak now (Some loaded) = loaded
  ∧ streakOnLearned now loaded = streakOnLearned now stored.
Proof.
  intros loaded. unfold loaded, loadLearningStreak, streakOnLearned.
  generalize (getTodayDateString now) (getYesterdayDateString now).
  intros today yesterday. destruct stored as [cur best last]. cbn.
  repeat (case_bool_decide; cbn); try congruence; by split_and!.
Qed.

(** ** Learning several words *)

Section LearnMany.
Implicit Types (st : App) (now : Clock) (wordId : WordId).

Lemma getWordStat_onWordLearned_ne now wordId wordId' isQuickReview st :
  propertyKey wordId' ≠ propertyKey wordId →
  getWordStat (wordStats (onWordLearned now wordId isQuickReview st)) wordId'
  = getWordStat (wordStats st) wordId'.
Proof.
  intros Hne. unfold getWordStat.
  by rewrite onWordLearned_wordStats, lookup_insert_ne.
Qed.

Lemma onWordLearned_first now wordId st :
  notReviewedOn (getTodayDateString now)
    (WordStat.lastReviewed (getWordStat (wordStats st) wordId)) = true →
  learnedWordsTodayCount (onWordLearned now wordId false st)
  = learnedWordsTodayCount st + 1
  ∧ totalWordsLearnedOverall (onWordLearned now wordId false st)
    = totalWordsLearnedOverall st + 1
  ∧ userSettings (onWordLearned now wordId false st) = addXp 5 (userSettings st)
  ∧ learningStreak (onWordLearned now wordId false st)
    = streakOnLearned now (learningStreak st).
Proof. intros Hfirst. unfold onWordLearned. by rewrite Hfirst. Qed.

End LearnMany.

Lemma run_learnedEvents_counts (st : App) (clicks : list (Clock * WordId)) (today : string) :
  NoDup ((λ click, propertyKey click.2) <$> clicks) →
  Forall (λ click,
      getTodayDateString click.1 = today
      ∧ notReviewedOn today
          (WordStat.lastReviewed (getWordStat (wordStats st) click.2)) = true) clicks →
  let st' := run st (learnedEvents clicks) in
  learnedWordsTodayCount st' = learnedWordsTodayCount st + Z.of_nat (length clicks)
  ∧ totalWordsLearnedOverall st'
    = totalWordsLearnedOverall st + Z.of_nat (length clicks)
  ∧ UserSettings.xp <$> userSettings st'
    = (λ s, UserSettings.xp s + 5 * Z.of_nat (length clicks)) <$> userSettings st.
Proof.
  unfold run, learnedEvents. revert st.
  induction clicks as [|[now wordId] clicks IH]; intros st Hnd Hall.
  { simpl. split_and!; [lia|lia|]. destruct (userSettings st) as [s|]; [|done].
    simpl. f_equal. lia. }
  rewrite fmap_cons in Hnd. apply NoDup_cons in Hnd as [Hnotin Hnd].
  apply Forall_cons in Hall as [[Hday Hfirst] Hall]. simpl in Hday, Hfirst.
  rewrite fmap_cons. cbn [foldl step fst snd].
  destruct (onWordLearned_first now wordId st) as (Hl & Ht & Hu & _).
  { by rewrite Hday. }
  destruct (IH (onWordLearned now wordId false st) Hnd) as (Hl' & Ht' & Hu').
  { apply Forall_forall. intros [now' wordId'] Hin.
    rewrite Forall_forall in Hall. destruct (Hall _ Hin) as [Hday' Hfirst'].
    split; [done|]. simpl. rewrite getWordStat_onWordLearned_ne; [done|].
    intros Heq. apply Hnotin. apply list_elem_of_fmap.
    exists (now', wordId'). by split. }
  cbn [length]. rewrite Hl', Ht', Hu', Hl, Ht, Hu.
  split_and!; [lia|lia|].
  destruct (userSettings st) as [s|]; [|done]. simpl. f_equal.
  destruct (UserSettings.xp s =? 0) eqn:Hz; [apply Z.eqb_eq in Hz|]; lia.
Qed.

(** X12.  Learning words with pairwise distinct stat keys, none of them
    reviewed today, on one calendar day counts every one of them: after the
    [onWordLearned(id, false)] calls [learnedWordsTodayCount] and
    [totalWordsLearnedOverall] have grown by the number of words and the XP by
    5 per word. *)
Theorem learn_distinct_words (st : App) (clicks : list (Clock * WordId)) (today : string) :
  NoDup ((λ click, propertyKey click.2) <$> clicks) →
  Forall (λ click,
      getTodayDateString click.1 = today
      ∧ notReviewedOn today
          (WordStat.lastReviewed (getWordStat (wordStats st) click.2)) = true) clicks →
  let st' := run st (learnedEvents clicks) in
  learnedWordsTodayCount st' = learnedWordsTodayCount st + Z.of_nat (length clicks)
  ∧ totalWordsLearnedOverall st'
    = totalWordsLearnedOverall st + Z.of_nat (length clicks)
  ∧ UserSettings.xp <$> userSettings st'
    = (λ s, UserSettings.xp s + 5 * Z.of_nat (length clicks)) <$> userSettings st.
Proof.
  intros Hnd Hall st'.
  destruct (run_learnedEvents_counts st clicks today Hnd Hall) as (Hlearned & Htotal & Hxp).
  by split_and!.
Qed.

Lemma learn_distinct_words_witness :
  let st := Sample.app [Sample.apple; Sample.river] in
  let clicks := [(Sample.clock, IdNum 1); (Sample.laterSameDay, IdNum 2)] in
  let st' := run st (learnedEvents clicks) in
  learnedWordsTodayCount st' = learnedWordsTodayCount st + Z.of_nat (length clicks)
  ∧ totalWordsLearnedOverall st'
    = totalWordsLearnedOverall st + Z.of_nat (length clicks)
  ∧ UserSettings.xp <$> userSettings st'
    = (λ s, UserSettings.xp s + 5 * Z.of_nat (length clicks)) <$> userSettings st.
Proof.
  apply (learn_distinct_words (Sample.app [Sample.apple; Sample.river])
           [(Sample.clock, IdNum 1); (Sample.laterSameDay, IdNum 2)] "2026-11-03").
  - compute_done.
  - repeat constructor.
Defined.

(** ** Selection: further facts *)

Section SelectionMore.
Variable getTime : string → option Z.
Variable words : list Word.t.
Variable wordStats : gmap string WordStat.t.
Variable grade : string.

Lemma eligibleWords_sublist now forQuickReview :
  eligibleWords words wordStats grade now forQuickReview `sublist_of` words.
Proof.
  unfold eligibleWords, gradeUnmastered.
  destruct forQuickReview; (etrans; [apply sublist_filter|apply sublist_filter]).
Qed.

Lemma selectWords_submseteq now count forQuickReview rs :
  (selectWords getTime words wordStats grade now count forQuickReview rs).1
  ⊆+ eligibleWords words wordStats grade now forQuickReview.
Proof.
  unfold selectWords. rewrite bind_unfold. unfold ret. cbn [fst].
  etrans; [apply sublist_submseteq, slice0_sublist|].
  by rewrite ShuffleFacts.shuffleArray_Permutation, sortBy_Permutation.
Qed.

Lemma elem_of_eligibleWords_quick now w :
  w ∈ eligibleWords words wordStats grade now true →
  Word.gradeLevel w = grade
  ∧ WordStat.isMastered (getWordStat wordStats (Word.id w)) = false
  ∧ ∃ s, WordStat.lastReviewed (getWordStat wordStats (Word.id w)) = Some s
         ∧ s ≠ "" ∧ Js.splitT0 s ≠ getTodayDateString now.
Proof.
  unfold eligibleWords. rewrite list_elem_of_filter. intros [Hr Hw].
  apply elem_of_gradeUnmastered in Hw as [Hg Hm]. split_and!; [done..|].
  apply Is_true_eq_true in Hr.
  destruct (WordStat.lastReviewed _) as [s|]; [|done]. exists s.
  destruct s as [|c s]; [done|]. simpl in Hr.
  apply negb_true_iff, bool_decide_eq_false in Hr. by split_and!.
Qed.

End SelectionMore.

(** X13.  In either mode [selectWords] returns exactly
    [min(count, number of eligible words)] words (none when nothing is
    eligible), each taken from the eligible list no more often than it occurs
    there; with a duplicate-free catalog the selection has no duplicates. *)
Theorem selectWords_size (getTime : string → option Z) (words : list Word.t)
    (wordStats : gmap string WordStat.t) (grade : string) (now : Clock) (count : nat)
    (forQuickReview : bool) (rs : Rand) :
  let eligible := eligibleWords words wordStats grade now forQuickReview in
  let selected :=
    (selectWords getTime words wordStats grade now (Z.of_nat count) forQuickReview rs).1 in
  length selected = (count `min` length eligible)%nat
  ∧ selected ⊆+ eligible
  ∧ (NoDup words → NoDup selected).
Proof.
  intros eligible selected. split_and!.
  - unfold selected, selectWords. rewrite bind_unfold. unfold ret. cbn [fst].
    by rewrite slice0_length_nat, ShuffleFacts.shuffleArray_length, sortBy_Permutation.
  - apply selectWords_submseteq.
  - intros Hnd. unfold selected, selectWords. rewrite bind_unfold. unfold ret. cbn [fst].
    eapply sublist_NoDup; [|apply slice0_sublist].
    rewrite ShuffleFacts.shuffleArray_Permutation, sortBy_Permutation.
    eapply sublist_NoDup; [exact Hnd|apply eligibleWords_sublist].
Qed.

(** X14.  Every word [selectWords] returns in QuickReview mode is of the
    requested grade, is not mastered, and has a non-empty [lastReviewed]
    whose calendar date is not today's: it was reviewed on another day. *)
Theorem selectWords_quick_eligible (getTime : string → option Z) (words : list Word.t)
    (wordStats : gmap string WordStat.t) (grade : string) (now : Clock) (count : Z)
    (rs : Rand) :
  Forall (λ w,
      Word.gradeLevel w = grade
      ∧ WordStat.isMastered (getWordStat wordStats (Word.id w)) = false
      ∧ ∃ s, WordStat.lastReviewed (getWordStat wordStats (Word.id w)) = Some s
             ∧ s ≠ "" ∧ Js.splitT0 s ≠ getTodayDateString now)
    (selectWords getTime words wordStats grade now count true rs).1.
Proof.
  apply Forall_forall. intros w Hw.
  apply (elem_of_eligibleWords_quick words wordStats grade now).
  by eapply selectWords_elem_of.
Qed.

(** X15.  The number of review candidates the finish screen computes is the
    length of the list QuickReview selection draws from, so the quick review
    started from that screen shows [min(3, potentialReviewWords)] words and
    finds none exactly when that number is 0. *)
Theorem potentialReviewWords_quick_review (getTime : string → option Z)
    (words : list Word.t) (wordStats : gmap string WordStat.t) (grade : string)
    (now : Clock) (rs : Rand) :
  let reviewWords := (selectWords getTime words wordStats grade now 3 true rs).1 in
  potentialReviewWords words wordStats grade now
  = length (eligibleWords words wordStats grade now true)
  ∧ length reviewWords = (3 `min` potentialReviewWords words wordStats grade now)%nat
  ∧ (reviewWords = [] ↔ potentialReviewWords words wordStats grade now = 0%nat).
Proof.
  intros reviewWords.
  assert (Hpot : potentialReviewWords words wordStats grade now
                 = length (eligibleWords words wordStats grade now true)).
  { unfold potentialReviewWords, eligibleWords, gradeUnmastered.
    rewrite list_filter_filter. f_equal. apply list_filter_iff. intros w.
    rewrite !andb_True. tauto. }
  assert (Hlen : length reviewWords
                 = (3 `min` potentialReviewWords words wordStats grade now)%nat).
  { rewrite Hpot. unfold reviewWords, selectWords. rewrite bind_unfold. unfold ret.
    cbn [fst].
    by rewrite slice0_3_length, ShuffleFacts.shuffleArray_length, sortBy_Permutation. }
  split_and!; [done|done|].
  rewrite <- length_zero_iff_nil, Hlen. lia.
Qed.

(** ** The sort of the candidates *)

Section SortFacts.
Context {A : Type}.
Implicit Types (l : list A) (x y z : A).

Lemma insertBy_StronglySorted (cmp : A → A → Z) (R : A → A → Prop) (P : A → Prop) x l :
  (∀ x y z, P x → P y → P z → R x y → R y z → R x z) →
  (∀ x y, P x → P y → cmp x y ≤ 0 → R x y) →
  (∀ x y, P x → P y → 0 < cmp x y → R y x) →
  P x → Forall P l →
  StronglySorted R l → StronglySorted R (Js.insertBy cmp x l).
Proof.
  intros Htrans Hle Hgt Hx Hl Hsorted.
  induction Hsorted as [|y l Hsorted IH Hall]; simpl; [by repeat constructor|].
  apply Forall_cons in Hl as [Hy Hl].
  destruct (cmp x y <=? 0) eqn:Hcmp.
  - apply Z.leb_le in Hcmp. constructor; [by constructor|].
    constructor; [by apply Hle|].
    rewrite Forall_forall in Hall, Hl. apply Forall_forall. intros z Hz.
    apply (Htrans x y z); auto.
  - apply Z.leb_gt in Hcmp. constructor; [by apply IH|].
    rewrite insertBy_Permutation. constructor; [by apply Hgt; auto; lia|done].
Qed.

Lemma sortBy_StronglySorted (cmp : A → A → Z) (R : A → A → Prop) (P : A → Prop) l :
  (∀ x y z, P x → P y → P z → R x y → R y z → R x z) →
  (∀ x y, P x → P y → cmp x y ≤ 0 → R x y) →
  (∀ x y, P x → P y → 0 < cmp x y → R y x) →
  Forall P l →
  StronglySorted R (Js.sortBy cmp l).
Proof.
  intros Htrans Hle Hgt Hl. induction Hl as [|x l Hx Hl IH]; simpl; [constructor|].
  apply (insertBy_StronglySorted cmp R P); try done.
  by rewrite sortBy_Permutation.
Qed.

End SortFacts.

(** X16.  When the review dates of the candidates all parse, the [sort] call
    of [selectWords] leaves them in priority order: every word comes before
    all words with a lower [quizIncorrectCount], among equal counts before
    the words reviewed later, and among equal times a built-in word never
    precedes a custom one.  (The shuffle that follows discards this order.) *)
Theorem sort_priority_order (getTime : string → option Z)
    (wordStats : gmap string WordStat.t) (candidates : list Word.t) :
  Forall (λ w, is_Some (reviewTime getTime (getWordStat wordStats (Word.id w)))) candidates →
  StronglySorted (priorityBefore getTime wordStats)
    (Js.sortBy (compareWords getTime wordStats) candidates)
  ∧ Js.sortBy (compareWords getTime wordStats) candidates ≡ₚ candidates.
Proof.
  intros Hvalid. split; [|apply sortBy_Permutation].
  apply (sortBy_StronglySorted _ _
           (λ w, is_Some (reviewTime getTime (getWordStat wordStats (Word.id w)))));
    [| | |done].
  - intros x y z [tx Hx] [ty Hy] [tz Hz]. unfold priorityBefore. cbn zeta.
    rewrite Hx, Hy, Hz.
    intros [Hxy|[Hxy (a & b & Ha & Hb & Hab)]] [Hyz|[Hyz (b' & c & Hb' & Hc & Hbc)]];
      [left; lia|left; lia|left; lia|].
    injection Ha as <-. injection Hb as <-. injection Hb' as <-. injection Hc as <-.
    right. split; [lia|]. exists tx, tz. split_and!; [done|done|].
    destruct Hab as [Hab|[Hab Hcab]], Hbc as [Hbc|[Hbc Hcbc]];
      [left; lia|left; lia|left; lia|right; split; [lia|auto]].
  - intros x y [tx Hx] [ty Hy]. unfold compareWords, priorityBefore. cbn zeta.
    rewrite Hx, Hy.
    destruct (WordStat.quizIncorrectCount _ =? WordStat.quizIncorrectCount _) eqn:Hq;
      simpl.
    + apply Z.eqb_eq in Hq. intros Hcmp. right. split; [done|].
      exists tx, ty. split_and!; [done|done|].
      destruct (tx =? ty) eqn:Ht; simpl in Hcmp.
      * apply Z.eqb_eq in Ht. right. split; [done|].
        destruct (Js.truthyBool (Word.isCustom x)), (Js.truthyBool (Word.isCustom y));
          simpl in *; try done; lia.
      * apply Z.eqb_neq in Ht. left. lia.
    + apply Z.eqb_neq in Hq. intros Hcmp. left. lia.
  - intros x y [tx Hx] [ty Hy]. unfold compareWords, priorityBefore. cbn zeta.
    rewrite Hx, Hy.
    destruct (WordStat.quizIncorrectCount _ =? WordStat.quizIncorrectCount _) eqn:Hq;
      simpl.
    + apply Z.eqb_eq in Hq. intros Hcmp. right. split; [done|].
      exists ty, tx. split_and!; [done|done|].
      destruct (tx =? ty) eqn:Ht; simpl in Hcmp.
      * apply Z.eqb_eq in Ht. right. split; [done|].
        destruct (Js.truthyBool (Word.isCustom x)), (Js.truthyBool (Word.isCustom y));
          simpl in *; try done; lia.
      * apply Z.eqb_neq in Ht. left. lia.
    + apply Z.eqb_neq in Hq. intros Hcmp. left. lia.
Qed.

Lemma sort_priority_order_witness :
  StronglySorted (priorityBefore (λ _, Some 0) Sample.reviewedYesterday)
    (Js.sortBy (compareWords (λ _, Some 0) Sample.reviewedYesterday)
       [Sample.river; Sample.myApple; Sample.apple])
  ∧ Js.sortBy (compareWords (λ _, Some 0) Sample.reviewedYesterday)
      [Sample.river; Sample.myApple; Sample.apple]
    ≡ₚ [Sample.river; Sample.myApple; Sample.apple].
Proof.
  apply (sort_priority_order (λ _, Some 0) Sample.reviewedYesterday
           [Sample.river; Sample.myApple; Sample.apple]).
  repeat constructor; vm_compute; by eexists.
Defined.

(** ** Saving a custom word: further facts *)

Section SaveFacts.
Variable toLowerCase : string → string.
Variable trim : string → string.
Implicit Types (st : App) (now : Clock) (wordData : WordData.t).

Lemma onSaveCustomWord_valid now wordData gradeLevelForNew unitNumber st :
  blank trim (WordData.term wordData) = false →
  blank trim (WordData.meaning wordData) = false →
  blank trim (WordData.partOfSpeech wordData) = false →
  blank trim (WordData.exampleSentence wordData) = false →
  onSaveCustomWord toLowerCase trim now wordData gradeLevelForNew unitNumber st
  = let gradeLevelForNew :=
      from_option Some (UserSettings.grade <$> userSettings st) gradeLevelForNew in
    let termToSave := trim (default "" (WordData.term wordData)) in
    if truthyId (WordData.id wordData) then
      match list_find (λ w, Some (Word.id w) = WordData.id wordData
                            ∧ Js.truthyBool (Word.isCustom w) = true) (allWords st) with
      | Some (wordIndex, old) =>
          (true, setAllWords
                   (λ _, <[wordIndex := mergeWord old wordData termToSave unitNumber]>
                           (allWords st)) st)
      | None => (false, st)
      end
    else
      match list_find (λ w, toLowerCase (Word.term w) = toLowerCase termToSave)
                      (allWords st) with
      | Some _ => (false, st)
      | None =>
          let newWord :=
            createWord now st wordData termToSave gradeLevelForNew unitNumber in
          let st' := setAllWords (λ prevWords, prevWords ++ [newWord]) st in
          let st' :=
            match wordStats st !! propertyKey (Word.id newWord) with
            | Some _ => st'
            | None =>
                updateWordStat (Word.id newWord)
                  {| StatPatch.isMastered := Some false;
                     StatPatch.lastReviewed := Some None;
                     StatPatch.quizIncorrectCount := Some 0 |} st'
            end in
          (true, setUserSettings (addXp 2) st')
      end.
Proof. intros Ht Hm Hp He. unfold onSaveCustomWord. by rewrite Ht, Hm, Hp, He. Qed.

End SaveFacts.

(** X17.  A save that is rejected changes nothing: whenever
    [onSaveCustomWord] returns [false] (a required field blank after
    trimming, an edit of an id that no custom word has, a duplicate term on
    creation), the state it leaves is the state it found. *)
Theorem onSaveCustomWord_rejected_unchanged (toLowerCase trim : string → string)
    (now : Clock) (wordData : WordData.t) (gradeLevelForNew : option string)
    (unitNumber : option Z) (st : App) :
  (onSaveCustomWord toLowerCase trim now wordData gradeLevelForNew unitNumber st).1 = false →
  (onSaveCustomWord toLowerCase trim now wordData gradeLevelForNew unitNumber st).2 = st.
Proof.
  unfold onSaveCustomWord.
  destruct (blank trim _ || _ || _ || _); [done|].
  destruct (truthyId _).
  - by destruct (list_find _ _) as [[i old]|].
  - by destruct (list_find _ _) as [found|].
Qed.

Lemma onSaveCustomWord_rejected_unchanged_witness :
  (onSaveCustomWord Ascii7.toLowerCase Ascii7.trim Sample.clock Sample.editApple
     None None (Sample.app [Sample.apple])).2
  = Sample.app [Sample.apple].
Proof.
  apply (onSaveCustomWord_rejected_unchanged Ascii7.toLowerCase Ascii7.trim Sample.clock
           Sample.editApple None None (Sample.app [Sample.apple])).
  vm_compute. reflexivity.
Defined.



(** X19.  Editing (the form data carries a truthy id and passes validation)
    succeeds exactly when the catalog has a custom word with that id.  It
    never changes the length of the catalog or the id at any position, leaves
    every built-in word and every word with another id as it is, and touches
    neither the stats nor the settings (no XP), counters or streak. *)
Theorem onSaveCustomWord_edit (toLowerCase trim : string → string)
    (now : Clock) (wordData : WordData.t) (gradeLevelForNew : option string)
    (unitNumber : option Z) (st : App) :
  blank trim (WordData.term wordData) = false →
  blank trim (WordData.meaning wordData) = false →
  blank trim (WordData.partOfSpeech wordData) = false →
  blank trim (WordData.exampleSentence wordData) = false →
  truthyId (WordData.id wordData) = true →
  let r := onSaveCustomWord toLowerCase trim now wordData gradeLevelForNew unitNumber st in
  (r.1 = true ↔
   ∃ w, w ∈ allWords st ∧ Some (Word.id w) = WordData.id wordData
        ∧ Js.truthyBool (Word.isCustom w) = true)
  ∧ length (allWords r.2) = length (allWords st)
  ∧ Word.id <$> allWords r.2 = Word.id <$> allWords st
  ∧ (∀ j w, allWords st !! j = Some w →
            Some (Word.id w) ≠ WordData.id wordData
            ∨ Js.truthyBool (Word.isCustom w) = false →
            allWords r.2 !! j = Some w)
  ∧ wordStats r.2 = wordStats st
  ∧ userSettings r.2 = userSettings st
  ∧ learnedWordsTodayCount r.2 = learnedWordsTodayCount st
  ∧ totalWordsLearnedOverall r.2 = totalWordsLearnedOverall st
  ∧ learningStreak r.2 = learningStreak st.
Proof.
  intros Ht Hm Hp He Hid r. unfold r.
  rewrite onSaveCustomWord_valid by done. cbn zeta. rewrite Hid.
  destruct (list_find _ _) as [[i old]|] eqn:Hfind.
  - apply list_find_Some in Hfind as (Hi & [Hold Hcustom] & _).
    cbn [fst snd allWords setAllWords wordStats userSettings learnedWordsTodayCount
           totalWordsLearnedOverall learningStreak].
    split_and!; try done.
    + split; [|done]. intros _. exists old. split_and!; [|done|done].
      by eapply list_elem_of_lookup_2.
    + by rewrite length_insert.
    + rewrite list_fmap_insert. apply list_insert_id.
      rewrite list_lookup_fmap, Hi. simpl. f_equal.
      unfold mergeWord. simpl. by rewrite <- Hold.
    + intros j w Hj Hw. rewrite list_lookup_insert_ne; [done|].
      intros <-. rewrite Hi in Hj. injection Hj as <-.
      destruct Hw as [Hw|Hw]; [done|congruence].
  - rewrite list_find_None, Forall_forall in Hfind. cbn [fst snd].
    split_and!; try done.
    split; [done|]. intros (w & Hw & Hwid & Hwc). exfalso. by apply (Hfind w Hw).
Qed.

Lemma onSaveCustomWord_edit_witness :
  let st := Sample.app [Sample.apple; Sample.myApple] in
  let r := onSaveCustomWord Ascii7.toLowerCase Ascii7.trim Sample.clock Sample.editApple
             (Some "middle1") None st in
  (r.1 = true ↔
   ∃ w, w ∈ allWords st ∧ Some (Word.id w) = WordData.id Sample.editApple
        ∧ Js.truthyBool (Word.isCustom w) = true)
  ∧ length (allWords r.2) = length (allWords st)
  ∧ Word.id <$> allWords r.2 = Word.id <$> allWords st
  ∧ (∀ j w, allWords st !! j = Some w →
            Some (Word.id w) ≠ WordData.id Sample.editApple
            ∨ Js.truthyBool (Word.isCustom w) = false →
            allWords r.2 !! j = Some w)
  ∧ wordStats r.2 = wordStats st
  ∧ userSettings r.2 = userSettings st
  ∧ learnedWordsTodayCount r.2 = learnedWordsTodayCount st
  ∧ totalWordsLearnedOverall r.2 = totalWordsLearnedOverall st
  ∧ learningStreak r.2 = learningStreak st.
Proof.
  apply (onSaveCustomWord_edit Ascii7.toLowerCase Ascii7.trim Sample.clock
           Sample.editApple (Some "middle1") None
           (Sample.app [Sample.apple; Sample.myApple])); reflexivity.
Defined.

(** ** The quiz *)

Section QuizScreenFacts.
Variable words : list Word.t.
Variable grade : string.
Implicit Types (q : Quiz) (p : Progress) (rs : Rand).

Lemma setupQuestion_fields word q rs :
  let q' := (setupQuestion words grade word q rs).1 in
  quizWords q' = quizWords q
  ∧ currentQuestionIndex q' = currentQuestionIndex q
  ∧ selectedAnswer q' = None
  ∧ score q' = score q
  ∧ showResult q' = false
  ∧ options q' = (generateMultipleChoiceOptions words grade word rs).1
  ∧ isFinished q' = isFinished q
  ∧ incorrectlyAnsweredWordsDetails q' = incorrectlyAnsweredWordsDetails q.
Proof. unfold setupQuestion. rewrite bind_unfold. by unfold ret. Qed.

(** The quiz words drawn by [initializeQuiz] when the grade has a word. *)
Lemma initializeQuiz_nonempty q rs :
  gradeWords words grade ≠ [] →
  ∃ word rs',
    head (Js.slice0 (Shuffle.shuffleArray (gradeWords words grade) rs).1
            (Z.min 10 (Z.of_nat (length (gradeWords words grade))))) = Some word
    ∧ initializeQuiz words grade q rs
      = setupQuestion words grade word
          (mkQuiz (Js.slice0 (Shuffle.shuffleArray (gradeWords words grade) rs).1
                     (Z.min 10 (Z.of_nat (length (gradeWords words grade)))))
             0 (selectedAnswer q) 0 (showResult q) (options q) false []) rs'.
Proof.
  intros Hne. unfold initializeQuiz. fold (gradeWords words grade).
  assert (Hlen : (0 < length (gradeWords words grade))%nat).
  { destruct (gradeWords words grade); [done|simpl; lia]. }
  rewrite bool_decide_eq_false_2 by lia. rewrite bind_unfold.
  set (selected := Js.slice0 _ _).
  assert (Hsel : (0 < length selected)%nat).
  { unfold selected.
    replace (Z.min 10 (Z.of_nat (length (gradeWords words grade))))
      with (Z.of_nat (10 `min` length (gradeWords words grade))) by lia.
    rewrite slice0_length_nat, ShuffleFacts.shuffleArray_length. lia. }
  destruct selected as [|word rest] eqn:Hs; [simpl in Hsel; lia|].
  exists word, (Shuffle.shuffleArray (gradeWords words grade) rs).2. by split.
Qed.

Lemma slice0_min_length (l : list Word.t) :
  length (Js.slice0 l (Z.min 10 (Z.of_nat (length l)))) = (10 `min` length l)%nat.
Proof.
  replace (Z.min 10 (Z.of_nat (length l))) with (Z.of_nat (10 `min` length l)) by lia.
  rewrite slice0_length_nat. lia.
Qed.

End QuizScreenFacts.

(** X20.  [initializeQuiz] draws [min(10, n)] quiz words from the [n] words of
    the grade, none more often than the catalog holds it, and starts at
    question 0 with score 0.  With no word in the grade the quiz is finished
    at once with no question; otherwise it is under way, nothing is answered,
    and the options shown belong to the first quiz word, whose meaning is
    among them exactly once. *)
Theorem initializeQuiz_selection (words : list Word.t) (grade : string) (q : Quiz)
    (rs : Rand) :
  let q' := (initializeQuiz words grade q rs).1 in
  length (quizWords q') = (10 `min` length (gradeWords words grade))%nat
  ∧ quizWords q' ⊆+ gradeWords words grade
  ∧ currentQuestionIndex q' = 0%nat
  ∧ score q' = 0
  ∧ isFinished q' = bool_decide (gradeWords words grade = [])
  ∧ (gradeWords words grade ≠ [] →
     showResult q' = false
     ∧ selectedAnswer q' = None
     ∧ incorrectlyAnsweredWordsDetails q' = []
     ∧ ∃ word, head (quizWords q') = Some word
               ∧ length (filter (λ o, o = Word.meaning word) (options q')) = 1%nat).
Proof.
  intros q'. unfold q'.
  destruct (decide (gradeWords words grade = [])) as [Hempty|Hne].
  - unfold initializeQuiz. fold (gradeWords words grade). rewrite Hempty. simpl.
    by split_and!.
  - destruct (initializeQuiz_nonempty words grade q rs Hne) as (word & rs' & Hhead & ->).
    destruct (setupQuestion_fields words grade word
                (mkQuiz (Js.slice0 (Shuffle.shuffleArray (gradeWords words grade) rs).1
                           (Z.min 10 (Z.of_nat (length (gradeWords words grade)))))
                   0 (selectedAnswer q) 0 (showResult q) (options q) false []) rs')
      as (Hw & Hi & Ha & Hs & Hr & Ho & Hf & Hinc).
    rewrite Hw, Hi, Ha, Hs, Hr, Ho, Hf, Hinc.
    cbn [quizWords currentQuestionIndex score isFinished incorrectlyAnsweredWordsDetails].
    rewrite bool_decide_eq_false_2 by done.
    split_and!; try done.
    + rewrite <- (ShuffleFacts.shuffleArray_length (gradeWords words grade) rs).
      apply slice0_min_length.
    + etrans; [apply sublist_submseteq, slice0_sublist|].
      by rewrite ShuffleFacts.shuffleArray_Permutation.
    + intros _. split_and!; try done. exists word. split; [done|].
      destruct (generateMultipleChoiceOptions_spec words grade word rs')
        as (u & Hp & Hnd & _).
      by apply (occurs_once _ u).
Qed.

Section QuizTraceFacts.
Variable words : list Word.t.
Variable grade : string.
Implicit Types (q : Quiz) (p : Progress) (rs : Rand) (e : QuizEvent).

Lemma mountQuiz_consistent rs : quizConsistent (mountQuiz words grade rs).1.
Proof.
  unfold mountQuiz.
  destruct (decide (gradeWords words grade = [])) as [Hempty|Hne].
  - unfold initializeQuiz. fold (gradeWords words grade). rewrite Hempty.
    unfold quizConsistent. simpl. lia.
  - destruct (initializeQuiz_nonempty words grade initialQuiz rs Hne)
      as (word & rs' & Hhead & ->).
    destruct (setupQuestion_fields words grade word
                (mkQuiz (Js.slice0 (Shuffle.shuffleArray (gradeWords words grade) rs).1
                           (Z.min 10 (Z.of_nat (length (gradeWords words grade)))))
                   0 None 0 false [] false []) rs')
      as (Hw & Hi & Ha & Hs & Hr & Ho & Hf & Hinc).
    unfold quizConsistent. cbn [initialQuiz selectedAnswer showResult options].
    rewrite Hw, Hi, Hs, Hr, Hf, Hinc.
    cbn [quizWords currentQuestionIndex score isFinished incorrectlyAnsweredWordsDetails].
    apply head_Some in Hhead as [rest Hrest].
    assert (Hlen : length (Js.slice0 (Shuffle.shuffleArray (gradeWords words grade) rs).1
                      (Z.min 10 (Z.of_nat (length (gradeWords words grade)))))
                   = (10 `min` length (gradeWords words grade))%nat).
    { rewrite <- (ShuffleFacts.shuffleArray_length (gradeWords words grade) rs).
      apply slice0_min_length. }
    rewrite Hlen. rewrite Hrest in Hlen. cbn [length] in Hlen. cbn [length]. lia.
Qed.

Lemma initializeQuiz_consistent q rs :
  gradeWords words grade ≠ [] → quizConsistent (initializeQuiz words grade q rs).1.
Proof.
  intros Hne.
  destruct (initializeQuiz_nonempty words grade q rs Hne) as (word & rs' & Hhead & ->).
  destruct (setupQuestion_fields words grade word
              (mkQuiz (Js.slice0 (Shuffle.shuffleArray (gradeWords words grade) rs).1
                         (Z.min 10 (Z.of_nat (length (gradeWords words grade)))))
                 0 (selectedAnswer q) 0 (showResult q) (options q) false []) rs')
    as (Hw & Hi & Ha & Hs & Hr & Ho & Hf & Hinc).
  unfold quizConsistent. rewrite Hw, Hi, Hs, Hr, Hf, Hinc.
  cbn [quizWords currentQuestionIndex score isFinished incorrectlyAnsweredWordsDetails].
  apply head_Some in Hhead as [rest Hrest].
  assert (Hlen : length (Js.slice0 (Shuffle.shuffleArray (gradeWords words grade) rs).1
                    (Z.min 10 (Z.of_nat (length (gradeWords words grade)))))
                 = (10 `min` length (gradeWords words grade))%nat).
  { rewrite <- (ShuffleFacts.shuffleArray_length (gradeWords words grade) rs).
    apply slice0_min_length. }
  rewrite Hlen. rewrite Hrest in Hlen. cbn [length] in Hlen. cbn [length]. lia.
Qed.

(** One step of the screen keeps the quiz consistent, only appends results
    that are in range, and leaves the catalog, counters and streak alone. *)
Lemma quizStep_consistent e q p rs :
  quizConsistent q →
  let s' := (quizStep words grade e (q, p) rs).1 in
  quizConsistent s'.1
  ∧ (∃ added, quizHistory s'.2 = quizHistory p ++ added ∧ Forall resultInRange added)
  ∧ sameLearningData (appState p) (appState s'.2).
Proof.
  intros Hc s'. unfold s', quizStep.
  assert (Hsame : ∀ q0, quizConsistent q0 →
            quizConsistent q0
            ∧ (∃ added, quizHistory p = quizHistory p ++ added ∧ Forall resultInRange added)
            ∧ sameLearningData (appState p) (appState p)).
  { intros q0 Hq0. split; [done|]. split; [|done]. exists []. by rewrite app_nil_r. }
  destruct (bool_decide (length (quizWords q) = 0%nat) && negb (isFinished q));
    [by apply Hsame|].
  destruct (isFinished q) eqn:Hfin.
  { destruct e as [option|now|]; try by apply Hsame.
    case_bool_decide as Hgrade; [by apply Hsame|].
    rewrite bind_unfold. cbn [ret fst snd]. split; [|by apply (Hsame q)].
    apply initializeQuiz_consistent. fold (gradeWords words grade) in Hgrade.
    intros Hempty. rewrite Hempty in Hgrade. simpl in Hgrade. lia. }
  destruct (quizWords q !! currentQuestionIndex q) as [currentWord|] eqn:Hcur;
    [|by apply Hsame].
  pose proof Hc as (Hscore & Hten & Hrun). rewrite Hfin in Hrun. destruct Hrun as [Hidx Hsum].
  destruct e as [option|now|]; [| |by apply Hsame].
  - destruct (showResult q) eqn:Hshow;
      [by apply Hsame|].
    unfold handleOptionClick. rewrite Hshow. cbn [ret fst snd].
    case_bool_decide as Hans; cbn [fst snd].
    + split; [|by apply (Hsame q)].
      unfold quizConsistent. cbn. rewrite Hfin. lia.
    + split_and!.
      * unfold quizConsistent. cbn. rewrite Hfin, length_app. simpl. lia.
      * exists []. by rewrite app_nil_r.
      * done.
  - destruct (showResult q) eqn:Hshow;
      [|by apply Hsame].
    unfold handleNextQuestion.
    assert (Hfinish : ∀ q1,
              quizWords q1 = quizWords q → score q1 = score q →
              incorrectlyAnsweredWordsDetails q1 = incorrectlyAnsweredWordsDetails q →
              Z.of_nat (length (quizWords q)) ≤ Z.of_nat (currentQuestionIndex q) + 1 →
              quizConsistent (finishQuiz now q1 p).1
              ∧ (∃ added, quizHistory (finishQuiz now q1 p).2 = quizHistory p ++ added
                          ∧ Forall resultInRange added)
              ∧ sameLearningData (appState p) (appState (finishQuiz now q1 p).2)).
    { intros q1 Hw1 Hs1 Hi1 Hlast. unfold finishQuiz, onQuizComplete. cbn [fst snd].
      split_and!.
      - unfold quizConsistent. cbn. rewrite Hw1, Hs1, Hi1. lia.
      - eexists. cbn [quizHistory]. split; [reflexivity|].
        apply Forall_singleton. unfold resultInRange. cbn. rewrite Hw1, Hs1. lia.
      - done. }
    destruct (Z.of_nat (currentQuestionIndex q) <? Z.of_nat (length (quizWords q)) - 1)
      eqn:Hnext.
    + apply Z.ltb_lt in Hnext.
      destruct (quizWords q !! (currentQuestionIndex q + 1)%nat) as [word|] eqn:Hword.
      * rewrite bind_unfold. cbn [ret fst snd].
        split; [|by apply (Hsame q)].
        match goal with
        | |- quizConsistent (setupQuestion _ _ _ ?q1 _).1 =>
            destruct (setupQuestion_fields words grade word q1 rs)
              as (Hw & Hi & Ha & Hs & Hr & Ho & Hf & Hinc)
        end.
        unfold quizConsistent. rewrite Hw, Hi, Hs, Hr, Hf, Hinc. cbn. rewrite Hfin. lia.
      * apply lookup_ge_None in Hword. lia.
    + apply Z.ltb_ge in Hnext. cbn [ret fst]. by apply Hfinish; [..|lia].
Qed.

End QuizTraceFacts.

(** X21.  From the mount of the quiz screen on, whatever the user clicks and
    however often the quiz is retried, the screen stays consistent (the
    current question is in range and score plus wrong answers equals the
    questions answered), every result appended to [quizHistory] has
    [0 ≤ score ≤ total ≤ 10], and the catalog, the learning counters and the
    streak are never touched. *)
Theorem quiz_results_in_range (words : list Word.t) (grade : string)
    (events : list QuizEvent) (p : Progress) (rs0 rs : Rand) :
  let q0 := (mountQuiz words grade rs0).1 in
  let final := (quizRun words grade events (q0, p) rs).1 in
  quizConsistent final.1
  ∧ (∃ added, quizHistory final.2 = quizHistory p ++ added ∧ Forall resultInRange added)
  ∧ sameLearningData (appState p) (appState final.2).
Proof.
  intros q0 final. unfold final.
  assert (Hgen : ∀ events q p' rs,
            quizConsistent q →
            quizConsistent (quizRun words grade events (q, p') rs).1.1
            ∧ (∃ added, quizHistory (quizRun words grade events (q, p') rs).1.2
                        = quizHistory p' ++ added ∧ Forall resultInRange added)
            ∧ sameLearningData (appState p')
                (appState (quizRun words grade events (q, p') rs).1.2)).
  { clear. intros events. induction events as [|e events IH]; intros q p' rs Hc.
    - cbn. split; [done|]. split; [|done]. exists []. by rewrite app_nil_r.
    - cbn [quizRun]. rewrite bind_unfold.
      destruct (quizStep_consistent words grade e q p' rs Hc)
        as (Hc1 & (added1 & Hh1 & Ha1) & Hs1).
      destruct (quizStep words grade e (q, p') rs) as [[q1 p1] rs1]. cbn [fst snd] in *.
      destruct (IH q1 p1 rs1 Hc1) as (Hc2 & (added2 & Hh2 & Ha2) & Hs2).
      split; [done|]. split.
      + exists (added1 ++ added2). rewrite Hh2, Hh1, app_assoc. split; [done|].
        by apply Forall_app.
      + destruct Hs1 as (? & ? & ? & ?), Hs2 as (? & ? & ? & ?).
        unfold sameLearningData. split_and!; congruence. }
  apply Hgen, mountQuiz_consistent.
Qed.

Lemma hasIncorrectWordsToReview_true (wordStats : gmap string WordStat.t) :
  hasIncorrectWordsToReview wordStats = true ↔
  ∃ key stat, wordStats !! key = Some stat
              ∧ 0 < WordStat.quizIncorrectCount stat
              ∧ WordStat.isMastered stat = false.
Proof.
  unfold hasIncorrectWordsToReview. rewrite existsb_exists. split.
  - intros (stat & Hin & Hstat). apply list_elem_of_In in Hin.
    apply list_elem_of_fmap in Hin as ([key stat'] & -> & Hin).
    apply elem_of_map_to_list in Hin. exists key, stat'. split; [done|].
    apply andb_true_iff in Hstat as [Hq Hm]. apply Z.ltb_lt in Hq.
    apply negb_true_iff in Hm. by split.
  - intros (key & stat & Hlook & Hq & Hm). exists stat. split.
    + apply list_elem_of_In, list_elem_of_fmap. exists (key, stat). split; [done|].
      by apply elem_of_map_to_list.
    + apply andb_true_iff. split; [by apply Z.ltb_lt|by rewrite Hm].
Qed.

Lemma getWordStat_updateWordStat (wordId : WordId) (newStatData : StatPatch.t) (st : App) :
  getWordStat (wordStats (updateWordStat wordId newStatData st)) wordId
  = mergeStat wordId (getWordStat (wordStats st) wordId) newStatData.
Proof.
  unfold updateWordStat, setWordStats. cbn [wordStats].
  unfold getWordStat at 1. by rewrite lookup_insert_eq.
Qed.

(** X22.  Answering a question shows the result and records the answer, and
    further clicks on an option are ignored.  A right answer adds 1 to the
    score and changes nothing else.  A wrong answer keeps the score, appends
    the word to the wrong-answer list and raises that word's
    [quizIncorrectCount] by exactly 1, leaving its other stat fields and the
    stats under every other key alone; if the word is not mastered and its
    count was not negative, [hasIncorrectWordsToReview] then holds. *)
Theorem handleOptionClick_effect (currentWord : Word.t) (option again : string)
    (q : Quiz) (p : Progress) :
  showResult q = false →
  let r := handleOptionClick currentWord option q p in
  let before := getWordStat (wordStats (appState p)) (Word.id currentWord) in
  let after := getWordStat (wordStats (appState r.2)) (Word.id currentWord) in
  showResult r.1 = true
  ∧ selectedAnswer r.1 = Some option
  ∧ handleOptionClick currentWord again r.1 r.2 = r
  ∧ (option = Word.meaning currentWord →
     score r.1 = score q + 1
     ∧ incorrectlyAnsweredWordsDetails r.1 = incorrectlyAnsweredWordsDetails q
     ∧ r.2 = p)
  ∧ (option ≠ Word.meaning currentWord →
     score r.1 = score q
     ∧ incorrectlyAnsweredWordsDetails r.1
       = incorrectlyAnsweredWordsDetails q ++ [currentWord]
     ∧ WordStat.quizIncorrectCount after = WordStat.quizIncorrectCount before + 1
     ∧ WordStat.isMastered after = WordStat.isMastered before
     ∧ WordStat.lastReviewed after = WordStat.lastReviewed before
     ∧ delete (propertyKey (Word.id currentWord)) (wordStats (appState r.2))
       = delete (propertyKey (Word.id currentWord)) (wordStats (appState p))
     ∧ (WordStat.isMastered before = false →
        0 ≤ WordStat.quizIncorrectCount before →
        hasIncorrectWordsToReview (wordStats (appState r.2)) = true)).
Proof.
  intros Hshow r before after. unfold after, before, r, handleOptionClick. rewrite Hshow.
  case_bool_decide as Hans; cbn [fst snd showResult selectedAnswer score
                                  incorrectlyAnsweredWordsDetails].
  - split_and!; done.
  - split_and!; try done.
    intros _. cbn [appState]. rewrite getWordStat_updateWordStat.
    cbn [mergeStat StatPatch.isMastered StatPatch.lastReviewed StatPatch.quizIncorrectCount
           WordStat.isMastered WordStat.lastReviewed WordStat.quizIncorrectCount default
           from_option id].
    split_and!; try done.
    + unfold updateWordStat, setWordStats. cbn [wordStats]. by rewrite delete_insert_eq.
    + intros Hm Hq. apply hasIncorrectWordsToReview_true.
      eexists _, _. split; [apply lookup_insert_eq|]. cbn. split; [lia|done].
Qed.

Lemma handleOptionClick_effect_witness :
  let q := mkQuiz [Sample.apple] 0 None 0 false ["사과"; "강"] false [] in
  let p := mkProgress (Sample.app [Sample.apple]) [] false in
  let r := handleOptionClick Sample.apple "강" q p in
  let before := getWordStat (wordStats (appState p)) (Word.id Sample.apple) in
  let after := getWordStat (wordStats (appState r.2)) (Word.id Sample.apple) in
  showResult r.1 = true
  ∧ selectedAnswer r.1 = Some "강"
  ∧ handleOptionClick Sample.apple "사과" r.1 r.2 = r
  ∧ ("강" = Word.meaning Sample.apple →
     score r.1 = score q + 1
     ∧ incorrectlyAnsweredWordsDetails r.1 = incorrectlyAnsweredWordsDetails q
     ∧ r.2 = p)
  ∧ ("강" ≠ Word.meaning Sample.apple →
     score r.1 = score q
     ∧ incorrectlyAnsweredWordsDetails r.1
       = incorrectlyAnsweredWordsDetails q ++ [Sample.apple]
     ∧ WordStat.quizIncorrectCount after = WordStat.quizIncorrectCount before + 1
     ∧ WordStat.isMastered after = WordStat.isMastered before
     ∧ WordStat.lastReviewed after = WordStat.lastReviewed before
     ∧ delete (propertyKey (Word.id Sample.apple)) (wordStats (appState r.2))
       = delete (propertyKey (Word.id Sample.apple)) (wordStats (appState p))
     ∧ (WordStat.isMastered before = false →
        0 ≤ WordStat.quizIncorrectCount before →
        hasIncorrectWordsToReview (wordStats (appState r.2)) = true)).
Proof.
  apply (handleOptionClick_effect Sample.apple "강" "사과"
           (mkQuiz [Sample.apple] 0 None 0 false ["사과"; "강"] false [])
           (mkProgress (Sample.app [Sample.apple]) [] false)).
  reflexivity.
Defined.

(** X23.  Completing a quiz appends exactly one result (score, total, today's
    date) to [quizHistory], sets [quizTakenToday], and awards
    [round(1.5 * score)] XP, which for a score [s ≥ 0] lies between [s] and
    [2 s] and satisfies [3 s ≤ 2 XP ≤ 3 s + 1]; the catalog, stats, counters
    and streak are unchanged. *)
Theorem onQuizComplete_effect (now : Clock) (finalScore totalQuestions : Z)
    (incorrectWords : list Word.t) (p : Progress) :
  0 ≤ finalScore →
  let p' := onQuizComplete now finalScore totalQuestions incorrectWords p in
  quizHistory p'
  = quizHistory p ++ [{| QuizResult.score := finalScore;
                         QuizResult.total := totalQuestions;
                         QuizResult.date := getTodayDateString now |}]
  ∧ quizTakenToday p' = true
  ∧ UserSettings.xp <$> userSettings (appState p')
    = (λ s, UserSettings.xp s + quizXp finalScore) <$> userSettings (appState p)
  ∧ 3 * finalScore ≤ 2 * quizXp finalScore ≤ 3 * finalScore + 1
  ∧ finalScore ≤ quizXp finalScore ≤ 2 * finalScore
  ∧ wordStats (appState p') = wordStats (appState p)
  ∧ sameLearningData (appState p) (appState p').
Proof.
  intros Hs p'. unfold p', onQuizComplete. cbn [quizHistory quizTakenToday appState].
  assert (Hxp : 3 * finalScore ≤ 2 * quizXp finalScore ≤ 3 * finalScore + 1).
  { unfold quizXp. pose proof (Z.div_mod (3 * finalScore + 1) 2 ltac:(lia)).
    pose proof (Z.mod_pos_bound (3 * finalScore + 1) 2 ltac:(lia)). lia. }
  split_and!; try done; try lia. apply addXp_xp.
Qed.

Lemma onQuizComplete_effect_witness :
  let p := mkProgress (Sample.app [Sample.apple]) [] false in
  let p' := onQuizComplete Sample.clock 7 10 [] p in
  quizHistory p'
  = quizHistory p ++ [{| QuizResult.score := 7;
                         QuizResult.total := 10;
                         QuizResult.date := getTodayDateString Sample.clock |}]
  ∧ quizTakenToday p' = true
  ∧ UserSettings.xp <$> userSettings (appState p')
    = (λ s, UserSettings.xp s + quizXp 7) <$> userSettings (appState p)
  ∧ 3 * 7 ≤ 2 * quizXp 7 ≤ 3 * 7 + 1
  ∧ 7 ≤ quizXp 7 ≤ 2 * 7
  ∧ wordStats (appState p') = wordStats (appState p)
  ∧ sameLearningData (appState p) (appState p').
Proof.
  apply (onQuizComplete_effect Sample.clock 7 10 []
           (mkProgress (Sample.app [Sample.apple]) [] false)).
  lia.
Defined.

(** ** The learning screen *)

Section LearnScreenFacts.
Variable parseInt : string → option Z.
Variable getTime : string → option Z.
Implicit Types (st : App) (s : Session) (storage : SessionStorage) (now : Clock).

Lemma handleNextWord_quick now s storage st :
  isQuickReviewActive s = true →
  let r := handleNextWord now s storage st in
  r.1.2 = storage
  ∧ isQuickReviewActive r.1.1 = true
  ∧ learnedWordsTodayCount r.2 = learnedWordsTodayCount st
  ∧ totalWordsLearnedOverall r.2 = totalWordsLearnedOverall st
  ∧ learningStreak r.2 = learningStreak st
  ∧ allWords r.2 = allWords st.
Proof.
  intros Hquick r. unfold r, handleNextWord. rewrite Hquick.
  destruct (currentWordsSet s !! currentIndex s) as [currentWord|]; [|done].
  assert (Hfr : ∀ wordId,
            learnedWordsTodayCount (onWordLearned now wordId true st)
            = learnedWordsTodayCount st
            ∧ totalWordsLearnedOverall (onWordLearned now wordId true st)
              = totalWordsLearnedOverall st
            ∧ learningStreak (onWordLearned now wordId true st) = learningStreak st
            ∧ allWords (onWordLearned now wordId true st) = allWords st).
  { intros wordId. unfold onWordLearned. by rewrite andb_false_r. }
  destruct (Hfr (Word.id currentWord)) as (? & ? & ? & ?).
  case_bool_decide; cbn [fst snd isQuickReviewActive]; by split_and!.
Qed.

Lemma nextClicks_quick clocks s st :
  isQuickReviewActive s = true →
  let r := nextClicks clocks s (mkStorage None None) st in
  r.1.2 = mkStorage None None
  ∧ isQuickReviewActive r.1.1 = true
  ∧ learnedWordsTodayCount r.2 = learnedWordsTodayCount st
  ∧ totalWordsLearnedOverall r.2 = totalWordsLearnedOverall st
  ∧ learningStreak r.2 = learningStreak st
  ∧ allWords r.2 = allWords st.
Proof.
  revert s st. induction clocks as [|c clocks' IH]; intros s st Hactive.
  - cbn [nextClicks fst snd]. by split_and!.
  - cbn [nextClicks].
    destruct (handleNextWord_quick c s (mkStorage None None) st Hactive)
      as (Hst & Hq & Hl & Ht & Hk & Hw).
    destruct (handleNextWord c s (mkStorage None None) st) as [[s1 storage1] st1].
    cbn [fst snd] in *. subst storage1.
    destruct (IH s1 st1 Hq) as (? & ? & ? & ? & ? & ?).
    split_and!; congruence.
Qed.

Lemma elem_of_eligibleWords_daily_bool (words : list Word.t)
    (wordStats : gmap string WordStat.t) (grade : string) now w :
  w ∈ eligibleWords words wordStats grade now false →
  notReviewedOn (getTodayDateString now)
    (WordStat.lastReviewed (getWordStat wordStats (Word.id w))) = true.
Proof.
  unfold eligibleWords. rewrite list_elem_of_filter. intros [Hr _].
  by apply Is_true_eq_true.
Qed.

End LearnScreenFacts.

(** The session and the storage the mount effect of the screen leaves. *)
Lemma startDailySession_spec (parseInt getTime : string → option Z) (st : App)
    (grade : string) (dailyGoal : Z) (now : Clock) (storage : SessionStorage) (rs : Rand) :
  let r := (startDailySession parseInt getTime st grade dailyGoal now storage rs).1 in
  currentWordsSet r.1 = (selectFor getTime st grade now dailyGoal false rs).1
  ∧ ((currentIndex r.1 < length (currentWordsSet r.1))%nat
     ∨ (currentWordsSet r.1 = [] ∧ currentIndex r.1 = 0%nat))
  ∧ isDailyGoalFinished r.1 = bool_decide (currentWordsSet r.1 = [])
  ∧ isQuickReviewActive r.1 = false
  ∧ isQuickReviewFinished r.1 = false
  ∧ (r.2 = mkStorage None None
     ∨ (storedSignature r.2 = Some (wordSetSignature (currentWordsSet r.1))
        ∧ is_Some (storedIndexStr r.2)
        ∧ currentWordsSet r.1 ≠ [])).
Proof.
  intros r. unfold r, startDailySession. rewrite bind_unfold.
  set (daily := (selectFor getTime st grade now dailyGoal false rs).1).
  assert (Haux : ∀ (i : nat) (sto : SessionStorage),
            (i < length daily)%nat ∨ (daily = [] ∧ i = 0%nat) →
            sto = mkStorage None None
            ∨ (storedSignature sto = Some (wordSetSignature daily)
               ∧ is_Some (storedIndexStr sto) ∧ daily ≠ []) →
            let r := (mkSession i daily
                        (bool_decide (length daily = 0%nat)
                         || bool_decide (length daily ≤ i)%nat) false false, sto) in
            currentWordsSet r.1 = daily
            ∧ ((currentIndex r.1 < length (currentWordsSet r.1))%nat
               ∨ (currentWordsSet r.1 = [] ∧ currentIndex r.1 = 0%nat))
            ∧ isDailyGoalFinished r.1 = bool_decide (currentWordsSet r.1 = [])
            ∧ isQuickReviewActive r.1 = false
            ∧ isQuickReviewFinished r.1 = false
            ∧ (r.2 = mkStorage None None
               ∨ (storedSignature r.2 = Some (wordSetSignature (currentWordsSet r.1))
                  ∧ is_Some (storedIndexStr r.2)
                  ∧ currentWordsSet r.1 ≠ []))).
  { intros i sto Hi Hsto. cbn. split; [done|]. split; [done|]. split; [|done].
    destruct Hi as [Hi|[Hnil ->]].
    - rewrite !bool_decide_eq_false_2; [done| |lia|lia].
      intros Hnil. rewrite Hnil in Hi. simpl in Hi. lia.
    - by rewrite Hnil. }
  assert (Hzero : (0 < length daily)%nat ∨ (daily = [] ∧ 0%nat = 0%nat)).
  { destruct daily; [by right|left; simpl; lia]. }
  assert (Hfresh :
            let '(initialIndex, storage') :=
              if Js.truthyStr (Some (wordSetSignature daily))
                 && bool_decide (0 < length daily)%nat
              then (0%nat, mkStorage (Some "0") (Some (wordSetSignature daily)))
              else (0%nat, clearLearningSessionState storage) in
            ((initialIndex < length daily)%nat ∨ (daily = [] ∧ initialIndex = 0%nat))
            ∧ (storage' = mkStorage None None
               ∨ (storedSignature storage' = Some (wordSetSignature daily)
                  ∧ is_Some (storedIndexStr storage') ∧ daily ≠ []))).
  { destruct (Js.truthyStr _ && bool_decide _) eqn:Hset; (split; [done|]); [|by left].
    right. apply andb_true_iff in Hset as [_ Hpos]. apply bool_decide_eq_true in Hpos.
    cbn. split_and!; [done|done|]. intros Hnil. rewrite Hnil in Hpos. simpl in Hpos. lia. }
  destruct (storedIndexStr storage) as [indexStr|] eqn:Hidx.
  - destruct (decide (storedSignature storage = Some (wordSetSignature daily))) as [Hsig|Hsig].
    + rewrite (bool_decide_eq_true_2 _ Hsig).
      destruct (parseInt indexStr) as [storedIndex|];
        [|apply (Haux 0%nat (clearLearningSessionState storage) Hzero); by left].
      destruct ((0 <=? storedIndex) && (storedIndex <? Z.of_nat (length daily))) eqn:Hrange;
        [|apply (Haux 0%nat (clearLearningSessionState storage) Hzero); by left].
      apply andb_true_iff in Hrange as [H0 Hlt].
      apply Z.leb_le in H0. apply Z.ltb_lt in Hlt.
      assert (Hin : (Z.to_nat storedIndex < length daily)%nat) by lia.
      apply (Haux (Z.to_nat storedIndex) storage); [by left|].
      right. split_and!; [done|by rewrite Hidx|].
      intros Hnil. rewrite Hnil in Hin. simpl in Hin. lia.
    + rewrite (bool_decide_eq_false_2 _ Hsig).
      destruct (if Js.truthyStr _ && bool_decide _ then _ else _) as [i0 sto0].
      destruct Hfresh as [Hi0 Hsto0]. exact (Haux i0 sto0 Hi0 Hsto0).
  - destruct (if Js.truthyStr _ && bool_decide _ then _ else _) as [i0 sto0].
    destruct Hfresh as [Hi0 Hsto0]. exact (Haux i0 sto0 Hi0 Hsto0).
Qed.

(** X24.  Entering the learning screen starts the daily session on its
    DailyNew selection with the cursor on a word of the set (or an empty,
    finished session): the index is in range, the session is finished exactly
    when the set is empty, no quick review is active, and what is left in the
    session storage is either nothing or the signature of this very set
    together with an index. *)
Theorem startDailySession_in_range (parseInt getTime : string → option Z) (st : App)
    (grade : string) (dailyGoal : Z) (now : Clock) (storage : SessionStorage) (rs : Rand) :
  let r := (startDailySession parseInt getTime st grade dailyGoal now storage rs).1 in
  currentWordsSet r.1 = (selectFor getTime st grade now dailyGoal false rs).1
  ∧ ((currentIndex r.1 < length (currentWordsSet r.1))%nat
     ∨ (currentWordsSet r.1 = [] ∧ currentIndex r.1 = 0%nat))
  ∧ isDailyGoalFinished r.1 = bool_decide (currentWordsSet r.1 = [])
  ∧ isQuickReviewActive r.1 = false
  ∧ isQuickReviewFinished r.1 = false
  ∧ (r.2 = mkStorage None None
     ∨ (storedSignature r.2 = Some (wordSetSignature (currentWordsSet r.1))
        ∧ is_Some (storedIndexStr r.2)
        ∧ currentWordsSet r.1 ≠ [])).
Proof. apply startDailySession_spec. Qed.

(** X25.  A quick review is never persisted: [startQuickReview] empties the
    session storage, and while a quick review is active no [handleNextWord]
    click and no exit writes to it; these clicks also leave
    [learnedWordsTodayCount], [totalWordsLearnedOverall], the streak and the
    catalog unchanged.  [startQuickReview] activates the quick review exactly
    when there is a review candidate (or one was active already). *)
Theorem quickReview_not_persisted (parseInt getTime : string → option Z) (st st' : App)
    (grade : string) (now : Clock) (s0 : Session) (storage0 : SessionStorage) (rs : Rand)
    (clocks : list Clock) :
  let started := (startQuickReview getTime st grade now s0 storage0 rs).1 in
  let r := nextClicks clocks started.1 started.2 st' in
  started.2 = mkStorage None None
  ∧ isQuickReviewActive started.1
    = bool_decide (0 < potentialReviewWords (allWords st) (wordStats st) grade now)%nat
      || isQuickReviewActive s0
  ∧ (isQuickReviewActive started.1 = true →
     r.1.2 = mkStorage None None
     ∧ handleExitLearning r.1.1 r.1.2 = mkStorage None None
     ∧ learnedWordsTodayCount r.2 = learnedWordsTodayCount st'
     ∧ totalWordsLearnedOverall r.2 = totalWordsLearnedOverall st'
     ∧ learningStreak r.2 = learningStreak st'
     ∧ allWords r.2 = allWords st').
Proof.
  intros started r.
  assert (Hstorage : started.2 = mkStorage None None).
  { unfold started, startQuickReview. rewrite bind_unfold. by case_bool_decide. }
  split; [done|]. split.
  - unfold started, startQuickReview. rewrite bind_unfold.
    assert (Hlen : length (selectFor getTime st grade now 3 true rs).1
                   = (3 `min` potentialReviewWords (allWords st) (wordStats st) grade now)%nat).
    { unfold selectFor, selectWords. rewrite bind_unfold. unfold ret. cbn [fst].
      rewrite slice0_3_length, ShuffleFacts.shuffleArray_length, sortBy_Permutation.
      f_equal. unfold potentialReviewWords, eligibleWords, gradeUnmastered.
      rewrite list_filter_filter. f_equal. apply list_filter_iff. intros w.
      rewrite !andb_True. tauto. }
    rewrite Hlen.
    destruct (decide (0 < potentialReviewWords (allWords st) (wordStats st) grade now)%nat).
    + rewrite !bool_decide_eq_true_2 by lia. done.
    + rewrite !bool_decide_eq_false_2 by lia. done.
  - intros Hactive. unfold r. rewrite Hstorage.
    destruct (nextClicks_quick clocks started.1 st' Hactive) as (Hs & Hq & ? & ? & ? & ?).
    split_and!; try done. unfold handleExitLearning. by rewrite Hq, Hs.
Qed.

Section DailySessionFacts.
Implicit Types (s : Session) (storage : SessionStorage) (st : App).

(** [k] clicks on "next" in a daily session that has at least [k] words left
    are the [onWordLearned(id, false)] calls for the next [k] words of the
    set; the storage follows the cursor until the last word, whose click
    finishes the session and clears the storage. *)
Lemma nextClicks_daily clocks s storage st :
  isQuickReviewActive s = false →
  (0 < length clocks)%nat →
  (currentIndex s + length clocks ≤ length (currentWordsSet s))%nat →
  let r := nextClicks clocks s storage st in
  let n := (currentIndex s + length clocks)%nat in
  r.2 = run st (learnedEvents
                  (zip clocks (Word.id <$> drop (currentIndex s) (currentWordsSet s))))
  ∧ currentWordsSet r.1.1 = currentWordsSet s
  ∧ isQuickReviewActive r.1.1 = false
  ∧ (if bool_decide (n < length (currentWordsSet s))%nat
     then currentIndex r.1.1 = n
          ∧ isDailyGoalFinished r.1.1 = isDailyGoalFinished s
          ∧ r.1.2 = mkStorage (Some (pretty n)) (storedSignature storage)
     else isDailyGoalFinished r.1.1 = true ∧ r.1.2 = mkStorage None None).
Proof.
  revert s storage st. induction clocks as [|c clocks' IH]; intros s storage st Hdaily Hpos Hle.
  { cbn [length] in Hpos. lia. }
  cbn [length] in Hle.
  destruct (lookup_lt_is_Some_2 (currentWordsSet s) (currentIndex s)) as [w Hw]; [lia|].
  rewrite (drop_S _ _ _ Hw), fmap_cons. cbn [zip zip_with nextClicks].
  unfold handleNextWord. rewrite Hw, Hdaily.
  destruct clocks' as [|c' clocks''].
  - cbn [length nextClicks zip zip_with fst snd].
    replace (currentIndex s + 1)%nat with (S (currentIndex s)) by lia.
    case_bool_decide; cbn [fst snd]; by split_and!.
  - cbn [length] in Hle.
    rewrite bool_decide_eq_true_2 by lia.
    set (s1 := mkSession _ _ _ _ _). set (storage1 := mkStorage _ _).
    set (st1 := onWordLearned _ _ _ _).
    destruct (IH s1 storage1 st1) as (Hrun & Hset & Hq & Hend); [done|cbn [length]; lia| |].
    { subst s1. cbn [currentIndex currentWordsSet length]. lia. }
    subst s1 storage1. cbn [currentIndex currentWordsSet isDailyGoalFinished
                             storedSignature] in *.
    replace (currentIndex s + 1)%nat with (S (currentIndex s)) in * by lia.
    replace (currentIndex s + length (c :: c' :: clocks''))%nat
      with (S (currentIndex s) + length (c' :: clocks''))%nat by (cbn [length]; lia).
    by split_and!.
Qed.

(** Once learned on a day, a word counts as reviewed on that day whatever is
    learned later the same day. *)
Lemma onWordLearned_reviewed_today now wordId today st :
  getTodayDateString now = today →
  notReviewedOn today
    (WordStat.lastReviewed
       (getWordStat (wordStats (onWordLearned now wordId false st)) wordId)) = false.
Proof.
  intros <-. rewrite getWordStat_onWordLearned. cbn [WordStat.lastReviewed reviewedStat].
  unfold notReviewedOn. rewrite DateFacts.toISOString_truthy.
  unfold getTodayDateString. by rewrite bool_decide_eq_true_2.
Qed.

Lemma onWordLearned_keeps_reviewed now wordId wordId' today st :
  getTodayDateString now = today →
  notReviewedOn today (WordStat.lastReviewed (getWordStat (wordStats st) wordId')) = false →
  notReviewedOn today
    (WordStat.lastReviewed
       (getWordStat (wordStats (onWordLearned now wordId false st)) wordId')) = false.
Proof.
  intros Hday Hrev.
  destruct (decide (propertyKey wordId' = propertyKey wordId)) as [Heq|Hne].
  - unfold getWordStat. rewrite onWordLearned_wordStats, Heq, lookup_insert_eq.
    cbn [default id WordStat.lastReviewed reviewedStat]. subst today.
    unfold notReviewedOn. rewrite DateFacts.toISOString_truthy.
    unfold getTodayDateString. by rewrite bool_decide_eq_true_2.
  - by rewrite getWordStat_onWordLearned_ne.
Qed.

Lemma run_learnedEvents_reviewed st (clicks : list (Clock * WordId)) today wordId :
  Forall (λ click, getTodayDateString click.1 = today) clicks →
  notReviewedOn today (WordStat.lastReviewed (getWordStat (wordStats st) wordId)) = false
  ∨ wordId ∈ clicks.*2 →
  notReviewedOn today
    (WordStat.lastReviewed
       (getWordStat (wordStats (run st (learnedEvents clicks))) wordId)) = false.
Proof.
  unfold run, learnedEvents. revert st.
  induction clicks as [|[now wordId'] clicks IH]; intros st Hall Hin.
  { destruct Hin as [Hrev|Hin]; [done|]. by apply elem_of_nil in Hin. }
  apply Forall_cons in Hall as [Hday Hall]. cbn [fst] in Hday.
  rewrite fmap_cons. cbn [foldl step fst snd]. apply IH; [done|].
  rewrite fmap_cons in Hin. cbn [snd] in Hin.
  destruct Hin as [Hrev|Hin].
  - left. by apply onWordLearned_keeps_reviewed.
  - apply elem_of_cons in Hin as [->|Hin]; [|by right].
    left. by apply onWordLearned_reviewed_today.
Qed.

Lemma run_learnedEvents_allWords st (clicks : list (Clock * WordId)) :
  allWords (run st (learnedEvents clicks)) = allWords st.
Proof.
  unfold run, learnedEvents. revert st.
  induction clicks as [|[now wordId] clicks IH]; intros st; [done|].
  rewrite fmap_cons. cbn [foldl step fst snd].
  by rewrite IH, onWordLearned_allWords.
Qed.

End DailySessionFacts.

Section DailySelectionFacts.
Variable getTime : string → option Z.

(** The words of a DailyNew selection have pairwise distinct stat keys when
    those of the catalog do. *)
Lemma selectFor_daily_keys_NoDup (st : App) grade now count rs (i : nat) :
  NoDup ((λ w, propertyKey (Word.id w)) <$> allWords st) →
  NoDup ((λ w, propertyKey (Word.id w))
           <$> drop i (selectFor getTime st grade now count false rs).1).
Proof.
  intros Hnd. unfold selectFor.
  eapply sublist_NoDup; [|apply fmap_sublist, sublist_drop].
  assert (Hsub : (λ w, propertyKey (Word.id w))
                   <$> (selectWords getTime (allWords st) (wordStats st) grade now count
                          false rs).1
                 ⊆+ (λ w, propertyKey (Word.id w)) <$> allWords st).
  { apply fmap_submseteq. etrans; [apply selectWords_submseteq|].
    apply sublist_submseteq, eligibleWords_sublist. }
  apply submseteq_Permutation in Hsub as [k Hk]. rewrite Hk in Hnd.
  by apply NoDup_app in Hnd as [? _].
Qed.

Lemma selectFor_daily_not_reviewed (st : App) grade now count rs w :
  w ∈ (selectFor getTime st grade now count false rs).1 →
  notReviewedOn (getTodayDateString now)
    (WordStat.lastReviewed (getWordStat (wordStats st) (Word.id w))) = true.
Proof.
  intros Hw. unfold selectFor in Hw. apply selectWords_elem_of in Hw.
  by eapply elem_of_eligibleWords_daily_bool.
Qed.

End DailySelectionFacts.

(** X26.  A daily session played to its end on one calendar day, in a
    catalog whose ids have pairwise distinct string forms: starting from the
    session the mount effect sets up, one click on "next" per word
    that is left finishes the session and empties the session storage; every
    click is a first learning of its word, so [learnedWordsTodayCount] and
    [totalWordsLearnedOverall] grow by the number of clicks and the XP by 5
    per click; and none of the words learned is in the set a retry on the
    same day selects. *)
Theorem daily_session_completed (parseInt getTime : string → option Z) (st : App)
    (grade : string) (dailyGoal : Z) (now : Clock) (storage : SessionStorage) (rs : Rand)
    (clocks : list Clock) :
  let started := (startDailySession parseInt getTime st grade dailyGoal now storage rs).1 in
  let learned := drop (currentIndex started.1) (currentWordsSet started.1) in
  let r := nextClicks clocks started.1 started.2 st in
  NoDup ((λ w, propertyKey (Word.id w)) <$> allWords st) →
  Forall (λ c, getTodayDateString c = getTodayDateString now) clocks →
  (0 < length clocks)%nat →
  length clocks = length learned →
  isDailyGoalFinished r.1.1 = true
  ∧ r.1.2 = mkStorage None None
  ∧ learnedWordsTodayCount r.2 = learnedWordsTodayCount st + Z.of_nat (length learned)
  ∧ totalWordsLearnedOverall r.2
    = totalWordsLearnedOverall st + Z.of_nat (length learned)
  ∧ UserSettings.xp <$> userSettings r.2
    = (λ s, UserSettings.xp s + 5 * Z.of_nat (length learned)) <$> userSettings st
  ∧ ∀ (now' : Clock) (dailyGoal' : Z) (rs' : Rand) (w : Word.t),
      getTodayDateString now' = getTodayDateString now →
      w ∈ learned →
      w ∉ currentWordsSet
            (handleRetryDailyLearning getTime r.2 grade dailyGoal' now' r.1.2 rs').1.1.
Proof.
  intros started learned r Hnd Hday Hpos Hlen.
  destruct (startDailySession_spec parseInt getTime st grade dailyGoal now storage rs)
    as (Hset & Hrange & _ & Hdaily & _).
  fold started in Hset, Hrange, Hdaily.
  assert (Hle : (currentIndex started.1 + length clocks
                 = length (currentWordsSet started.1))%nat).
  { rewrite Hlen. unfold learned. rewrite length_drop.
    destruct Hrange as [?|[-> ->]]; [lia|done]. }
  destruct (nextClicks_daily clocks started.1 started.2 st Hdaily Hpos) as (Hrun & _ & _ & Hend);
    [lia|].
  fold r in Hrun, Hend. fold learned in Hrun.
  rewrite bool_decide_eq_false_2 in Hend by lia. destruct Hend as [Hfin Hsto].
  set (clicks := zip clocks (Word.id <$> learned)) in Hrun.
  assert (Hids : clicks.*2 = Word.id <$> learned).
  { apply snd_zip. rewrite length_fmap. lia. }
  assert (Hclicks : length clicks = length learned).
  { by rewrite <- (length_fmap snd), Hids, length_fmap. }
  assert (Hall : Forall (λ click, getTodayDateString click.1 = getTodayDateString now) clicks).
  { apply Forall_forall. intros [c wordId] Hin. apply elem_of_zip_l in Hin.
    rewrite Forall_forall in Hday. by apply Hday. }
  destruct (run_learnedEvents_counts st clicks (getTodayDateString now)) as (Hl & Ht & Hxp).
  { replace ((λ click : Clock * WordId, propertyKey click.2) <$> clicks)
      with (propertyKey <$> clicks.*2) by (by rewrite <- list_fmap_compose).
    rewrite Hids, <- list_fmap_compose. unfold learned. rewrite Hset.
    by apply selectFor_daily_keys_NoDup. }
  { apply Forall_forall. intros [c wordId] Hin. split.
    - rewrite Forall_forall in Hall. by apply (Hall (c, wordId)).
    - apply elem_of_zip_r in Hin. apply list_elem_of_fmap in Hin as (w & -> & Hw).
      unfold learned in Hw. rewrite Hset in Hw.
      eapply selectFor_daily_not_reviewed.
      rewrite <- (take_drop (currentIndex started.1)). apply elem_of_app. right. exact Hw. }
  rewrite <- Hrun, Hclicks in Hl, Ht, Hxp.
  split_and!; [done..|].
  intros now' dailyGoal' rs' w Hsame Hw Hin.
  unfold handleRetryDailyLearning in Hin. rewrite bind_unfold in Hin.
  cbn [ret fst currentWordsSet] in Hin.
  apply selectFor_daily_not_reviewed in Hin.
  rewrite Hsame, Hrun, run_learnedEvents_reviewed in Hin; [done|done|].
  right. rewrite Hids. apply list_elem_of_fmap. by exists w.
Qed.

Lemma daily_session_completed_witness :
  let st := Sample.app [Sample.apple; Sample.river] in
  let started :=
    (startDailySession parseIntDigits Sample.noTime st "middle1" 10 Sample.clock
       (mkStorage None None) Sample.zeros).1 in
  let r := nextClicks [Sample.clock; Sample.laterSameDay] started.1 started.2 st in
  isDailyGoalFinished r.1.1 = true
  ∧ r.1.2 = mkStorage None None
  ∧ learnedWordsTodayCount r.2 = 2
  ∧ totalWordsLearnedOverall r.2 = 2
  ∧ UserSettings.xp <$> userSettings r.2 = Some 105.
Proof.
  destruct (daily_session_completed parseIntDigits Sample.noTime
              (Sample.app [Sample.apple; Sample.river]) "middle1" 10 Sample.clock
              (mkStorage None None) Sample.zeros [Sample.clock; Sample.laterSameDay])
    as (Hfin & Hsto & Hl & Ht & Hxp & _).
  - compute_done.
  - repeat constructor.
  - simpl. lia.
  - vm_compute. reflexivity.
  - split_and!; [exact Hfin|exact Hsto|exact Hl|exact Ht|exact Hxp].
Defined.

(** ** The word-set signature *)

Section SignatureFacts.

Lemma commaFree_no_comma (a b y : string) :
  commaFree a = true → a ≠ b +:+ String ","%char y.
Proof.
  revert a. induction b as [|d b IH]; intros a Ha Heq; cbn in Heq; subst a.
  - cbn in Ha. done.
  - cbn in Ha. apply andb_true_iff in Ha as [_ Ha]. by apply (IH _ Ha).
Qed.

Lemma commaFree_app_inj (a b x y : string) :
  commaFree a = true → commaFree b = true →
  a +:+ String ","%char x = b +:+ String ","%char y → a = b ∧ x = y.
Proof.
  revert b. induction a as [|c a IH]; intros [|d b] Ha Hb Heq; cbn in Heq.
  - by injection Heq as ->.
  - injection Heq as <- _. cbn in Hb. done.
  - injection Heq as -> _. cbn in Ha. done.
  - injection Heq as -> Heq. cbn in Ha, Hb.
    apply andb_true_iff in Ha as [_ Ha]. apply andb_true_iff in Hb as [_ Hb].
    destruct (IH b Ha Hb Heq) as [-> ->]. done.
Qed.

Lemma joinComma_cons2 (x y : string) l :
  joinComma (x :: y :: l) = x +:+ String ","%char (joinComma (y :: l)).
Proof. done. Qed.

(** Keys without a comma can be read back from the signature. *)
Lemma joinComma_inj (l1 l2 : list string) :
  Forall (λ k, commaFree k = true) l1 → Forall (λ k, commaFree k = true) l2 →
  l1 ≠ [] → l2 ≠ [] →
  joinComma l1 = joinComma l2 → l1 = l2.
Proof.
  revert l2. induction l1 as [|x l1 IH]; intros [|y l2] H1 H2 Hn1 Hn2 Heq; try done.
  apply Forall_cons in H1 as [Hx H1]. apply Forall_cons in H2 as [Hy H2].
  destruct l1 as [|x' l1], l2 as [|y' l2].
  - cbn in Heq. by subst.
  - rewrite joinComma_cons2 in Heq. cbn [joinComma] in Heq.
    by apply commaFree_no_comma in Heq.
  - rewrite joinComma_cons2 in Heq. cbn [joinComma] in Heq.
    symmetry in Heq. by apply commaFree_no_comma in Heq.
  - rewrite !joinComma_cons2 in Heq.
    apply commaFree_app_inj in Heq as [-> Heq]; [|done..].
    f_equal. by apply IH.
Qed.

Lemma joinComma_cons2_nonempty (x y : string) l : joinComma (x :: y :: l) ≠ "".
Proof. rewrite joinComma_cons2. by destruct x. Qed.

Lemma lastReviewed_getWordStat_key (wordStats : gmap string WordStat.t) (a b : WordId) :
  propertyKey a = propertyKey b →
  WordStat.lastReviewed (getWordStat wordStats a)
  = WordStat.lastReviewed (getWordStat wordStats b).
Proof.
  intros Hkey. unfold getWordStat. rewrite Hkey.
  by destruct (wordStats !! propertyKey b).
Qed.

End SignatureFacts.

Section ReloadFacts.
Variables parseInt getTime : string → option Z.

(** Without a matching stored signature the mount effect starts at the
    first word. *)
Lemma startDailySession_mismatch (st : App) grade dailyGoal now storage rs :
  storedSignature storage
  ≠ Some (wordSetSignature (selectFor getTime st grade now dailyGoal false rs).1) →
  let r := (startDailySession parseInt getTime st grade dailyGoal now storage rs).1 in
  currentIndex r.1 = 0%nat
  ∧ (storedIndexStr r.2 = None ∨ storedIndexStr r.2 = Some "0").
Proof.
  intros Hsig r. unfold r, startDailySession. rewrite bind_unfold.
  rewrite (bool_decide_eq_false_2 _ Hsig).
  destruct (storedIndexStr storage);
    destruct (Js.truthyStr _ && bool_decide _); cbn; split; auto.
Qed.

(** The selection depends on the catalog and the stats only. *)
Lemma selectFor_ext (st st2 : App) grade now count forQuickReview rs :
  allWords st2 = allWords st → wordStats st2 = wordStats st →
  selectFor getTime st2 grade now count forQuickReview rs
  = selectFor getTime st grade now count forQuickReview rs.
Proof. intros Hw Hs. unfold selectFor. by rewrite Hw, Hs. Qed.

Lemma selectFor_elem_of_allWords (st : App) grade now count forQuickReview rs w :
  w ∈ (selectFor getTime st grade now count forQuickReview rs).1 → w ∈ allWords st.
Proof.
  intros Hw. unfold selectFor in Hw. apply selectWords_elem_of in Hw.
  eapply elem_of_submseteq; [exact Hw|].
  apply sublist_submseteq, eligibleWords_sublist.
Qed.

End ReloadFacts.

(** X27.  The stored cursor is never restored after a word was learned: when
    the mount effect runs again on the same calendar day (a reload) after
    one or more clicks on "next" in an unfinished daily session, with the
    catalog and the stats the clicks left, the new DailyNew set contains none
    of the words learned, so its signature differs from the stored one (ids
    without a comma: numbers and [Date.now()] strings) and the session starts
    at index 0, with the stored index removed or reset to ["0"]. *)
Theorem reload_after_learning_restarts (parseInt getTime : string → option Z)
    (st st2 : App) (grade : string) (dailyGoal dailyGoal' : Z) (now now' : Clock)
    (storage : SessionStorage) (rs rs' : Rand) (clocks : list Clock) :
  let started := (startDailySession parseInt getTime st grade dailyGoal now storage rs).1 in
  let daily := currentWordsSet started.1 in
  let r := nextClicks clocks started.1 started.2 st in
  let reloaded :=
    (startDailySession parseInt getTime st2 grade dailyGoal' now' r.1.2 rs').1 in
  Forall (λ w, commaFree (propertyKey (Word.id w)) = true) (allWords st) →
  Forall (λ c, getTodayDateString c = getTodayDateString now) clocks →
  getTodayDateString now' = getTodayDateString now →
  allWords st2 = allWords r.2 →
  wordStats st2 = wordStats r.2 →
  (0 < length clocks)%nat →
  (currentIndex started.1 + length clocks < length daily)%nat →
  isDailyGoalFinished r.1.1 = false
  ∧ storedIndexStr r.1.2 = Some (pretty (currentIndex started.1 + length clocks)%nat)
  ∧ currentIndex reloaded.1 = 0%nat
  ∧ (storedIndexStr reloaded.2 = None ∨ storedIndexStr reloaded.2 = Some "0")
  ∧ ∀ w, w ∈ take (length clocks) (drop (currentIndex started.1) daily) →
         w ∉ currentWordsSet reloaded.1.
Proof.
  intros started daily r reloaded Hcomma Hday Hsame Hwords Hstats Hpos Hlt.
  destruct (startDailySession_spec parseInt getTime st grade dailyGoal now storage rs)
    as (Hset & Hrange & Hfin0 & Hdaily & _ & Hsto).
  fold started in Hset, Hrange, Hfin0, Hdaily, Hsto. fold daily in Hset, Hrange, Hfin0, Hsto.
  destruct (nextClicks_daily clocks started.1 started.2 st Hdaily Hpos) as (Hrun & _ & _ & Hend);
    [fold daily; lia|].
  fold r daily in Hrun, Hend.
  rewrite bool_decide_eq_true_2 in Hend by lia. destruct Hend as (_ & Hfin & Hstorage).
  set (learned := take (length clocks) (drop (currentIndex started.1) daily)).
  rewrite <- (zip_with_take_r _ clocks), <- fmap_take in Hrun. fold learned in Hrun.
  set (clicks := zip clocks (Word.id <$> learned)) in Hrun.
  assert (Hlearned : length learned = length clocks).
  { unfold learned. rewrite length_take, length_drop. lia. }
  assert (Hids : clicks.*2 = Word.id <$> learned).
  { apply snd_zip. rewrite length_fmap. lia. }
  assert (Hall : Forall (λ click, getTodayDateString click.1 = getTodayDateString now) clicks).
  { apply Forall_forall. intros [c wordId] Hin. apply elem_of_zip_l in Hin.
    rewrite Forall_forall in Hday. by apply Hday. }
  assert (Hwords2 : allWords st2 = allWords st).
  { by rewrite Hwords, Hrun, run_learnedEvents_allWords. }
  (* a word with the key of a learned word is not selected again today *)
  assert (Hgone : ∀ w w', w ∈ learned →
            propertyKey (Word.id w') = propertyKey (Word.id w) →
            w' ∉ (selectFor getTime st2 grade now' dailyGoal' false rs').1).
  { intros w w' Hw Hkey Hin. apply selectFor_daily_not_reviewed in Hin.
    rewrite (lastReviewed_getWordStat_key _ _ _ Hkey), Hsame, Hstats, Hrun in Hin.
    rewrite run_learnedEvents_reviewed in Hin; [done|done|].
    right. rewrite Hids. apply list_elem_of_fmap. by exists w. }
  assert (Hreloaded : currentWordsSet reloaded.1
                      = (selectFor getTime st2 grade now' dailyGoal' false rs').1).
  { apply startDailySession_spec. }
  assert (Hfalse : isDailyGoalFinished started.1 = false).
  { rewrite Hfin0. apply bool_decide_eq_false_2. intros Hnil. rewrite Hnil in Hlt.
    cbn [length] in Hlt. lia. }
  assert (Hmis : storedSignature r.1.2
                 ≠ Some (wordSetSignature
                           (selectFor getTime st2 grade now' dailyGoal' false rs').1)).
  { rewrite Hstorage. cbn [storedSignature].
    intros Hsig. destruct Hsto as [Hsto|(Hsto & _ & _)]; [by rewrite Hsto in Hsig|].
    rewrite Hsto in Hsig. injection Hsig as Hsig. unfold wordSetSignature in Hsig.
    destruct (lookup_lt_is_Some_2 learned 0%nat) as [w Hw]; [lia|].
    apply list_elem_of_lookup_2 in Hw.
    assert (Hwd : w ∈ daily).
    { pose proof Hw as Hw2. unfold learned in Hw2. apply elem_of_take in Hw2 as (j & Hj & _).
      apply list_elem_of_lookup_2 in Hj.
      rewrite <- (take_drop (currentIndex started.1) daily). apply elem_of_app. by right. }
    set (key := λ w : Word.t, propertyKey (Word.id w)) in *.
    set (daily' := (selectFor getTime st2 grade now' dailyGoal' false rs').1) in *.
    assert (Hkeys : key <$> daily = key <$> daily').
    { apply joinComma_inj; [| | | |done].
      - apply Forall_fmap, Forall_forall. intros x Hx.
        rewrite Forall_forall in Hcomma. apply Hcomma.
        rewrite Hset in Hx. by eapply selectFor_elem_of_allWords.
      - apply Forall_fmap, Forall_forall. intros x Hx.
        rewrite Forall_forall in Hcomma. apply Hcomma. rewrite <- Hwords2.
        by eapply selectFor_elem_of_allWords.
      - intros Hnil. apply fmap_nil_inv in Hnil. rewrite Hnil in Hwd.
        by apply elem_of_nil in Hwd.
      - intros Hnil. rewrite Hnil in Hsig. cbn [joinComma] in Hsig.
        destruct daily as [|x [|y l]]; [cbn [length] in Hlt; lia..|].
        by apply (joinComma_cons2_nonempty (key x) (key y) (key <$> l)). }
    assert (Hk : key w ∈ key <$> daily') by (rewrite <- Hkeys; by apply list_elem_of_fmap_2).
    apply list_elem_of_fmap in Hk as (w' & Hkey & Hw').
    by apply (Hgone w w' Hw). }
  destruct (startDailySession_mismatch parseInt getTime st2 grade dailyGoal' now' r.1.2 rs'
              Hmis) as [Hzero Hidx].
  fold reloaded in Hzero, Hidx.
  split_and!; [by rewrite Hfin|by rewrite Hstorage|done|done|].
  intros w Hw. rewrite Hreloaded. by apply (Hgone w w).
Qed.

Lemma reload_after_learning_restarts_witness :
  let st := Sample.app [Sample.apple; Sample.river; Sample.cloud] in
  let started :=
    (startDailySession parseIntDigits Sample.noTime st "middle1" 10 Sample.clock
       (mkStorage None None) Sample.zeros).1 in
  let r := nextClicks [Sample.clock] started.1 started.2 st in
  let reloaded :=
    (startDailySession parseIntDigits Sample.noTime r.2 "middle1" 10 Sample.laterSameDay
       r.1.2 Sample.zeros).1 in
  storedIndexStr r.1.2 = Some "1"
  ∧ currentIndex reloaded.1 = 0%nat
  ∧ (storedIndexStr reloaded.2 = None ∨ storedIndexStr reloaded.2 = Some "0").
Proof.
  destruct (reload_after_learning_restarts parseIntDigits Sample.noTime
              (Sample.app [Sample.apple; Sample.river; Sample.cloud])
              (nextClicks [Sample.clock]
                 (startDailySession parseIntDigits Sample.noTime
                    (Sample.app [Sample.apple; Sample.river; Sample.cloud]) "middle1" 10
                    Sample.clock (mkStorage None None) Sample.zeros).1.1
                 (startDailySession parseIntDigits Sample.noTime
                    (Sample.app [Sample.apple; Sample.river; Sample.cloud]) "middle1" 10
                    Sample.clock (mkStorage None None) Sample.zeros).1.2
                 (Sample.app [Sample.apple; Sample.river; Sample.cloud])).2
              "middle1" 10 10 Sample.clock Sample.laterSameDay (mkStorage None None)
              Sample.zeros Sample.zeros [Sample.clock])
    as (_ & Hidx & Hzero & Hstored & _).
  - repeat constructor.
  - repeat constructor.
  - vm_compute. reflexivity.
  - reflexivity.
  - reflexivity.
  - simpl. lia.
  - vm_compute. lia.
  - split_and!; [exact Hidx|exact Hzero|exact Hstored].
Defined.

(** ** Marking a word as mastered *)

(** X28.  Marking an unmastered word as mastered ([toggleMastered]) takes it
    out of learning: its stat becomes mastered with review date and incorrect
    count kept, [selectWords] returns it in neither mode whatever the grade,
    date, count and random draws, the stats under other keys and the rest of
    the state are untouched, and a second toggle makes it unmastered again
    with the same review date and incorrect count. *)
Theorem toggleMastered_excludes (getTime : string → option Z) (word : Word.t) (st : App)
    (grade : string) (now : Clock) (count : Z) (forQuickReview : bool) (rs : Rand) :
  WordStat.isMastered (getWordStat (wordStats st) (Word.id word)) = false →
  let stat := getWordStat (wordStats st) (Word.id word) in
  let st' := toggleMastered word st in
  let stat' := getWordStat (wordStats st') (Word.id word) in
  let stat'' := getWordStat (wordStats (toggleMastered word st')) (Word.id word) in
  WordStat.isMastered stat' = true
  ∧ WordStat.lastReviewed stat' = WordStat.lastReviewed stat
  ∧ WordStat.quizIncorrectCount stat' = WordStat.quizIncorrectCount stat
  ∧ (word ∉ (selectWords getTime (allWords st') (wordStats st') grade now count
               forQuickReview rs).1)
  ∧ (∀ wordId, propertyKey wordId ≠ propertyKey (Word.id word) →
       wordStats st' !! propertyKey wordId = wordStats st !! propertyKey wordId)
  ∧ allWords st' = allWords st
  ∧ userSettings st' = userSettings st
  ∧ learnedWordsTodayCount st' = learnedWordsTodayCount st
  ∧ totalWordsLearnedOverall st' = totalWordsLearnedOverall st
  ∧ learningStreak st' = learningStreak st
  ∧ WordStat.isMastered stat'' = false
  ∧ WordStat.lastReviewed stat'' = WordStat.lastReviewed stat
  ∧ WordStat.quizIncorrectCount stat'' = WordStat.quizIncorrectCount stat.
Proof.
  intros Hm stat st' stat' stat''.
  assert (Hstat' : stat' = mergeStat (Word.id word) stat
                             {| StatPatch.isMastered := Some true;
                                StatPatch.lastReviewed := None;
                                StatPatch.quizIncorrectCount := None |}).
  { unfold stat', st', toggleMastered. rewrite getWordStat_updateWordStat.
    by rewrite Hm. }
  assert (Hmastered : WordStat.isMastered stat' = true) by by rewrite Hstat'.
  assert (Hstat'' : stat'' = mergeStat (Word.id word) stat'
                              {| StatPatch.isMastered := Some false;
                                 StatPatch.lastReviewed := None;
                                 StatPatch.quizIncorrectCount := None |}).
  { unfold stat'', toggleMastered at 1. rewrite getWordStat_updateWordStat.
    change (getWordStat (wordStats st') (Word.id word)) with stat'.
    by rewrite Hmastered. }
  split_and!; try (by rewrite Hstat'); try (by rewrite Hstat'', Hstat').
  - intros Hin. apply selectWords_elem_of in Hin. unfold stat' in Hmastered.
    destruct forQuickReview.
    + apply elem_of_eligibleWords_quick in Hin as (_ & Hno & _). congruence.
    + apply elem_of_eligibleWords_daily in Hin as (_ & Hno & _). congruence.
  - intros wordId Hne. unfold st', toggleMastered, updateWordStat, setWordStats.
    cbn [wordStats]. by rewrite lookup_insert_ne.
  - reflexivity.
  - reflexivity.
  - reflexivity.
  - reflexivity.
  - reflexivity.
Qed.

Lemma toggleMastered_excludes_witness :
  let st := Sample.app [Sample.apple; Sample.river] in
  let st' := toggleMastered Sample.apple st in
  WordStat.isMastered (getWordStat (wordStats st') (IdNum 1)) = true
  ∧ (Sample.apple ∉ (selectWords Sample.noTime (allWords st') (wordStats st') "middle1"
                       Sample.clock 10 false Sample.zeros).1).
Proof.
  destruct (toggleMastered_excludes Sample.noTime Sample.apple
              (Sample.app [Sample.apple; Sample.river]) "middle1" Sample.clock 10 false
              Sample.zeros) as (Hmastered & _ & _ & Hout & _).
  - reflexivity.
  - split; [exact Hmastered|exact Hout].
Defined.

(** ** The word match game *)

Section GameFacts.

Lemma replaceFirst_term_prefix (key : string) : replaceFirst "term-" "" ("term-" +:+ key) = key.
Proof. by destruct key. Qed.

Lemma isCorrectMatch_key (w : Word.t) (originalWordId : WordId) :
  isCorrectMatch (optionId (TermOption w)) originalWordId = true
  ↔ propertyKey (Word.id w) = propertyKey originalWordId.
Proof.
  unfold isCorrectMatch, optionId. rewrite replaceFirst_term_prefix.
  apply bool_decide_eq_true.
Qed.

End GameFacts.



(** X30.  [initializeGame] starts no game when the grade has fewer than 5
    words; otherwise it deals 5 words drawn from the grade's words (no word
    more often than the catalog lists it) and 10 cards, which are the term
    card and the meaning card of each of the 5 words in some order; and the
    matching test accepts a term card with a meaning card exactly when the
    two words' ids have the same string form. *)
Theorem initializeGame_cards (words : list Word.t) (grade : string) (rs : Rand) :
  match (initializeGame words grade rs).1 with
  | None => (length (gradeWords words grade) < 5)%nat
  | Some (gameWords, options) =>
      (5 ≤ length (gradeWords words grade))%nat
      ∧ length gameWords = 5%nat
      ∧ gameWords ⊆+ gradeWords words grade
      ∧ options ≡ₚ (TermOption <$> gameWords)
                   ++ ((λ w, MeaningOption (Word.meaning w) (Word.id w)) <$> gameWords)
      ∧ length options = 10%nat
      ∧ Forall (λ w, Forall (λ w',
            isCorrectMatch (optionId (TermOption w)) (Word.id w') = true
            ↔ propertyKey (Word.id w) = propertyKey (Word.id w')) gameWords) gameWords
  end.
Proof.
  unfold initializeGame. fold (gradeWords words grade).
  case_bool_decide as Hlen; [done|].
  rewrite !bind_unfold. unfold ret. cbn [fst].
  set (shuffled := (Shuffle.shuffleArray (gradeWords words grade) rs).1).
  set (gameWords := Js.slice0 shuffled (Z.of_nat NUM_PAIRS)).
  assert (Hfive : length gameWords = 5%nat).
  { unfold gameWords. rewrite slice0_length_nat. unfold shuffled.
    rewrite ShuffleFacts.shuffleArray_length. unfold NUM_PAIRS in *. lia. }
  assert (Hperm : ∀ l rs', (Shuffle.shuffleArray (A:=GameOption) l rs').1 ≡ₚ l)
    by (intros; apply ShuffleFacts.shuffleArray_Permutation).
  split_and!.
  - unfold NUM_PAIRS in Hlen. lia.
  - done.
  - unfold gameWords, shuffled. etrans; [apply sublist_submseteq, slice0_sublist|].
    by rewrite ShuffleFacts.shuffleArray_Permutation.
  - apply Hperm.
  - rewrite Hperm, length_app, !length_fmap. lia.
  - apply Forall_forall. intros w _. apply Forall_forall. intros w' _.
    apply isCorrectMatch_key.
Qed.
